(** * semantic_world.spatial_types: symbolic geometry layer

    A shallow embedding of [spatial_types.py].  The Python functions are
    Rocq functions that build symbolic expressions; the expressions of the
    algebra engine ([ca.SX]) are an inductive type with an evaluation
    function over the reals.  Python exceptions are an explicit result
    type, mutable objects are passed as explicit state. *)

From Stdlib Require Import Reals Lra Lia ZArith List Ascii String RNsatz.
From stdpp Require Import gmap strings.
Import ListNotations.

Open Scope R_scope.

(** * Python results: a value or a raised exception *)

Inductive exn : Type :=
| TypeError
| AssertionError
| ValueError
| KeyError
| IndexError
| ArithmeticError   (* Python's own arithmetic on numbers *)
| RecursionError
| EngineError.      (* an exception raised inside the algebra engine *)

Inductive result (A : Type) : Type :=
| Ok (a : A)
| Raise (e : exn).
Arguments Ok {A} a.
Arguments Raise {A} e.

Definition bind {A B : Type} (m : result A) (k : A -> result B) : result B :=
  match m with
  | Ok a => k a
  | Raise e => Raise e
  end.

Notation "'let*' x ':=' m 'in' k" := (bind m (fun x => k))
  (at level 10, x pattern, m at level 100, k at level 200).

Definition raises {A : Type} (m : result A) : Prop := exists e, m = Raise e.

(** Option binding, used by the evaluator. *)
Definition obind {A B : Type} (m : option A) (k : A -> option B) : option B :=
  match m with
  | Some a => k a
  | None => None
  end.

Notation "'let?' x ':=' m 'in' k" := (obind m (fun x => k))
  (at level 10, x pattern, m at level 100, k at level 200).

(** * The algebra engine: scalar expressions *)

(** The engine ([casadi]) is a library the module builds on.  What is kept
    of it: an expression is a tree over constants and symbols, without the
    simplifications the engine applies on the way (they keep the value); a
    symbol is known by its name, as all symbols of the module come from the
    registry of [Symbol]; numbers are real numbers, and an operation whose
    result is no real number (a division by 0, the root of a negative
    number) has no value. *)

Module Engine.

Inductive unop : Type := OpNeg | OpNot | OpSqrt | OpFabs | OpAcos | OpSin | OpCos.

Inductive binop : Type :=
| OpAdd | OpSub | OpMul | OpDiv | OpPow
| OpLt | OpLe | OpEq | OpNe
| OpAnd | OpOr
| OpFmin | OpFmax.

(** One scalar entry of a [ca.SX]. *)
Inductive sx : Type :=
| Const (c : R)
| Sym (name : string)
| Un (o : unop) (a : sx)
| Bin (o : binop) (a b : sx)
| IfElse (c a b : sx).

Definition truth (b : bool) : R := if b then 1 else 0.

Definition Rzero (x : R) : bool := if Req_dec_T x 0 then true else false.
Definition Req_b (x y : R) : bool := if Req_dec_T x y then true else false.
Definition Rlt_b (x y : R) : bool := if Rlt_dec x y then true else false.
Definition Rle_b (x y : R) : bool := if Rle_dec x y then true else false.

(** [pow] of the C library on the reals: undefined (NaN or infinite) results
    are [None]. *)
Definition is_integer (y : R) : bool := Req_b y (IZR (Int_part y)).

Definition pow_real (x y : R) : option R :=
  if Rlt_b 0 x then Some (Rpower x y)
  else if Rzero x then
         (if Rzero y then Some 1 else if Rlt_b 0 y then Some 0 else None)
  else if is_integer y then Some (powerRZ x (Int_part y))
  else None.

Definition eval_unop (o : unop) (x : R) : option R :=
  match o with
  | OpNeg => Some (- x)
  | OpNot => Some (truth (Rzero x))
  | OpSqrt => if Rlt_b x 0 then None else Some (sqrt x)
  | OpFabs => Some (Rabs x)
  | OpAcos => if Rle_b (-1) x && Rle_b x 1 then Some (acos x) else None
  | OpSin => Some (sin x)
  | OpCos => Some (cos x)
  end.

Definition eval_binop (o : binop) (x y : R) : option R :=
  match o with
  | OpAdd => Some (x + y)
  | OpSub => Some (x - y)
  | OpMul => Some (x * y)
  | OpDiv => if Rzero y then None else Some (x / y)
  | OpPow => pow_real x y
  | OpLt => Some (truth (Rlt_b x y))
  | OpLe => Some (truth (Rle_b x y))
  | OpEq => Some (truth (Req_b x y))
  | OpNe => Some (truth (negb (Req_b x y)))
  | OpAnd => Some (truth (negb (Rzero x) && negb (Rzero y)))
  | OpOr => Some (truth (negb (Rzero x) || negb (Rzero y)))
  | OpFmin => Some (Rmin x y)
  | OpFmax => Some (Rmax x y)
  end.

(** Numeric value of an expression under a binding of its symbols.  The
    ternary node selects: only the chosen branch has to be defined. *)
Fixpoint eval (rho : string -> option R) (e : sx) : option R :=
  match e with
  | Const c => Some c
  | Sym name => rho name
  | Un o a => let? x := eval rho a in eval_unop o x
  | Bin o a b => let? x := eval rho a in let? y := eval rho b in eval_binop o x y
  | IfElse c a b =>
      let? v := eval rho c in if Rzero v then eval rho b else eval rho a
  end.

(** Symbols an expression depends on, in order of occurrence. *)
Fixpoint symvar (e : sx) : list string :=
  match e with
  | Const _ => []
  | Sym name => [name]
  | Un _ a => symvar a
  | Bin _ a b => symvar a ++ symvar b
  | IfElse c a b => symvar c ++ symvar a ++ symvar b
  end.

(** The empty binding: [ca.evalf] of an expression without free symbols. *)
Definition no_binding : string -> option R := fun _ => None.

(** ** Matrices: shape and dense column-major entries *)

Record matrix (A : Type) : Type := mkMatrix {
  size1 : nat;            (* rows *)
  size2 : nat;            (* columns *)
  entries : list A        (* column by column *)
}.
Arguments mkMatrix {A} size1 size2 entries.
Arguments size1 {A} m.
Arguments size2 {A} m.
Arguments entries {A} m.

Definition SX : Type := matrix sx.

Definition wf {A : Type} (m : matrix A) : Prop :=
  length (entries m) = (size1 m * size2 m)%nat.

Definition shape {A : Type} (m : matrix A) : nat * nat := (size1 m, size2 m).

Definition is_scalar {A : Type} (m : matrix A) : bool :=
  (size1 m =? 1)%nat && (size2 m =? 1)%nat.

Definition scalar (e : sx) : SX := mkMatrix 1 1 [e].
Definition SX_sym (name : string) : SX := scalar (Sym name).
Definition SX_num (c : R) : SX := scalar (Const c).
Definition SX_empty : SX := mkMatrix 0 0 [].
Definition column (l : list sx) : SX := mkMatrix (length l) 1 l.

Definition mmap {A B : Type} (f : A -> B) (m : matrix A) : matrix B :=
  mkMatrix (size1 m) (size2 m) (map f (entries m)).

(** Two operands of an element-wise operation: a 1x1 operand is spread over
    the other one, equal shapes pair entry by entry, other shapes are
    refused by the engine. *)
Definition same_shape {A B : Type} (a : matrix A) (b : matrix B) : bool :=
  ((size1 a =? size1 b) && (size2 a =? size2 b))%nat.

Definition broadcast {A B : Type} (a : matrix A) (b : matrix B)
  : result (matrix (A * B)) :=
  if is_scalar a then
    match entries a with
    | [x] => Ok (mmap (fun y => (x, y)) b)
    | _ => Raise EngineError
    end
  else if is_scalar b then
    match entries b with
    | [y] => Ok (mmap (fun x => (x, y)) a)
    | _ => Raise EngineError
    end
  else if same_shape a b
  then Ok (mkMatrix (size1 a) (size2 a) (combine (entries a) (entries b)))
  else Raise EngineError.

Definition binary (o : binop) (a b : SX) : result SX :=
  let* p := broadcast a b in Ok (mmap (fun '(x, y) => Bin o x y) p).

Definition unary (o : unop) (a : SX) : SX := mmap (Un o) a.

(** [ca.gt] and [ca.ge] are [lt] and [le] with the operands exchanged. *)
Definition ca_eq (a b : SX) : result SX := binary OpEq a b.
Definition ca_le (a b : SX) : result SX := binary OpLe a b.
Definition ca_lt (a b : SX) : result SX := binary OpLt a b.
Definition ca_gt (a b : SX) : result SX := binary OpLt b a.
Definition ca_ge (a b : SX) : result SX := binary OpLe b a.
Definition ca_fmin (a b : SX) : result SX := binary OpFmin a b.
Definition ca_fmax (a b : SX) : result SX := binary OpFmax a b.

(** [ca.if_else(c, a, b)]: an entry-wise select. *)
Definition ca_if_else (c a b : SX) : result SX :=
  let* ca := broadcast c a in
  let* cb := broadcast c b in
  let* p := broadcast ca cb in
  Ok (mmap (fun '((c', x), (_, y)) => IfElse c' x y) p).

(** Linear indexing [s[i]] and [s[i, j]]. *)
Definition get_lin (s : SX) (i : nat) : result SX :=
  match nth_error (entries s) i with
  | Some e => Ok (scalar e)
  | None => Raise EngineError
  end.

Definition get_ij (s : SX) (i j : nat) : result SX :=
  if ((i <? size1 s) && (j <? size2 s))%nat
  then get_lin s (i + j * size1 s)
  else Raise EngineError.

(** Replace the entry at a position of the list (the position exists). *)
Fixpoint set_nth {A : Type} (l : list A) (i : nat) (x : A) : option (list A) :=
  match l, i with
  | [], _ => None
  | _ :: t, O => Some (x :: t)
  | h :: t, S k => match set_nth t k x with
                   | Some t' => Some (h :: t')
                   | None => None
                   end
  end.

(** [s[i] = v] and [s[i, j] = v] for a 1x1 value [v]. *)
Definition set_lin (s : SX) (i : nat) (v : SX) : result SX :=
  match entries v with
  | [e] =>
      if is_scalar v then
        match set_nth (entries s) i e with
        | Some l => Ok (mkMatrix (size1 s) (size2 s) l)
        | None => Raise EngineError
        end
      else Raise EngineError
  | _ => Raise EngineError
  end.

Definition set_ij (s : SX) (i j : nat) (v : SX) : result SX :=
  if ((i <? size1 s) && (j <? size2 s))%nat
  then set_lin s (i + j * size1 s) v
  else Raise EngineError.

(** A Python slice [start:stop] over an axis of length [len]. *)
Definition slice_all (start stop : option nat) (len : nat) : result (list nat) :=
  let a := match start with Some a => a | None => 0%nat end in
  let b := match stop with Some b => b | None => len end in
  if (len <? b)%nat then Raise EngineError
  else if (b <=? a)%nat then Ok []
  else Ok (seq a (b - a)).

(** [s[r0:r1, c0:c1]]. *)
Definition get_slice (s : SX) (r0 r1 c0 c1 : option nat) : result SX :=
  let* rows := slice_all r0 r1 (size1 s) in
  let* cols := slice_all c0 c1 (size2 s) in
  let pick := flat_map (fun j => map (fun i => (i + j * size1 s)%nat) rows) cols in
  match mapM (fun k => nth_error (entries s) k) pick with
  | Some l => Ok (mkMatrix (length rows) (length cols) l)
  | None => Raise EngineError
  end.

(** Values of all entries. *)
Definition eval_matrix (rho : string -> option R) (m : SX) : option (matrix R) :=
  match mapM (eval rho) (entries m) with
  | Some l => Some (mkMatrix (size1 m) (size2 m) l)
  | None => None
  end.

End Engine.

(** * The Python objects of [spatial_types.py] *)

Module SpatialTypes.
Import Engine.

(** Traversal of a list with a fallible function. *)
Fixpoint rmap {A B : Type} (f : A -> result B) (l : list A) : result (list B) :=
  match l with
  | [] => Ok []
  | x :: t => let* y := f x in let* t' := rmap f t in Ok (y :: t')
  end.

(** The opaque frame identifier carried as [reference_frame]. *)
Definition Body : Type := string.

(** Python's [a or b] on optional frames. *)
Definition frame_or (a b : option Body) : option Body :=
  match a with
  | Some _ => a
  | None => b
  end.

Record Point3 : Type := mkPoint3 {
  Point3_s : SX;
  Point3_reference_frame : option Body
}.

Record Vector3 : Type := mkVector3 {
  Vector3_s : SX;
  Vector3_reference_frame : option Body;
  Vector3_vis_frame : option Body
}.

Record Quaternion : Type := mkQuaternion {
  Quaternion_s : SX;
  Quaternion_reference_frame : option Body
}.

Record RotationMatrix : Type := mkRotationMatrix {
  RotationMatrix_s : SX;
  RotationMatrix_reference_frame : option Body;
  RotationMatrix_child_frame : option Body
}.

Record TransformationMatrix : Type := mkTransformationMatrix {
  TransformationMatrix_s : SX;
  TransformationMatrix_reference_frame : option Body;
  TransformationMatrix_child_frame : option Body
}.

(** The values the functions of the module receive and return. *)
#[warnings="-register-all"]
Inductive pyobj : Type :=
| PyNone
| PyNum (c : R)                  (* int, float *)
| PySX (s : SX)                  (* a raw ca.SX *)
| PySymbol (name : string)       (* Symbol(name); its [s] is SX.sym(name) *)
| PyExpression (s : SX)
| PyPoint3 (p : Point3)
| PyVector3 (v : Vector3)
| PyQuaternion (q : Quaternion)
| PyRotationMatrix (r : RotationMatrix)
| PyTransformationMatrix (t : TransformationMatrix)
| PyList (l : list pyobj).       (* list, tuple *)

(** [type(o)]. *)
Inductive pytype : Type :=
| NoneType | Number | SXType | SymbolType | ExpressionType
| Point3Type | Vector3Type | QuaternionType
| RotationMatrixType | TransformationMatrixType | ListType.

Definition type (o : pyobj) : pytype :=
  match o with
  | PyNone => NoneType
  | PyNum _ => Number
  | PySX _ => SXType
  | PySymbol _ => SymbolType
  | PyExpression _ => ExpressionType
  | PyPoint3 _ => Point3Type
  | PyVector3 _ => Vector3Type
  | PyQuaternion _ => QuaternionType
  | PyRotationMatrix _ => RotationMatrixType
  | PyTransformationMatrix _ => TransformationMatrixType
  | PyList _ => ListType
  end.

Definition pytype_eqb (a b : pytype) : bool :=
  match a, b with
  | NoneType, NoneType | Number, Number | SXType, SXType
  | SymbolType, SymbolType | ExpressionType, ExpressionType
  | Point3Type, Point3Type | Vector3Type, Vector3Type
  | QuaternionType, QuaternionType
  | RotationMatrixType, RotationMatrixType
  | TransformationMatrixType, TransformationMatrixType
  | ListType, ListType => true
  | _, _ => false
  end.

(** The attribute [s] of the subclasses of [Symbol_]. *)
Definition attr_s (o : pyobj) : option SX :=
  match o with
  | PySymbol name => Some (SX_sym name)
  | PyExpression s => Some s
  | PyPoint3 p => Some (Point3_s p)
  | PyVector3 v => Some (Vector3_s v)
  | PyQuaternion q => Some (Quaternion_s q)
  | PyRotationMatrix r => Some (RotationMatrix_s r)
  | PyTransformationMatrix t => Some (TransformationMatrix_s t)
  | PyNone | PyNum _ | PySX _ | PyList _ => None
  end.

(** [isinstance(o, Symbol_)]. *)
Definition is_Symbol_ (o : pyobj) : bool :=
  match attr_s o with Some _ => true | None => false end.

Definition attr_reference_frame (o : pyobj) : option Body :=
  match o with
  | PyPoint3 p => Point3_reference_frame p
  | PyVector3 v => Vector3_reference_frame v
  | PyQuaternion q => Quaternion_reference_frame q
  | PyRotationMatrix r => RotationMatrix_reference_frame r
  | PyTransformationMatrix t => TransformationMatrix_reference_frame t
  | _ => None
  end.

(** [_to_sx]: the attribute [s] when there is one, the thing itself
    otherwise. *)
Definition _to_sx (thing : pyobj) : pyobj :=
  match attr_s thing with
  | Some s => PySX s
  | None => thing
  end.

(** What the engine accepts as an operand: an SX or a number. *)
Definition as_SX (o : pyobj) : result SX :=
  match o with
  | PySX s => Ok s
  | PyNum c => Ok (SX_num c)
  | _ => Raise EngineError
  end.

(** [Symbol_.__getitem__] with an integer index (and indexing of a raw SX
    and of a list or tuple). *)
Definition py_getitem (o : pyobj) (i : nat) : result pyobj :=
  match o with
  | PyList l =>
      match nth_error l i with
      | Some x => Ok x
      | None => Raise IndexError
      end
  | PySX s => let* e := get_lin s i in Ok (PySX e)
  | PyNone | PyNum _ => Raise TypeError
  | _ =>
      match attr_s o with
      | Some s => let* e := get_lin s i in Ok (PyExpression e)
      | None => Raise TypeError
      end
  end.

(** [Symbol_.__getitem__] with a pair of indices, and with two slices. *)
Definition getitem2 (s : SX) (i j : nat) : result pyobj :=
  let* e := get_ij s i j in Ok (PyExpression e).

Definition getitem_slices (s : SX) (r0 r1 c0 c1 : option nat) : result pyobj :=
  let* e := get_slice s r0 r1 c0 c1 in Ok (PyExpression e).

(** [Symbol_.__setitem__]: the value's [s] when it has one. *)
Definition setitem_value (value : pyobj) : result SX := as_SX (_to_sx value).

Definition setitem (s : SX) (key : nat) (value : pyobj) : result SX :=
  let* v := setitem_value value in set_lin s key v.

Definition setitem2 (s : SX) (i j : nat) (value : pyobj) : result SX :=
  let* v := setitem_value value in set_ij s i j v.

(** ** Expression.__init__ *)

(** [ca.SX(x, y)]: all entries zero. *)
Definition SX_zeros (x y : nat) : SX := mkMatrix x y (repeat (Const 0) (x * y)).

(** [for i in range(n): s = f s i]. *)
Fixpoint for_range {S : Type} (n : nat) (f : S -> nat -> result S) (s : S)
  : result S :=
  match n with
  | O => Ok s
  | S k => let* s' := for_range k f s in f s' k
  end.

Definition Expression___init__ (data : pyobj) : result SX :=
  match data with
  | PyNone => Ok SX_empty
  | PySX s => Ok s
  | PyNum c => Ok (SX_num c)
  | PyList [] => Ok SX_empty
  | PyList ((d0 :: _) as l) =>
      let x := length l in
      let y := match d0 with PyList row => length row | _ => 1%nat end in
      for_range x
        (fun s i =>
           let* di := py_getitem data i in
           if (1 <? y)%nat then
             for_range y
               (fun s j => let* dij := py_getitem di j in setitem2 s i j dij) s
           else setitem s i di)
        (SX_zeros x y)
  | _ =>
      match attr_s data with
      | Some s => Ok s
      | None => Raise TypeError
      end
  end.

Definition Expression (data : pyobj) : result pyobj :=
  let* s := Expression___init__ data in Ok (PyExpression s).

(** ** Point3.__init__ and Vector3.__init__ *)

Definition SX_0001 : SX := column [Const 0; Const 0; Const 0; Const 1].

Definition Point3___init__ (data : pyobj) (reference_frame : option Body)
  : result Point3 :=
  match data with
  | PyNone => Ok (mkPoint3 SX_0001 reference_frame)
  | PyPoint3 _ | PyVector3 _ =>
      let rf := frame_or reference_frame (attr_reference_frame data) in
      let s := SX_0001 in
      let* x := py_getitem data 0 in
      let* s := setitem s 0 x in
      let* y := py_getitem data 1 in
      let* s := setitem s 1 y in
      let* z := py_getitem data 2 in
      let* s := setitem s 2 z in
      Ok (mkPoint3 s rf)
  | _ =>
      let s := SX_0001 in
      let* d0 := py_getitem data 0 in
      let* s := setitem s 0 d0 in
      let* d1 := py_getitem data 1 in
      let* s := setitem s 1 d1 in
      let* d2 := py_getitem data 2 in
      let* s := setitem s 2 d2 in
      Ok (mkPoint3 s reference_frame)
  end.

Definition Vector3___init__ (data : pyobj) (reference_frame : option Body)
  : result Vector3 :=
  let* point := Point3___init__ data reference_frame in
  let s := Point3_s point in
  let rf := Point3_reference_frame point in
  let* s := setitem s 3 (PyNum 0) in
  Ok (mkVector3 s rf rf).

Definition Point3_from_xyz (x y z : option pyobj) (reference_frame : option Body)
  : result Point3 :=
  let x := match x with None => PyNum 0 | Some x => x end in
  let y := match y with None => PyNum 0 | Some y => y end in
  let z := match z with None => PyNum 0 | Some z => z end in
  Point3___init__ (PyList [x; y; z]) reference_frame.

Definition Vector3_from_xyz (x y z : option pyobj) (reference_frame : option Body)
  : result Vector3 :=
  let x := match x with None => PyNum 0 | Some x => x end in
  let y := match y with None => PyNum 0 | Some y => y end in
  let z := match z with None => PyNum 0 | Some z => z end in
  Vector3___init__ (PyList [x; y; z]) reference_frame.

(** ** Quaternion.__init__ *)

Definition Quaternion___init__ (data : pyobj) (reference_frame : option Body)
  : result Quaternion :=
  let data := match data with
              | PyNone => PyList [PyNum 0; PyNum 0; PyNum 0; PyNum 1]
              | _ => data
              end in
  let s := SX_zeros 4 1 in
  let* d0 := py_getitem data 0 in
  let* d1 := py_getitem data 1 in
  let* d2 := py_getitem data 2 in
  let* d3 := py_getitem data 3 in
  let* s := setitem s 0 d0 in
  let* s := setitem s 1 d1 in
  let* s := setitem s 2 d2 in
  let* s := setitem s 3 d3 in
  Ok (mkQuaternion s reference_frame).

Definition Quaternion_from_xyzw (x y z w : pyobj) (reference_frame : option Body)
  : result Quaternion :=
  Quaternion___init__ (PyList [x; y; z; w]) reference_frame.


(** ** Arithmetic of Symbol and Expression *)

(** The five arithmetic operators and the engine operation of each. *)
Inductive operator : Type := Add | Sub | Mul | TrueDiv | Pow.

Definition engine_op (o : operator) : binop :=
  match o with
  | Add => OpAdd
  | Sub => OpSub
  | Mul => OpMul
  | TrueDiv => OpDiv
  | Pow => OpPow
  end.

Definition new_Point3 (s : SX) : result pyobj :=
  let* p := Point3___init__ (PySX s) None in Ok (PyPoint3 p).

Definition new_Vector3 (s : SX) : result pyobj :=
  let* v := Vector3___init__ (PySX s) None in Ok (PyVector3 v).

(** [Symbol.__add__], [__sub__], [__mul__], [__truediv__] and [__pow__] have
    one body, up to the operator. *)
Definition Symbol_arith (o : binop) (self : string) (other : pyobj) : result pyobj :=
  match other with
  | PyNum c => let* r := binary o (SX_sym self) (SX_num c) in Ok (PyExpression r)
  | _ =>
      match attr_s other with
      | Some other_s =>
          let* r := binary o (SX_sym self) other_s in
          match other with
          | PySymbol _ | PyExpression _ => Ok (PyExpression r)
          | PyVector3 _ => new_Vector3 r
          | PyPoint3 _ => new_Point3 r
          | _ => Raise TypeError
          end
      | None => Raise TypeError
      end
  end.

(** [Symbol.__radd__] and the other reflected methods. *)
Definition Symbol_rarith (o : binop) (self : string) (other : pyobj) : result pyobj :=
  match other with
  | PyNum c => let* r := binary o (SX_num c) (SX_sym self) in Ok (PyExpression r)
  | _ => Raise TypeError
  end.

Definition Symbol___add__ := Symbol_arith OpAdd.
Definition Symbol___sub__ := Symbol_arith OpSub.
Definition Symbol___mul__ := Symbol_arith OpMul.
Definition Symbol___truediv__ := Symbol_arith OpDiv.
Definition Symbol___pow__ := Symbol_arith OpPow.
Definition Symbol___radd__ := Symbol_rarith OpAdd.
Definition Symbol___rsub__ := Symbol_rarith OpSub.
Definition Symbol___rmul__ := Symbol_rarith OpMul.
Definition Symbol___rtruediv__ := Symbol_rarith OpDiv.
Definition Symbol___rpow__ := Symbol_rarith OpPow.

Definition Symbol___neg__ (self : string) : result pyobj :=
  Ok (PyExpression (unary OpNeg (SX_sym self))).

(** [Expression.__add__], [__sub__], [__mul__], [__truediv__], [__pow__]. *)
Definition Expression_arith (o : binop) (self : SX) (other : pyobj) : result pyobj :=
  match other with
  | PyNum c => let* r := binary o self (SX_num c) in Ok (PyExpression r)
  | PyPoint3 p => let* r := binary o self (Point3_s p) in new_Point3 r
  | PyVector3 v => let* r := binary o self (Vector3_s v) in new_Vector3 r
  | PyExpression other_s => let* r := binary o self other_s in Ok (PyExpression r)
  | PySymbol name => let* r := binary o self (SX_sym name) in Ok (PyExpression r)
  | _ => Raise TypeError
  end.

Definition Expression_rarith (o : binop) (self : SX) (other : pyobj) : result pyobj :=
  match other with
  | PyNum c => let* r := binary o (SX_num c) self in Ok (PyExpression r)
  | _ => Raise TypeError
  end.

Definition Expression___add__ := Expression_arith OpAdd.
Definition Expression___sub__ := Expression_arith OpSub.
Definition Expression___mul__ := Expression_arith OpMul.
Definition Expression___truediv__ := Expression_arith OpDiv.
Definition Expression___pow__ := Expression_arith OpPow.
Definition Expression___radd__ := Expression_rarith OpAdd.
Definition Expression___rsub__ := Expression_rarith OpSub.
Definition Expression___rmul__ := Expression_rarith OpMul.
Definition Expression___rtruediv__ := Expression_rarith OpDiv.
Definition Expression___rpow__ := Expression_rarith OpPow.

Definition Expression___neg__ (self : SX) : result pyobj :=
  Ok (PyExpression (unary OpNeg self)).

(** ** Arithmetic of Point3 *)

(** [result.reference_frame = self.reference_frame]. *)
Definition set_reference_frame (result : pyobj) (rf : option Body) : pyobj :=
  match result with
  | PyPoint3 p => PyPoint3 (mkPoint3 (Point3_s p) rf)
  | PyVector3 v => PyVector3 (mkVector3 (Vector3_s v) rf (Vector3_vis_frame v))
  | _ => result
  end.

Definition Point3___add__ (self : Point3) (other : pyobj) : result pyobj :=
  let* result :=
    match other with
    | PyNum c => let* r := binary OpAdd (Point3_s self) (SX_num c) in new_Point3 r
    | PyVector3 _ | PyExpression _ | PySymbol _ =>
        let* other_s := as_SX (_to_sx other) in
        let* r := binary OpAdd (Point3_s self) other_s in new_Point3 r
    | _ => Raise TypeError
    end in
  Ok (set_reference_frame result (Point3_reference_frame self)).

Definition Point3___radd__ (self : Point3) (other : pyobj) : result pyobj :=
  let* result :=
    match other with
    | PyNum c => let* r := binary OpAdd (Point3_s self) (SX_num c) in new_Point3 r
    | _ => Raise TypeError
    end in
  Ok (set_reference_frame result (Point3_reference_frame self)).

Definition Point3___sub__ (self : Point3) (other : pyobj) : result pyobj :=
  let* result :=
    match other with
    | PyNum c => let* r := binary OpSub (Point3_s self) (SX_num c) in new_Point3 r
    | PyPoint3 q => let* r := binary OpSub (Point3_s self) (Point3_s q) in new_Vector3 r
    | PySymbol _ | PyExpression _ | PyVector3 _ =>
        let* other_s := as_SX (_to_sx other) in
        let* r := binary OpSub (Point3_s self) other_s in new_Point3 r
    | _ => Raise TypeError
    end in
  Ok (set_reference_frame result (Point3_reference_frame self)).

Definition Point3___rsub__ (self : Point3) (other : pyobj) : result pyobj :=
  let* result :=
    match other with
    | PyNum c => let* r := binary OpSub (SX_num c) (Point3_s self) in new_Point3 r
    | _ => Raise TypeError
    end in
  Ok (set_reference_frame result (Point3_reference_frame self)).

Definition Point3___mul__ (self : Point3) (other : pyobj) : result pyobj :=
  let* result :=
    match other with
    | PyNum c => let* r := binary OpMul (Point3_s self) (SX_num c) in new_Point3 r
    | PySymbol _ | PyExpression _ =>
        let* other_s := as_SX (_to_sx other) in
        let* r := binary OpMul (Point3_s self) other_s in new_Point3 r
    | _ => Raise TypeError
    end in
  Ok (set_reference_frame result (Point3_reference_frame self)).

Definition Point3___rmul__ (self : Point3) (other : pyobj) : result pyobj :=
  let* result :=
    match other with
    | PyNum c => let* r := binary OpMul (Point3_s self) (SX_num c) in new_Point3 r
    | _ => Raise TypeError
    end in
  Ok (set_reference_frame result (Point3_reference_frame self)).

Definition Point3___truediv__ (self : Point3) (other : pyobj) : result pyobj :=
  let* result :=
    match other with
    | PyNum c => let* r := binary OpDiv (Point3_s self) (SX_num c) in new_Point3 r
    | PySymbol _ | PyExpression _ =>
        let* other_s := as_SX (_to_sx other) in
        let* r := binary OpDiv (Point3_s self) other_s in new_Point3 r
    | _ => Raise TypeError
    end in
  Ok (set_reference_frame result (Point3_reference_frame self)).

Definition Point3___rtruediv__ (self : Point3) (other : pyobj) : result pyobj :=
  let* result :=
    match other with
    | PyNum c => let* r := binary OpDiv (SX_num c) (Point3_s self) in new_Point3 r
    | _ => Raise TypeError
    end in
  Ok (set_reference_frame result (Point3_reference_frame self)).

Definition Point3___neg__ (self : Point3) : result pyobj :=
  let* result := new_Point3 (unary OpNeg (Point3_s self)) in
  Ok (set_reference_frame result (Point3_reference_frame self)).

Definition Point3___pow__ (self : Point3) (other : pyobj) : result pyobj :=
  let* result :=
    match other with
    | PyNum c => let* r := binary OpPow (Point3_s self) (SX_num c) in new_Point3 r
    | PySymbol _ | PyExpression _ =>
        let* other_s := as_SX (_to_sx other) in
        let* r := binary OpPow (Point3_s self) other_s in new_Point3 r
    | _ => Raise TypeError
    end in
  Ok (set_reference_frame result (Point3_reference_frame self)).

Definition Point3___rpow__ (self : Point3) (other : pyobj) : result pyobj :=
  let* result :=
    match other with
    | PyNum c => let* r := binary OpPow (SX_num c) (Point3_s self) in new_Point3 r
    | _ => Raise TypeError
    end in
  Ok (set_reference_frame result (Point3_reference_frame self)).

(** ** Arithmetic of Vector3 *)

Definition Vector3___add__ (self : Vector3) (other : pyobj) : result pyobj :=
  let* result :=
    match other with
    | PyNum c => let* r := binary OpAdd (Vector3_s self) (SX_num c) in new_Vector3 r
    | PyPoint3 p => let* r := binary OpAdd (Vector3_s self) (Point3_s p) in new_Point3 r
    | PyVector3 _ | PyExpression _ | PySymbol _ =>
        let* other_s := as_SX (_to_sx other) in
        let* r := binary OpAdd (Vector3_s self) other_s in new_Vector3 r
    | _ => Raise TypeError
    end in
  Ok (set_reference_frame result (Vector3_reference_frame self)).

Definition Vector3___radd__ (self : Vector3) (other : pyobj) : result pyobj :=
  let* result :=
    match other with
    | PyNum c => let* r := binary OpAdd (Vector3_s self) (SX_num c) in new_Vector3 r
    | _ => Raise TypeError
    end in
  Ok (set_reference_frame result (Vector3_reference_frame self)).

Definition Vector3___sub__ (self : Vector3) (other : pyobj) : result pyobj :=
  let* result :=
    match other with
    | PyNum c => let* r := binary OpSub (Vector3_s self) (SX_num c) in new_Vector3 r
    | PyPoint3 p => let* r := binary OpSub (Vector3_s self) (Point3_s p) in new_Point3 r
    | PySymbol _ | PyExpression _ | PyVector3 _ =>
        let* other_s := as_SX (_to_sx other) in
        let* r := binary OpSub (Vector3_s self) other_s in new_Vector3 r
    | _ => Raise TypeError
    end in
  Ok (set_reference_frame result (Vector3_reference_frame self)).

Definition Vector3___rsub__ (self : Vector3) (other : pyobj) : result pyobj :=
  let* result :=
    match other with
    | PyNum c => let* r := binary OpSub (SX_num c) (Vector3_s self) in new_Vector3 r
    | _ => Raise TypeError
    end in
  Ok (set_reference_frame result (Vector3_reference_frame self)).

Definition Vector3___mul__ (self : Vector3) (other : pyobj) : result pyobj :=
  let* result :=
    match other with
    | PyNum c => let* r := binary OpMul (Vector3_s self) (SX_num c) in new_Vector3 r
    | PySymbol _ | PyExpression _ =>
        let* other_s := as_SX (_to_sx other) in
        let* r := binary OpMul (Vector3_s self) other_s in new_Vector3 r
    | _ => Raise TypeError
    end in
  Ok (set_reference_frame result (Vector3_reference_frame self)).

Definition Vector3___rmul__ (self : Vector3) (other : pyobj) : result pyobj :=
  let* result :=
    match other with
    | PyNum c => let* r := binary OpMul (Vector3_s self) (SX_num c) in new_Vector3 r
    | _ => Raise TypeError
    end in
  Ok (set_reference_frame result (Vector3_reference_frame self)).

Definition Vector3___pow__ (self : Vector3) (other : pyobj) : result pyobj :=
  let* result :=
    match other with
    | PyNum c => let* r := binary OpPow (Vector3_s self) (SX_num c) in new_Vector3 r
    | PySymbol _ | PyExpression _ =>
        let* other_s := as_SX (_to_sx other) in
        let* r := binary OpPow (Vector3_s self) other_s in new_Vector3 r
    | _ => Raise TypeError
    end in
  Ok (set_reference_frame result (Vector3_reference_frame self)).

Definition Vector3___rpow__ (self : Vector3) (other : pyobj) : result pyobj :=
  let* result :=
    match other with
    | PyNum c => let* r := binary OpPow (SX_num c) (Vector3_s self) in new_Vector3 r
    | _ => Raise TypeError
    end in
  Ok (set_reference_frame result (Vector3_reference_frame self)).

Definition Vector3___truediv__ (self : Vector3) (other : pyobj) : result pyobj :=
  let* result :=
    match other with
    | PyNum c => let* r := binary OpDiv (Vector3_s self) (SX_num c) in new_Vector3 r
    | PySymbol _ | PyExpression _ =>
        let* other_s := as_SX (_to_sx other) in
        let* r := binary OpDiv (Vector3_s self) other_s in new_Vector3 r
    | _ => Raise TypeError
    end in
  Ok (set_reference_frame result (Vector3_reference_frame self)).

Definition Vector3___rtruediv__ (self : Vector3) (other : pyobj) : result pyobj :=
  let* result :=
    match other with
    | PyNum c => let* r := binary OpDiv (SX_num c) (Vector3_s self) in new_Vector3 r
    | _ => Raise TypeError
    end in
  Ok (set_reference_frame result (Vector3_reference_frame self)).

Definition Vector3___neg__ (self : Vector3) : result pyobj :=
  let* result := new_Vector3 (unary OpNeg (Vector3_s self)) in
  Ok (set_reference_frame result (Vector3_reference_frame self)).

(** ** Python's operator protocol *)

(** [type(self).__op__(self, other)] for the classes that define it. *)
Definition method (o : operator) (self other : pyobj) : option (result pyobj) :=
  match self, o with
  | PySymbol n, Add => Some (Symbol___add__ n other)
  | PySymbol n, Sub => Some (Symbol___sub__ n other)
  | PySymbol n, Mul => Some (Symbol___mul__ n other)
  | PySymbol n, TrueDiv => Some (Symbol___truediv__ n other)
  | PySymbol n, Pow => Some (Symbol___pow__ n other)
  | PyExpression s, Add => Some (Expression___add__ s other)
  | PyExpression s, Sub => Some (Expression___sub__ s other)
  | PyExpression s, Mul => Some (Expression___mul__ s other)
  | PyExpression s, TrueDiv => Some (Expression___truediv__ s other)
  | PyExpression s, Pow => Some (Expression___pow__ s other)
  | PyPoint3 p, Add => Some (Point3___add__ p other)
  | PyPoint3 p, Sub => Some (Point3___sub__ p other)
  | PyPoint3 p, Mul => Some (Point3___mul__ p other)
  | PyPoint3 p, TrueDiv => Some (Point3___truediv__ p other)
  | PyPoint3 p, Pow => Some (Point3___pow__ p other)
  | PyVector3 v, Add => Some (Vector3___add__ v other)
  | PyVector3 v, Sub => Some (Vector3___sub__ v other)
  | PyVector3 v, Mul => Some (Vector3___mul__ v other)
  | PyVector3 v, TrueDiv => Some (Vector3___truediv__ v other)
  | PyVector3 v, Pow => Some (Vector3___pow__ v other)
  | _, _ => None
  end.

(** [type(self).__rop__(self, other)]. *)
Definition reflected (o : operator) (self other : pyobj) : option (result pyobj) :=
  match self, o with
  | PySymbol n, Add => Some (Symbol___radd__ n other)
  | PySymbol n, Sub => Some (Symbol___rsub__ n other)
  | PySymbol n, Mul => Some (Symbol___rmul__ n other)
  | PySymbol n, TrueDiv => Some (Symbol___rtruediv__ n other)
  | PySymbol n, Pow => Some (Symbol___rpow__ n other)
  | PyExpression s, Add => Some (Expression___radd__ s other)
  | PyExpression s, Sub => Some (Expression___rsub__ s other)
  | PyExpression s, Mul => Some (Expression___rmul__ s other)
  | PyExpression s, TrueDiv => Some (Expression___rtruediv__ s other)
  | PyExpression s, Pow => Some (Expression___rpow__ s other)
  | PyPoint3 p, Add => Some (Point3___radd__ p other)
  | PyPoint3 p, Sub => Some (Point3___rsub__ p other)
  | PyPoint3 p, Mul => Some (Point3___rmul__ p other)
  | PyPoint3 p, TrueDiv => Some (Point3___rtruediv__ p other)
  | PyPoint3 p, Pow => Some (Point3___rpow__ p other)
  | PyVector3 v, Add => Some (Vector3___radd__ v other)
  | PyVector3 v, Sub => Some (Vector3___rsub__ v other)
  | PyVector3 v, Mul => Some (Vector3___rmul__ v other)
  | PyVector3 v, TrueDiv => Some (Vector3___rtruediv__ v other)
  | PyVector3 v, Pow => Some (Vector3___rpow__ v other)
  | _, _ => None
  end.

(** Arithmetic of two Python numbers. *)
Definition number_op (o : operator) (x y : R) : result pyobj :=
  match eval_binop (engine_op o) x y with
  | Some z => Ok (PyNum z)
  | None => Raise ArithmeticError
  end.

(** [a o b]: the method of the left operand when its class defines one (an
    exception it raises propagates); otherwise the reflected method of the
    right operand; numbers and raw engine values have their own arithmetic;
    otherwise a type error. *)
Definition py_binop (o : operator) (a b : pyobj) : result pyobj :=
  match method o a b with
  | Some r => r
  | None =>
      match reflected o b a with
      | Some r => r
      | None =>
          match a, b with
          | PyNum x, PyNum y => number_op o x y
          | PySX x, PyNum _ | PyNum _, PySX x | PySX x, PySX _ =>
              let* a' := as_SX a in
              let* b' := as_SX b in
              let* r := binary (engine_op o) a' b' in Ok (PySX r)
          | _, _ => Raise TypeError
          end
      end
  end.

(** [-a]. *)
Definition py_neg (a : pyobj) : result pyobj :=
  match a with
  | PyNum x => Ok (PyNum (- x))
  | PySX s => Ok (PySX (unary OpNeg s))
  | PySymbol n => Symbol___neg__ n
  | PyExpression s => Expression___neg__ s
  | PyPoint3 p => Point3___neg__ p
  | PyVector3 v => Vector3___neg__ v
  | PyQuaternion q =>
      let* q' := Quaternion___init__ (PySX (unary OpNeg (Quaternion_s q))) None in
      Ok (PyQuaternion q')
  | _ => Raise TypeError
  end.


(** Operators on computations, so that formulas read as in the source. *)
Definition lift2 (o : operator) (a b : result pyobj) : result pyobj :=
  let* x := a in let* y := b in py_binop o x y.

Declare Scope py_scope.
Delimit Scope py_scope with py.
Notation "a + b" := (lift2 Add a b) : py_scope.
Notation "a - b" := (lift2 Sub a b) : py_scope.
Notation "a * b" := (lift2 Mul a b) : py_scope.
Notation "a / b" := (lift2 TrueDiv a b) : py_scope.
Notation "a ** b" := (lift2 Pow a b) (at level 30, right associativity) : py_scope.
Notation "- a" := (let* x := a in py_neg x) : py_scope.
Notation "# c" := (Ok (PyNum c)) (at level 1, format "# c") : py_scope.
Notation "! x" := (Ok x) (at level 1, format "! x") : py_scope.

(** ** RotationMatrix and TransformationMatrix *)

(** [ca.SX.eye(4)]. *)
Definition SX_eye4 : SX :=
  mkMatrix 4 4 [Const 1; Const 0; Const 0; Const 0;
                Const 0; Const 1; Const 0; Const 0;
                Const 0; Const 0; Const 1; Const 0;
                Const 0; Const 0; Const 0; Const 1].

(** The [sanity_check] block of [RotationMatrix.__init__]. *)
Definition RotationMatrix_sanity_check (s : SX) : result SX :=
  if negb (size1 s =? 4)%nat || negb (size2 s =? 4)%nat then Raise ValueError
  else
    let* s := setitem2 s 0 3 (PyNum 0) in
    let* s := setitem2 s 1 3 (PyNum 0) in
    let* s := setitem2 s 2 3 (PyNum 0) in
    let* s := setitem2 s 3 0 (PyNum 0) in
    let* s := setitem2 s 3 1 (PyNum 0) in
    let* s := setitem2 s 3 2 (PyNum 0) in
    setitem2 s 3 3 (PyNum 1).

(** [RotationMatrix.__init__] on a list of rows with the default
    [sanity_check]: the branch [self.s = Expression(data).s]. *)
Definition RotationMatrix_of_rows (data : list pyobj) (reference_frame : option Body)
  : result RotationMatrix :=
  let* s := Expression___init__ (PyList data) in
  let* s := RotationMatrix_sanity_check s in
  Ok (mkRotationMatrix s reference_frame None).

Definition RotationMatrix___quaternion_to_rotation_matrix (q : Quaternion)
  : result RotationMatrix :=
  let* x := py_getitem (PyQuaternion q) 0 in
  let* y := py_getitem (PyQuaternion q) 1 in
  let* z := py_getitem (PyQuaternion q) 2 in
  let* w := py_getitem (PyQuaternion q) 3 in
  let* x2 := py_binop Mul x x in
  let* y2 := py_binop Mul y y in
  let* z2 := py_binop Mul z z in
  let* w2 := py_binop Mul w w in
  let* r00 := (!w2 + !x2 - !y2 - !z2)%py in
  let* r01 := (#2 * !x * !y - #2 * !w * !z)%py in
  let* r02 := (#2 * !x * !z + #2 * !w * !y)%py in
  let* r10 := (#2 * !x * !y + #2 * !w * !z)%py in
  let* r11 := (!w2 - !x2 + !y2 - !z2)%py in
  let* r12 := (#2 * !y * !z - #2 * !w * !x)%py in
  let* r20 := (#2 * !x * !z - #2 * !w * !y)%py in
  let* r21 := (#2 * !y * !z + #2 * !w * !x)%py in
  let* r22 := (!w2 - !x2 - !y2 + !z2)%py in
  RotationMatrix_of_rows
    [PyList [r00; r01; r02; PyNum 0];
     PyList [r10; r11; r12; PyNum 0];
     PyList [r20; r21; r22; PyNum 0];
     PyList [PyNum 0; PyNum 0; PyNum 0; PyNum 1]]
    (Quaternion_reference_frame q).

Definition RotationMatrix___init__ (data : pyobj)
  (reference_frame child_frame : option Body) (sanity_check : bool)
  : result RotationMatrix :=
  let* fields :=
    match data with
    | PySX s => Ok (s, reference_frame, child_frame, false)
    | PyQuaternion q =>
        let* r := RotationMatrix___quaternion_to_rotation_matrix q in
        Ok (RotationMatrix_s r,
            frame_or reference_frame (Quaternion_reference_frame q),
            child_frame, false)
    | PyRotationMatrix _ | PyTransformationMatrix _ =>
        let* s := as_SX (_to_sx data) in
        Ok (s, attr_reference_frame data, child_frame, false)
    | PyNone => Ok (SX_eye4, reference_frame, child_frame, true)
    | _ =>
        let* s := Expression___init__ data in
        Ok (s, reference_frame, child_frame, false)
    end in
  let '(s, rf, cf, done) := fields in
  if done || negb sanity_check then Ok (mkRotationMatrix s rf cf)
  else
    let* s := RotationMatrix_sanity_check s in
    Ok (mkRotationMatrix s rf cf).

Definition RotationMatrix_from_quaternion (q : Quaternion) : result RotationMatrix :=
  RotationMatrix___quaternion_to_rotation_matrix q.

Definition RotationMatrix_x_vector (self : RotationMatrix) : result Vector3 :=
  let* column := getitem_slices (RotationMatrix_s self) None (Some 4%nat) (Some 3%nat) None in
  Vector3___init__ column (RotationMatrix_reference_frame self).

Definition RotationMatrix_y_vector (self : RotationMatrix) : result Vector3 :=
  let* column := getitem_slices (RotationMatrix_s self) None (Some 4%nat) (Some 3%nat) None in
  Vector3___init__ column (RotationMatrix_reference_frame self).

Definition RotationMatrix_z_vector (self : RotationMatrix) : result Vector3 :=
  let* column := getitem_slices (RotationMatrix_s self) None (Some 4%nat) (Some 3%nat) None in
  Vector3___init__ column (RotationMatrix_reference_frame self).

Definition TransformationMatrix___init__ (data : pyobj)
  (reference_frame child_frame : option Body) (sanity_check : bool)
  : result TransformationMatrix :=
  let* fields :=
    match data with
    | PyNone => Ok (SX_eye4, reference_frame, child_frame, true)
    | PySX s => Ok (s, reference_frame, child_frame, false)
    | PyExpression s => Ok (s, reference_frame, child_frame, false)
    | PyRotationMatrix r =>
        Ok (RotationMatrix_s r,
            frame_or reference_frame (RotationMatrix_reference_frame r),
            child_frame, false)
    | PyTransformationMatrix t =>
        Ok (TransformationMatrix_s t, reference_frame,
            frame_or child_frame (TransformationMatrix_child_frame t), false)
    | _ =>
        let* s := Expression___init__ data in
        Ok (s, reference_frame, child_frame, false)
    end in
  let '(s, rf, cf, done) := fields in
  if done || negb sanity_check then Ok (mkTransformationMatrix s rf cf)
  else if negb (size1 s =? 4)%nat || negb (size2 s =? 4)%nat then Raise ValueError
  else
    let* s := setitem2 s 3 0 (PyNum 0) in
    let* s := setitem2 s 3 1 (PyNum 0) in
    let* s := setitem2 s 3 2 (PyNum 0) in
    let* s := setitem2 s 3 3 (PyNum 1) in
    Ok (mkTransformationMatrix s rf cf).


(** ** Elementary functions *)

Definition max (x y : pyobj) : result pyobj :=
  let* x := Expression___init__ x in
  let* y := Expression___init__ y in
  let* r := ca_fmax x y in Ok (PyExpression r).

Definition min (x y : pyobj) : result pyobj :=
  let* x := Expression___init__ x in
  let* y := Expression___init__ y in
  let* r := ca_fmin x y in Ok (PyExpression r).

Definition limit (x lower_limit upper_limit : pyobj) : result pyobj :=
  let* m := min upper_limit x in
  let* r := max lower_limit m in
  Expression r.

Definition sqrt (x : pyobj) : result pyobj :=
  let* x := Expression___init__ x in Ok (PyExpression (unary OpSqrt x)).

Definition acos (x : pyobj) : result pyobj :=
  let* x := Expression___init__ x in Ok (PyExpression (unary OpAcos x)).

(** [ca.norm_2]: defined for vectors, the root of the sum of squares. *)
Definition sumsqr (l : list sx) : sx :=
  fold_left (fun acc e => Bin OpAdd acc (Bin OpMul e e)) l (Const 0).

Definition ca_norm_2 (s : SX) : result SX :=
  if (size1 s =? 1)%nat || (size2 s =? 1)%nat
  then Ok (scalar (Un OpSqrt (sumsqr (entries s))))
  else Raise EngineError.

(** [v[:3]]: the first entries of a vector. *)
Definition getitem_slice1 (s : SX) (start stop : option nat) : result pyobj :=
  let* idx := slice_all start stop (length (entries s)) in
  match mapM (fun k => nth_error (entries s) k) idx with
  | Some l => Ok (PyExpression (column l))
  | None => Raise EngineError
  end.

Definition norm (v : pyobj) : result pyobj :=
  match v with
  | PyPoint3 _ | PyVector3 _ =>
      let* vs := as_SX (_to_sx v) in
      let* v3 := getitem_slice1 vs None (Some 3%nat) in
      let* v3s := as_SX (_to_sx v3) in
      let* n := ca_norm_2 v3s in Ok (PyExpression n)
  | _ =>
      let* v := Expression___init__ v in
      let* n := ca_norm_2 v in Ok (PyExpression n)
  end.

Definition trace (matrix : pyobj) : result pyobj :=
  let* matrix := Expression___init__ matrix in
  let* s := for_range (size1 matrix)
              (fun s i => let* m := get_ij matrix i i in py_binop Add s (PySX m))
              (PyNum 0) in
  Expression s.

(** ** Conditionals *)

Definition is_frame_carrying (o : pyobj) : bool :=
  match o with
  | PyPoint3 _ | PyVector3 _ | PyTransformationMatrix _
  | PyRotationMatrix _ | PyQuaternion _ => true
  | _ => false
  end.

(** [return_type(data)] for an SX [data], with the default arguments of the
    class. *)
Definition construct (return_type : pytype) (data : SX) : result pyobj :=
  match return_type with
  | ExpressionType => Expression (PySX data)
  | Point3Type => new_Point3 data
  | Vector3Type => new_Vector3 data
  | QuaternionType =>
      let* q := Quaternion___init__ (PySX data) None in Ok (PyQuaternion q)
  | RotationMatrixType =>
      let* r := RotationMatrix___init__ (PySX data) None None true in
      Ok (PyRotationMatrix r)
  | TransformationMatrixType =>
      let* t := TransformationMatrix___init__ (PySX data) None None true in
      Ok (PyTransformationMatrix t)
  | SXType => Ok (PySX data)
  | NoneType | Number | SymbolType => Raise TypeError
  | ListType => Raise EngineError   (* an SX is not iterable *)
  end.

Definition if_else (condition if_result else_result : pyobj) : result pyobj :=
  let* condition := Expression___init__ condition in
  let* if_result :=
    match if_result with PyNum _ => Expression if_result | _ => Ok if_result end in
  let* else_result :=
    match else_result with PyNum _ => Expression else_result | _ => Ok else_result end in
  if is_frame_carrying if_result
     && negb (pytype_eqb (type if_result) (type else_result))
  then Raise AssertionError
  else
    let return_type := type if_result in
    let return_type :=
      if pytype_eqb return_type SymbolType then ExpressionType else return_type in
    let* if_result := Expression___init__ if_result in
    let* else_result := Expression___init__ else_result in
    let* r := ca_if_else condition if_result else_result in
    construct return_type r.

Definition if_greater (a b if_result else_result : pyobj) : result pyobj :=
  let* a := Expression___init__ a in
  let* b := Expression___init__ b in
  let* c := ca_gt a b in
  if_else (PySX c) if_result else_result.

Definition if_less (a b if_result else_result : pyobj) : result pyobj :=
  let* a := Expression___init__ a in
  let* b := Expression___init__ b in
  let* c := ca_lt a b in
  if_else (PySX c) if_result else_result.

Definition if_greater_zero (condition if_result else_result : pyobj) : result pyobj :=
  let* condition := Expression___init__ condition in
  let* c := ca_gt condition (SX_num 0) in
  if_else (PySX c) if_result else_result.

Definition if_greater_eq (a b if_result else_result : pyobj) : result pyobj :=
  let* a := Expression___init__ a in
  let* b := Expression___init__ b in
  let* c := ca_ge a b in
  if_else (PySX c) if_result else_result.

Definition if_greater_eq_zero (condition if_result else_result : pyobj) : result pyobj :=
  if_greater_eq condition (PyNum 0) if_result else_result.

Definition if_less_eq (a b if_result else_result : pyobj) : result pyobj :=
  if_greater_eq b a if_result else_result.

Definition if_eq_zero (condition if_result else_result : pyobj) : result pyobj :=
  if_else condition else_result if_result.

Definition if_eq (a b if_result else_result : pyobj) : result pyobj :=
  let* a := Expression___init__ a in
  let* b := Expression___init__ b in
  let* c := ca_eq a b in
  if_else (PySX c) if_result else_result.

(** [for x in l: s = f s x]. *)
Fixpoint for_each {S A : Type} (l : list A) (f : S -> A -> result S) (s : S)
  : result S :=
  match l with
  | [] => Ok s
  | x :: t => let* s' := f s x in for_each t f s'
  end.

Definition if_eq_cases (a : pyobj) (b_result_cases : list (pyobj * pyobj))
  (else_result : pyobj) : result pyobj :=
  let a := _to_sx a in
  let result := _to_sx else_result in
  let* result :=
    for_each b_result_cases
      (fun result '(b, b_result) =>
         let b := _to_sx b in
         let b_result := _to_sx b_result in
         let* a' := as_SX a in
         let* b' := as_SX b in
         let* c := ca_eq a' b' in
         let* x := as_SX b_result in
         let* y := as_SX result in
         let* r := ca_if_else c x y in
         Ok (PySX r))
      result in
  Expression result.

Definition if_cases (cases : list (pyobj * pyobj)) (else_result : pyobj)
  : result pyobj :=
  let else_result := _to_sx else_result in
  let result := _to_sx else_result in
  let* result :=
    for_each (rev cases)
      (fun result '(case, case_result) =>
         let case := _to_sx case in
         let case_result := _to_sx case_result in
         let* c := as_SX case in
         let* x := as_SX case_result in
         let* y := as_SX result in
         let* r := ca_if_else c x y in
         Ok (PySX r))
      result in
  Expression result.

Definition if_less_eq_cases (a : pyobj) (b_result_cases : list (pyobj * pyobj))
  (else_result : pyobj) : result pyobj :=
  let a := _to_sx a in
  let result := _to_sx else_result in
  let* result :=
    for_each (rev b_result_cases)
      (fun result '(b, b_result) =>
         let b := _to_sx b in
         let b_result := _to_sx b_result in
         let* a' := as_SX a in
         let* b' := as_SX b in
         let* c := ca_le a' b' in
         let* x := as_SX b_result in
         let* y := as_SX result in
         let* r := ca_if_else c x y in
         Ok (PySX r))
      result in
  Expression result.


(** ** Three-valued logic *)

Definition TrinaryFalse : R := 0.
Definition TrinaryUnknown : R := 0.5.
Definition TrinaryTrue : R := 1.

(** [Expression(True)] and [Expression(False)]. *)
Definition BinaryTrue : SX := SX_num 1.
Definition BinaryFalse : SX := SX_num 0.

(** [expr == other] for an Expression [other].  A Symbol compares hashes and
    an Expression is not hashable; an Expression compares entry-wise; the
    other classes have no [__eq__], so that the reflected
    [Expression.__eq__] of [other] is taken. *)
Definition eq_Expression (expr : pyobj) (other : SX) : result pyobj :=
  match expr with
  | PySymbol _ => Raise TypeError
  | PyExpression s => let* r := binary OpEq s other in Ok (PyExpression r)
  | PyNum c => let* r := binary OpEq other (SX_num c) in Ok (PyExpression r)
  | PySX s => let* r := binary OpEq other s in Ok (PyExpression r)
  | PyNone | PyList _ => Raise EngineError
  | _ =>
      match attr_s expr with
      | Some s => let* r := binary OpEq other s in Ok (PyExpression r)
      | None => Raise TypeError
      end
  end.

Definition is_constant_SX (s : SX) : bool :=
  forallb (fun e => match symvar e with [] => true | _ => false end) (entries s).

(** The truth of [comparison.to_np()] under [try ... except: return False]:
    a single entry is a float; an array of several entries has no truth
    value, which raises where the caller tests it. *)
Definition symbol_test (comparison : result pyobj) : result bool :=
  match comparison with
  | Ok (PyExpression s) =>
      if (size1 s * size2 s <=? 1)%nat then
        match entries s with
        | [e] =>
            match eval no_binding e with
            | Some x => Ok (negb (Rzero x))
            | None => Ok false
            end
        | _ => Ok false
        end
      else if is_constant_SX s then Raise ValueError
      else Ok false
  | _ => Ok false
  end.

Definition is_true_symbol (expr : pyobj) : result bool :=
  symbol_test (eq_Expression expr BinaryTrue).

Definition is_false_symbol (expr : pyobj) : result bool :=
  symbol_test (eq_Expression expr BinaryFalse).

(** [[x for x in args if test(x)]]. *)
Fixpoint rfilter {A : Type} (test : A -> result bool) (l : list A) : result (list A) :=
  match l with
  | [] => Ok []
  | x :: t =>
      let* b := test x in
      let* t' := rfilter test t in
      Ok (if b then x :: t' else t')
  end.

Definition is_not_true_symbol (x : pyobj) : result bool :=
  let* b := is_true_symbol x in Ok (negb b).

(** [logic_and3] of any number of arguments; the recursion is on fewer
    arguments. *)
Fixpoint logic_and3_rec (fuel : nat) (args : list pyobj) : result pyobj :=
  match fuel with
  | O => Raise RecursionError
  | S fuel =>
      if (length args <? 2)%nat then Raise AssertionError
      else
        let* falses := rfilter is_false_symbol args in
        match falses with
        | _ :: _ => Ok (PyNum TrinaryFalse)
        | [] =>
            let* args := rfilter is_not_true_symbol args in
            match args with
            | [] => Ok (PyNum TrinaryTrue)
            | [a] => Ok a
            | [a; b] => min (_to_sx a) (_to_sx b)
            | a :: rest =>
                let* r := logic_and3_rec fuel rest in
                logic_and3_rec fuel [a; r]
            end
        end
  end.

Definition logic_and3 (args : list pyobj) : result pyobj :=
  logic_and3_rec (length args) args.

Definition logic_or3 (a b : pyobj) : result pyobj :=
  max (_to_sx a) (_to_sx b).

Definition logic_not3 (expr : pyobj) : result pyobj :=
  let* r := py_binop Sub (PyNum 1) expr in Expression r.

(** ** Quaternion: conversion from a rotation matrix, normalisation *)

Definition Quaternion_from_rotation_matrix (r : pyobj) : result Quaternion :=
  match attr_s r with
  | None => Raise TypeError
  | Some rs =>
      let gz c x y := let* c := c in let* x := x in let* y := y in
                      if_greater_zero c x y in
      let* q := Expression___init__ (PyList [PyNum 0; PyNum 0; PyNum 0; PyNum 0]) in
      let* t := trace r in
      let* if0 := (!t - getitem2 rs 3 3)%py in
      let* if1 := (getitem2 rs 1 1 - getitem2 rs 0 0)%py in
      let* m_i_i := gz (Ok if1) (getitem2 rs 1 1) (getitem2 rs 0 0) in
      let* m_i_j := gz (Ok if1) (getitem2 rs 1 2) (getitem2 rs 0 1) in
      let* m_i_k := gz (Ok if1) (getitem2 rs 1 0) (getitem2 rs 0 2) in
      let* m_j_i := gz (Ok if1) (getitem2 rs 2 1) (getitem2 rs 1 0) in
      let* m_j_j := gz (Ok if1) (getitem2 rs 2 2) (getitem2 rs 1 1) in
      let* m_j_k := gz (Ok if1) (getitem2 rs 2 0) (getitem2 rs 1 2) in
      let* m_k_i := gz (Ok if1) (getitem2 rs 0 1) (getitem2 rs 2 0) in
      let* m_k_j := gz (Ok if1) (getitem2 rs 0 2) (getitem2 rs 2 1) in
      let* m_k_k := gz (Ok if1) (getitem2 rs 0 0) (getitem2 rs 2 2) in
      let* if2 := (getitem2 rs 2 2 - !m_i_i)%py in
      let* m_i_i := gz (Ok if2) (getitem2 rs 2 2) (Ok m_i_i) in
      let* m_i_j := gz (Ok if2) (getitem2 rs 2 0) (Ok m_i_j) in
      let* m_i_k := gz (Ok if2) (getitem2 rs 2 1) (Ok m_i_k) in
      let* m_j_i := gz (Ok if2) (getitem2 rs 0 2) (Ok m_j_i) in
      let* m_j_j := gz (Ok if2) (getitem2 rs 0 0) (Ok m_j_j) in
      let* m_j_k := gz (Ok if2) (getitem2 rs 0 1) (Ok m_j_k) in
      let* m_k_i := gz (Ok if2) (getitem2 rs 1 2) (Ok m_k_i) in
      let* m_k_j := gz (Ok if2) (getitem2 rs 1 0) (Ok m_k_j) in
      let* m_k_k := gz (Ok if2) (getitem2 rs 1 1) (Ok m_k_k) in
      let* t := gz (Ok if0) (Ok t) (!m_i_i - (!m_j_j + !m_k_k) + getitem2 rs 3 3)%py in
      let* q0 := gz (Ok if0) (getitem2 rs 2 1 - getitem2 rs 1 2)%py
                   (gz (Ok if2) (!m_i_j + !m_j_i)%py
                      (gz (Ok if1) (!m_k_i + !m_i_k)%py (Ok t))) in
      let* q := setitem q 0 q0 in
      let* q1 := gz (Ok if0) (getitem2 rs 0 2 - getitem2 rs 2 0)%py
                   (gz (Ok if2) (!m_k_i + !m_i_k)%py
                      (gz (Ok if1) (Ok t) (!m_i_j + !m_j_i)%py)) in
      let* q := setitem q 1 q1 in
      let* q2 := gz (Ok if0) (getitem2 rs 1 0 - getitem2 rs 0 1)%py
                   (gz (Ok if2) (Ok t)
                      (gz (Ok if1) (!m_i_j + !m_j_i)%py (!m_k_i + !m_i_k)%py)) in
      let* q := setitem q 2 q2 in
      let* q3 := gz (Ok if0) (Ok t) (!m_k_j - !m_j_k)%py in
      let* q := setitem q 3 q3 in
      let* q := (!(PyExpression q) * (#0.5 / (let* x := (!t * getitem2 rs 3 3)%py in sqrt x)))%py in
      Quaternion___init__ q (attr_reference_frame r)
  end.

Definition RotationMatrix_to_quaternion (self : RotationMatrix) : result Quaternion :=
  Quaternion_from_rotation_matrix (PyRotationMatrix self).

Definition Quaternion_norm (self : Quaternion) : result pyobj :=
  norm (PyQuaternion self).

(** [self[key] = value] on a quaternion: its [s] is updated in place, the
    other attributes stay. *)
Definition Quaternion_setitem (self : Quaternion) (key : nat) (value : pyobj)
  : result Quaternion :=
  let* s := setitem (Quaternion_s self) key value in
  Ok (mkQuaternion s (Quaternion_reference_frame self)).

(** [normalize] returns nothing; the result is the receiver after the call. *)
Definition Quaternion_normalize (self : Quaternion) : result Quaternion :=
  let* norm_ := Quaternion_norm self in
  let* x := (py_getitem (PyQuaternion self) 0 / !norm_)%py in
  let* self := Quaternion_setitem self 0 x in
  let* y := (py_getitem (PyQuaternion self) 1 / !norm_)%py in
  let* self := Quaternion_setitem self 1 y in
  let* z := (py_getitem (PyQuaternion self) 2 / !norm_)%py in
  let* self := Quaternion_setitem self 2 z in
  let* w := (py_getitem (PyQuaternion self) 3 / !norm_)%py in
  Quaternion_setitem self 3 w.

(** [to_axis_angle]: the returned pair, and the receiver after the call. *)
Definition Quaternion_to_axis_angle (self : Quaternion)
  : result ((Vector3 * pyobj) * Quaternion) :=
  let* self := Quaternion_normalize self in
  let* w2 := (let* x := (#1 - py_getitem (PyQuaternion self) 3 ** #2)%py in sqrt x) in
  let* m := if_eq_zero w2 (PyNum 1) w2 in
  let* angle :=
    (let* a := (#2 * (let* l := (let* w := py_getitem (PyQuaternion self) 3 in limit w (PyNum (-1)) (PyNum 1)) in
                      acos l))%py in
     if_eq_zero w2 (PyNum 0) a) in
  let* x := (let* d := (py_getitem (PyQuaternion self) 0 / !m)%py in if_eq_zero w2 (PyNum 0) d) in
  let* y := (let* d := (py_getitem (PyQuaternion self) 1 / !m)%py in if_eq_zero w2 (PyNum 0) d) in
  let* z := (let* d := (py_getitem (PyQuaternion self) 2 / !m)%py in if_eq_zero w2 (PyNum 1) d) in
  let* axis := Vector3___init__ (PyList [x; y; z]) (Quaternion_reference_frame self) in
  Ok ((axis, angle), self).

(** ** Further elementary functions *)

Definition cos (x : pyobj) : result pyobj :=
  let* x := Expression___init__ x in Ok (PyExpression (unary OpCos x)).

Definition sin (x : pyobj) : result pyobj :=
  let* x := Expression___init__ x in Ok (PyExpression (unary OpSin x)).

(** [abs]: after its first line [x] is the SX of the argument, so that the
    tests [isinstance(x, Point3)] and [isinstance(x, Vector3)] fail. *)
Definition abs (x : pyobj) : result pyobj :=
  let* x := Expression___init__ x in
  let result := unary OpFabs x in
  Expression (PySX result).

Definition gauss (n : pyobj) : result pyobj :=
  ((!n ** #2 + !n) / #2)%py.

Definition r_gauss (integral : pyobj) : result pyobj :=
  ((let* x := (#2 * !integral + (#1 / #4))%py in sqrt x) - #1 / #2)%py.

(** [save_division].  Without [if_nan] the default for a Point3 is the class
    [Vector3] itself, of which [Expression] takes the length. *)
Definition save_division (nominator denominator : pyobj) (if_nan : option pyobj)
  : result pyobj :=
  let* if_nan :=
    match if_nan with
    | Some v => Ok (Some v)
    | None =>
        match nominator with
        | PyVector3 _ =>
            let* v := Vector3___init__ PyNone None in Ok (Some (PyVector3 v))
        | PyPoint3 _ => Ok None
        | _ => Ok (Some (PyNum 0))
        end
    end in
  let* save_denominator := if_eq_zero denominator (PyNum 1) denominator in
  let* quotient := (#1 / !save_denominator)%py in
  let* factor :=
    match if_nan with
    | Some if_nan => if_eq_zero denominator if_nan quotient
    | None =>
        let* _ := Expression___init__ denominator in
        let* _ := Expression___init__ quotient in
        Raise TypeError
    end in
  py_binop Mul nominator factor.

Definition save_acos (angle : pyobj) : result pyobj :=
  let* angle := limit angle (PyNum (-1)) (PyNum 1) in
  acos angle.

(** ** Products of matrices *)

(** The entry in row [i] and column [j]. *)
Definition entry_at (s : SX) (i j : nat) : sx :=
  nth (i + j * size1 s) (entries s) (Const 0).

(** [s.T]. *)
Definition SX_T (s : SX) : SX :=
  mkMatrix (size2 s) (size1 s)
    (flat_map (fun i => map (fun j => entry_at s i j) (seq 0 (size2 s)))
       (seq 0 (size1 s))).

(** [ca.mtimes]: a 1x1 operand multiplies every entry; otherwise the inner
    sizes have to agree. *)
Definition ca_mtimes (a b : SX) : result SX :=
  if is_scalar a || is_scalar b then binary OpMul a b
  else if (size2 a =? size1 b)%nat then
    Ok (mkMatrix (size1 a) (size2 b)
          (flat_map
             (fun k =>
                map (fun i =>
                       fold_left
                         (fun acc j => Bin OpAdd acc (Bin OpMul (entry_at a i j) (entry_at b j k)))
                         (seq 0 (size2 a)) (Const 0))
                  (seq 0 (size1 a)))
             (seq 0 (size2 b))))
  else Raise EngineError.

(** [ca.cross] of two vectors of three entries. *)
Definition ca_cross (a b : SX) : result SX :=
  match entries a, entries b with
  | [a0; a1; a2], [b0; b1; b2] =>
      if same_shape a b then
        Ok (mkMatrix (size1 a) (size2 a)
              [Bin OpSub (Bin OpMul a1 b2) (Bin OpMul a2 b1);
               Bin OpSub (Bin OpMul a2 b0) (Bin OpMul a0 b2);
               Bin OpSub (Bin OpMul a0 b1) (Bin OpMul a1 b0)])
      else Raise EngineError
  | _, _ => Raise EngineError
  end.

(** [s[:3]] for a raw SX. *)
Definition SX_slice1 (s : SX) (start stop : option nat) : result SX :=
  let* e := getitem_slice1 s start stop in as_SX (_to_sx e).

(** [Expression.T] and [Expression.dot]. *)
Definition Expression_T (self : SX) : result pyobj :=
  Expression (PySX (SX_T self)).

Definition Expression_dot (self : SX) (other : pyobj) : result pyobj :=
  match other with
  | PyExpression other_s =>
      if (size2 self =? 1)%nat && (size2 other_s =? 1)%nat then
        let* t := Expression_T self in
        let* ts := as_SX (_to_sx t) in
        let* r := ca_mtimes ts other_s in
        Expression (PySX r)
      else
        let* r := ca_mtimes self other_s in
        Expression (PySX r)
  | _ => Raise TypeError
  end.

(** [Point3.dot] and [Vector3.dot]: one body, on [self[:3]] and
    [other[:3]]. *)
Definition dot3 (self : SX) (other : pyobj) : result pyobj :=
  match other with
  | PyPoint3 _ | PyVector3 _ =>
      let* a := getitem_slice1 self None (Some 3%nat) in
      let* a := as_SX (_to_sx a) in
      let* at_ := Expression_T a in
      let* at_ := as_SX (_to_sx at_) in
      let* other_s := as_SX (_to_sx other) in
      let* b := getitem_slice1 other_s None (Some 3%nat) in
      let* b := as_SX (_to_sx b) in
      let* r := ca_mtimes at_ b in
      Expression (PySX r)
  | _ => Raise TypeError
  end.

Definition Point3_dot (self : Point3) (other : pyobj) : result pyobj :=
  dot3 (Point3_s self) other.

Definition Vector3_dot (self : Vector3) (other : pyobj) : result pyobj :=
  dot3 (Vector3_s self) other.

(** [Vector3.cross]; [other_s] is the attribute [s] of the other operand. *)
Definition Vector3_cross (self : Vector3) (other_s : SX) : result Vector3 :=
  let* a := SX_slice1 (Vector3_s self) None (Some 3%nat) in
  let* b := SX_slice1 other_s None (Some 3%nat) in
  let* result := ca_cross a b in
  let* result := Vector3___init__ (PySX result) None in
  Ok (mkVector3 (Vector3_s result) (Vector3_reference_frame self)
        (Vector3_vis_frame result)).

Definition Vector3_norm (self : Vector3) : result pyobj := norm (PyVector3 self).

(** [Vector3.scale] returns nothing; the result is the receiver after the
    call, whose [s] is replaced.  The product of a Vector3 is a Vector3,
    which has an [s]. *)
Definition Vector3_scale (self : Vector3) (a : pyobj) : result Vector3 :=
  let* n := Vector3_norm self in
  let* d := save_division (PyVector3 self) n None in
  let* r := py_binop Mul d a in
  match attr_s r with
  | Some s => Ok (mkVector3 s (Vector3_reference_frame self) (Vector3_vis_frame self))
  | None => Raise TypeError
  end.

Definition Quaternion_dot (self : Quaternion) (other : pyobj) : result pyobj :=
  match other with
  | PyQuaternion q =>
      let* r := ca_mtimes (SX_T (Quaternion_s self)) (Quaternion_s q) in
      Expression (PySX r)
  | _ => Raise TypeError
  end.

(** ** Quaternion algebra *)

Definition Quaternion_x (self : Quaternion) : result pyobj := py_getitem (PyQuaternion self) 0.
Definition Quaternion_y (self : Quaternion) : result pyobj := py_getitem (PyQuaternion self) 1.
Definition Quaternion_z (self : Quaternion) : result pyobj := py_getitem (PyQuaternion self) 2.
Definition Quaternion_w (self : Quaternion) : result pyobj := py_getitem (PyQuaternion self) 3.

Definition Quaternion_conjugate (self : Quaternion) : result Quaternion :=
  let* x := (- py_getitem (PyQuaternion self) 0)%py in
  let* y := (- py_getitem (PyQuaternion self) 1)%py in
  let* z := (- py_getitem (PyQuaternion self) 2)%py in
  let* w := py_getitem (PyQuaternion self) 3 in
  Quaternion___init__ (PyList [x; y; z; w]) None.

Definition Quaternion_multiply (self q : Quaternion) : result Quaternion :=
  let self_x := Quaternion_x self in
  let self_y := Quaternion_y self in
  let self_z := Quaternion_z self in
  let self_w := Quaternion_w self in
  let q_x := Quaternion_x q in
  let q_y := Quaternion_y q in
  let q_z := Quaternion_z q in
  let q_w := Quaternion_w q in
  let* e0 := (self_x * q_w + self_y * q_z - self_z * q_y + self_w * q_x)%py in
  let* e1 := (- self_x * q_z + self_y * q_w + self_z * q_x + self_w * q_y)%py in
  let* e2 := (self_x * q_y - self_y * q_x + self_z * q_w + self_w * q_z)%py in
  let* e3 := (- self_x * q_x - self_y * q_y - self_z * q_z + self_w * q_w)%py in
  Quaternion___init__ (PyList [e0; e1; e2; e3]) (Quaternion_reference_frame self).

Definition Quaternion_diff (self q : Quaternion) : result Quaternion :=
  let* c := Quaternion_conjugate self in
  Quaternion_multiply c q.

Definition Quaternion_to_rotation_matrix (self : Quaternion) : result RotationMatrix :=
  RotationMatrix_from_quaternion self.

Definition Quaternion_from_rpy (roll pitch yaw : pyobj) (reference_frame : option Body)
  : result Quaternion :=
  let* roll := Expression___init__ roll in
  let* pitch := Expression___init__ pitch in
  let* yaw := Expression___init__ yaw in
  let* roll_half := (!(PySX roll) / #2)%py in
  let* pitch_half := (!(PySX pitch) / #2)%py in
  let* yaw_half := (!(PySX yaw) / #2)%py in
  let* c_roll := cos roll_half in
  let* s_roll := sin roll_half in
  let* c_pitch := cos pitch_half in
  let* s_pitch := sin pitch_half in
  let* c_yaw := cos yaw_half in
  let* s_yaw := sin yaw_half in
  let* cc := (!c_roll * !c_yaw)%py in
  let* cs := (!c_roll * !s_yaw)%py in
  let* sc := (!s_roll * !c_yaw)%py in
  let* ss := (!s_roll * !s_yaw)%py in
  let* x := (!c_pitch * !sc - !s_pitch * !cs)%py in
  let* y := (!c_pitch * !ss + !s_pitch * !cc)%py in
  let* z := (!c_pitch * !cs - !s_pitch * !sc)%py in
  let* w := (!c_pitch * !cc + !s_pitch * !ss)%py in
  Quaternion___init__ (PyList [x; y; z; w]) reference_frame.

(** ** Rotation matrices *)

(** [ca.cos] and [ca.sin] of a number or of an SX. *)
Definition ca_cos (x : pyobj) : result pyobj :=
  match x with
  | PyNum c => Ok (PyNum (Rtrigo_def.cos c))
  | PySX s => Ok (PySX (unary OpCos s))
  | _ => Raise EngineError
  end.

Definition ca_sin (x : pyobj) : result pyobj :=
  match x with
  | PyNum c => Ok (PyNum (Rtrigo_def.sin c))
  | PySX s => Ok (PySX (unary OpSin s))
  | _ => Raise EngineError
  end.

Definition RotationMatrix_from_rpy (roll pitch yaw : option pyobj)
  (reference_frame : option Body) : result RotationMatrix :=
  let roll := match roll with None => PyNum 0 | Some v => v end in
  let pitch := match pitch with None => PyNum 0 | Some v => v end in
  let yaw := match yaw with None => PyNum 0 | Some v => v end in
  let roll := _to_sx roll in
  let pitch := _to_sx pitch in
  let yaw := _to_sx yaw in
  let s := SX_eye4 in
  let* v := (ca_cos yaw * ca_cos pitch)%py in
  let* s := setitem2 s 0 0 v in
  let* v := ((ca_cos yaw * ca_sin pitch * ca_sin roll) - (ca_sin yaw * ca_cos roll))%py in
  let* s := setitem2 s 0 1 v in
  let* v := ((ca_sin yaw * ca_sin roll) + (ca_cos yaw * ca_sin pitch * ca_cos roll))%py in
  let* s := setitem2 s 0 2 v in
  let* v := (ca_sin yaw * ca_cos pitch)%py in
  let* s := setitem2 s 1 0 v in
  let* v := ((ca_cos yaw * ca_cos roll) + (ca_sin yaw * ca_sin pitch * ca_sin roll))%py in
  let* s := setitem2 s 1 1 v in
  let* v := ((ca_sin yaw * ca_sin pitch * ca_cos roll) - (ca_cos yaw * ca_sin roll))%py in
  let* s := setitem2 s 1 2 v in
  let* v := (- ca_sin pitch)%py in
  let* s := setitem2 s 2 0 v in
  let* v := (ca_cos pitch * ca_sin roll)%py in
  let* s := setitem2 s 2 1 v in
  let* v := (ca_cos pitch * ca_cos roll)%py in
  let* s := setitem2 s 2 2 v in
  RotationMatrix___init__ (PySX s) reference_frame None false.

(** [RotationMatrix.T] and [inverse]: the constructor runs with its default
    [sanity_check]. *)
Definition RotationMatrix_T (self : RotationMatrix) : result RotationMatrix :=
  RotationMatrix___init__ (PySX (SX_T (RotationMatrix_s self)))
    (RotationMatrix_reference_frame self) None true.

Definition RotationMatrix_inverse (self : RotationMatrix) : result RotationMatrix :=
  RotationMatrix_T self.

Definition RotationMatrix_dot (self : RotationMatrix) (other : pyobj) : result pyobj :=
  match other with
  | PyVector3 _ | PyPoint3 _ | PyRotationMatrix _ | PyTransformationMatrix _ =>
      let* other_s := as_SX (_to_sx other) in
      let* result := ca_mtimes (RotationMatrix_s self) other_s in
      match other with
      | PyVector3 _ =>
          let* v := Vector3___init__ (PySX result) None in
          Ok (PyVector3 (mkVector3 (Vector3_s v) (RotationMatrix_reference_frame self)
                           (Vector3_vis_frame v)))
      | PyPoint3 _ =>
          let* p := Point3___init__ (PySX result) None in
          Ok (PyPoint3 (mkPoint3 (Point3_s p) (RotationMatrix_reference_frame self)))
      | PyRotationMatrix _ =>
          let* r := RotationMatrix___init__ (PySX result) None None false in
          Ok (PyRotationMatrix
                (mkRotationMatrix (RotationMatrix_s r) (RotationMatrix_reference_frame self)
                   (RotationMatrix_child_frame r)))
      | _ =>
          let* t := TransformationMatrix___init__ (PySX result) None None false in
          Ok (PyTransformationMatrix
                (mkTransformationMatrix (TransformationMatrix_s t)
                   (RotationMatrix_reference_frame self)
                   (TransformationMatrix_child_frame t)))
      end
  | _ => Raise TypeError
  end.

Definition TransformationMatrix_dot (self : TransformationMatrix) (other : pyobj)
  : result pyobj :=
  match other with
  | PyVector3 _ | PyPoint3 _ | PyRotationMatrix _ | PyTransformationMatrix _ =>
      let* other_s := as_SX (_to_sx other) in
      let* result := ca_mtimes (TransformationMatrix_s self) other_s in
      match other with
      | PyVector3 _ =>
          let* v := Vector3___init__ (PySX result)
                      (TransformationMatrix_reference_frame self) in
          Ok (PyVector3 v)
      | PyPoint3 _ =>
          let* p := Point3___init__ (PySX result)
                      (TransformationMatrix_reference_frame self) in
          Ok (PyPoint3 p)
      | PyRotationMatrix _ =>
          let* r := RotationMatrix___init__ (PySX result)
                      (TransformationMatrix_reference_frame self) None false in
          Ok (PyRotationMatrix r)
      | PyTransformationMatrix t =>
          let* r := TransformationMatrix___init__ (PySX result)
                      (TransformationMatrix_reference_frame self)
                      (TransformationMatrix_child_frame t) false in
          Ok (PyTransformationMatrix r)
      | _ => Raise TypeError
      end
  | _ => Raise TypeError
  end.

(** [dot]: any exception of the method, and the absence of the method, is
    turned into a type error. *)
Definition dot (e1 e2 : pyobj) : result pyobj :=
  let r :=
    match e1 with
    | PyExpression s => Expression_dot s e2
    | PyPoint3 p => Point3_dot p e2
    | PyVector3 v => Vector3_dot v e2
    | PyQuaternion q => Quaternion_dot q e2
    | PyRotationMatrix r => RotationMatrix_dot r e2
    | PyTransformationMatrix t => TransformationMatrix_dot t e2
    | _ => Raise TypeError
    end in
  match r with
  | Ok v => Ok v
  | Raise _ => Raise TypeError
  end.

Definition euclidean_distance (v1 v2 : pyobj) : result pyobj :=
  let* d := py_binop Sub v1 v2 in norm d.

(** ** Blocks of matrices and transformations *)

(** [s[r0:r1, c0:c1] = v]: the value has the shape of the block or is
    1x1. *)
Definition set_slice (s : SX) (r0 r1 c0 c1 : option nat) (v : SX) : result SX :=
  let* rows := slice_all r0 r1 (size1 s) in
  let* cols := slice_all c0 c1 (size2 s) in
  let pick := flat_map (fun j => map (fun i => (i + j * size1 s)%nat) rows) cols in
  let* vals :=
    if is_scalar v then
      match entries v with
      | [e] => Ok (repeat e (length pick))
      | _ => Raise EngineError
      end
    else if ((size1 v =? length rows) && (size2 v =? length cols))%nat
    then Ok (entries v)
    else Raise EngineError in
  let* l :=
    for_each (combine pick vals)
      (fun l '(k, e) =>
         match set_nth l k e with
         | Some l' => Ok l'
         | None => Raise EngineError
         end)
      (entries s) in
  Ok (mkMatrix (size1 s) (size2 s) l).

(** [Symbol_.__setitem__] with two slices. *)
Definition setitem_slices (s : SX) (r0 r1 c0 c1 : option nat) (value : pyobj)
  : result SX :=
  let* v := setitem_value value in set_slice s r0 r1 c0 c1 v.

(** [inverse]: the object made by the constructor is updated in place,
    first its rotation block, then its translation. *)
Definition TransformationMatrix_inverse (self : TransformationMatrix)
  : result TransformationMatrix :=
  let* inv := TransformationMatrix___init__ PyNone
                (TransformationMatrix_child_frame self)
                (TransformationMatrix_reference_frame self) true in
  let* block := getitem_slices (TransformationMatrix_s self)
                  None (Some 3%nat) None (Some 3%nat) in
  let* block_s := as_SX (_to_sx block) in
  let* block_T := Expression_T block_s in
  let* s := setitem_slices (TransformationMatrix_s inv)
              None (Some 3%nat) None (Some 3%nat) block_T in
  let* r := getitem_slices s None (Some 3%nat) None (Some 3%nat) in
  let* minus_r := py_neg r in
  let* t := getitem_slices (TransformationMatrix_s self)
              None (Some 3%nat) (Some 3%nat) (Some 4%nat) in
  let* d := dot minus_r t in
  let* s := setitem_slices s None (Some 3%nat) (Some 3%nat) (Some 4%nat) d in
  Ok (mkTransformationMatrix s (TransformationMatrix_reference_frame inv)
        (TransformationMatrix_child_frame inv)).

(** ** Distances *)

(** [distance_point_to_line_segment]: the distance and the nearest point.
    The quotient of a vector is a vector, whose method [dot] is called. *)
Definition distance_point_to_line_segment
  (frame_P_current frame_P_line_start frame_P_line_end : pyobj)
  : result (pyobj * Point3) :=
  let* frame_P_current := Point3___init__ frame_P_current None in
  let* frame_P_line_start := Point3___init__ frame_P_line_start None in
  let* frame_P_line_end := Point3___init__ frame_P_line_end None in
  let* line_vec :=
    py_binop Sub (PyPoint3 frame_P_line_end) (PyPoint3 frame_P_line_start) in
  let* pnt_vec :=
    py_binop Sub (PyPoint3 frame_P_current) (PyPoint3 frame_P_line_start) in
  let* line_len := norm line_vec in
  let* line_unitvec := py_binop TrueDiv line_vec line_len in
  let* pnt_vec_scaled := py_binop TrueDiv pnt_vec line_len in
  let* t :=
    match line_unitvec with
    | PyVector3 v => Vector3_dot v pnt_vec_scaled
    | PyPoint3 p => Point3_dot p pnt_vec_scaled
    | _ => Raise TypeError
    end in
  let* t := limit t (PyNum 0) (PyNum 1) in
  let* nearest := py_binop Mul line_vec t in
  let* difference := py_binop Sub nearest pnt_vec in
  let* dist := norm difference in
  let* nearest := py_binop Add nearest (PyPoint3 frame_P_line_start) in
  let* nearest := Point3___init__ nearest None in
  Ok (dist, nearest).

(** ** Binary logic *)

(** [logic_or] of any number of arguments, with the keyword [simplify].  The
    call on the remaining arguments passes [False] as one more argument,
    not as [simplify]. *)
Fixpoint logic_or_rec (fuel : nat) (args : list pyobj) (simplify : bool)
  : result pyobj :=
  match fuel with
  | O => Raise RecursionError
  | S fuel =>
      if (length args <? 2)%nat then Raise AssertionError
      else
        let* trues := if simplify then rfilter is_true_symbol args else Ok [] in
        match trues with
        | _ :: _ => Ok (PyExpression BinaryTrue)
        | [] =>
            let* args :=
              if simplify
              then rfilter (fun x => let* b := is_false_symbol x in Ok (negb b)) args
              else Ok args in
            match args with
            | [] => Ok (PyExpression BinaryFalse)
            | [a] => Ok a
            | [a; b] =>
                let* a := as_SX (_to_sx a) in
                let* b := as_SX (_to_sx b) in
                let* r := binary OpOr a b in
                Expression (PySX r)
            | a :: rest =>
                let* r := logic_or_rec fuel (rest ++ [PyNum 0]) true in
                let* a := as_SX (_to_sx a) in
                let* r := as_SX (_to_sx r) in
                let* r := binary OpOr a r in
                Expression (PySX r)
            end
        end
  end.

Definition logic_or (args : list pyobj) (simplify : bool) : result pyobj :=
  logic_or_rec (S (S (length args))) args simplify.

End SpatialTypes.

(** * Objects that share their SX *)

(** A transformation made from a rotation matrix takes over the SX of the
    rotation matrix without a copy, and item assignment changes an SX in
    place.  Here the SX objects live in a store and the Python objects hold
    their addresses. *)

Module Shared.
Import Engine SpatialTypes.

Record store : Type := mkStore {
  cells : gmap nat SX;
  next : nat
}.

Definition empty : store := mkStore ∅ 0.

Definition alloc (v : SX) (st : store) : nat * store :=
  (next st, mkStore (<[next st := v]> (cells st)) (S (next st))).

Record RotationMatrix : Type := mkRotationMatrix {
  RotationMatrix_s : nat;
  RotationMatrix_reference_frame : option Body;
  RotationMatrix_child_frame : option Body
}.

Record TransformationMatrix : Type := mkTransformationMatrix {
  TransformationMatrix_s : nat;
  TransformationMatrix_reference_frame : option Body;
  TransformationMatrix_child_frame : option Body
}.

(** [self[i, j] = value] for the object whose SX is at [l]. *)
Definition setitem (l : nat) (i j : nat) (value : pyobj) (st : store) : result store :=
  match cells st !! l with
  | None => Raise EngineError
  | Some s =>
      let* s' := setitem2 s i j value in
      Ok (mkStore (<[l := s']> (cells st)) (next st))
  end.

(** [TransformationMatrix.__init__] without data and on a rotation
    matrix. *)
Definition TransformationMatrix___init__ (data : option RotationMatrix)
  (reference_frame child_frame : option Body) (sanity_check : bool) (st : store)
  : result (TransformationMatrix * store) :=
  match data with
  | None =>
      let '(l, st) := alloc SX_eye4 st in
      Ok (mkTransformationMatrix l reference_frame child_frame, st)
  | Some r =>
      let self :=
        mkTransformationMatrix (RotationMatrix_s r)
          (frame_or reference_frame (RotationMatrix_reference_frame r)) child_frame in
      if sanity_check then
        match cells st !! RotationMatrix_s r with
        | None => Raise EngineError
        | Some s =>
            if negb (size1 s =? 4)%nat || negb (size2 s =? 4)%nat then Raise ValueError
            else
              let* st := setitem (RotationMatrix_s r) 3 0 (PyNum 0) st in
              let* st := setitem (RotationMatrix_s r) 3 1 (PyNum 0) st in
              let* st := setitem (RotationMatrix_s r) 3 2 (PyNum 0) st in
              let* st := setitem (RotationMatrix_s r) 3 3 (PyNum 1) st in
              Ok (self, st)
        end
      else Ok (self, st)
  end.

Definition TransformationMatrix_from_point_rotation_matrix
  (point : option Point3) (rotation_matrix : option RotationMatrix)
  (reference_frame child_frame : option Body) (st : store)
  : result (TransformationMatrix * store) :=
  let* made :=
    match rotation_matrix with
    | None => TransformationMatrix___init__ None reference_frame child_frame true st
    | Some r =>
        TransformationMatrix___init__ (Some r) reference_frame child_frame false st
    end in
  let '(a_T_b, st) := made in
  match point with
  | None => Ok (a_T_b, st)
  | Some p =>
      let* x := py_getitem (PyPoint3 p) 0 in
      let* st := setitem (TransformationMatrix_s a_T_b) 0 3 x st in
      let* y := py_getitem (PyPoint3 p) 1 in
      let* st := setitem (TransformationMatrix_s a_T_b) 1 3 y st in
      let* z := py_getitem (PyPoint3 p) 2 in
      let* st := setitem (TransformationMatrix_s a_T_b) 2 3 z st in
      Ok (a_T_b, st)
  end.

End Shared.

(** * The symbol registry *)

Module SymbolRegistry.
Import Engine.







Section Hashing.
Variable str_hash : string -> Z.




End Hashing.






End SymbolRegistry.

(** * The compilation engine *)

Module Compilation.
Import Engine.

(** ** The engine's functions and their buffers *)

(** [ca.Function('f', inputs, [output])]: one input per group of symbols. *)
Record Function : Type := mkFunction {
  inputs : list (list string);
  output : SX
}.

Fixpoint has_duplicates (l : list string) : bool :=
  match l with
  | [] => false
  | x :: t => existsb (String.eqb x) t || has_duplicates t
  end.

Definition free_of (s : SX) : list string := flat_map symvar (entries s).

(** The engine refuses inputs that repeat a symbol and an output with a
    symbol that is no input. *)
Definition ca_Function (parameters : list (list string)) (expression : SX)
  : result Function :=
  if has_duplicates (concat parameters) then Raise EngineError
  else if forallb (fun n => existsb (String.eqb n) (concat parameters))
            (free_of expression)
  then Ok (mkFunction parameters expression)
  else Raise EngineError.

(** The argument slots of a function buffer: the array bound to each input,
    if one was bound. *)
Definition buffer : Type := list (option (list R)).

(** [function_buffer.set_arg(i, memoryview(a))]: the slot has to exist and
    the array has to hold at least the entries of the input. *)
Definition set_arg (f : Function) (b : buffer) (i : nat) (a : list R) : result buffer :=
  match nth_error (inputs f) i with
  | None => Raise EngineError
  | Some group =>
      if (length a <? length group)%nat then Raise EngineError
      else Ok (firstn i b ++ Some a :: skipn (S i) b)
  end.

(** Position of a name in a group. *)
Fixpoint index_of (name : string) (group : list string) : option nat :=
  match group with
  | [] => None
  | x :: t => if String.eqb x name then Some 0%nat
              else match index_of name t with
                   | Some k => Some (S k)
                   | None => None
                   end
  end.

(** The value the evaluator reads for a symbol: the entry of the array bound
    to its input at its position; an input without array reads as 0. *)
Fixpoint read (groups : list (list string)) (b : buffer) (name : string) : option R :=
  match groups with
  | [] => None
  | group :: groups' =>
      match index_of name group with
      | Some k =>
          match b with
          | Some a :: _ => nth_error a k
          | _ => Some 0
          end
      | None => read groups' (tl b) name
      end
  end.

(** [function_evaluator()]: the values of the entries of the output, column
    by column; an entry that is no real number is [None]. *)
Definition evaluate (f : Function) (b : buffer) : list (option R) :=
  map (eval (read (inputs f) b)) (entries (output f)).

(** ** Sparsity *)

(** [ca.sparsify]: entries that are the constant zero are structural
    zeros. *)
Definition is_zero (e : sx) : bool :=
  match e with
  | Const c => Rzero c
  | _ => false
  end.

(** The rows of the structural nonzeros of one column. *)
Definition column_rows (col : list sx) : list nat :=
  map fst (List.filter (fun p => negb (is_zero (snd p))) (combine (seq 0 (length col)) col)).

(** The columns of a matrix. *)
Fixpoint columns {A : Type} (nrow ncol : nat) (l : list A) : list (list A) :=
  match ncol with
  | O => []
  | S k => firstn nrow l :: columns nrow k (skipn nrow l)
  end.

(** [sparsity().get_ccs()]: the column offsets and the row indices. *)
Definition get_ccs (s : SX) : list nat * list nat :=
  let cols := columns (size1 s) (size2 s) (entries s) in
  let colind :=
    fold_left (fun acc col => acc ++ [(List.last acc 0 + length (column_rows col))%nat])
      cols [0%nat] in
  (colind, flat_map column_rows cols).

Definition nonzeros (s : SX) : list sx :=
  List.filter (fun e => negb (is_zero e)) (entries s).

(** ** Outputs *)

(** A dense array of one or two dimensions (its data column by column), or
    a matrix in compressed sparse column form. *)
Inductive ndarray : Type :=
| Array1 (data : list (option R))
| Array2 (rows cols : nat) (data : list (option R)).

Record csc_matrix : Type := mkCsc {
  csc_shape : nat * nat;
  csc_data : list (option R);
  csc_indices : list nat;
  csc_indptr : list nat
}.

Inductive out_value : Type :=
| Dense (a : ndarray)
| Sparse (m : csc_matrix).

(** [csc.toarray()]. *)
Definition csc_entry (m : csc_matrix) (i j : nat) : option R :=
  let lo := nth j (csc_indptr m) 0%nat in
  let hi := nth (S j) (csc_indptr m) 0%nat in
  match List.filter (fun k => (nth k (csc_indices m) 0 =? i)%nat) (seq lo (hi - lo)) with
  | k :: _ => nth k (csc_data m) (Some 0)
  | [] => Some 0
  end.

Definition toarray (m : csc_matrix) : ndarray :=
  let '(r, c) := csc_shape m in
  Array2 r c (flat_map (fun j => map (fun i => csc_entry m i j) (seq 0 r)) (seq 0 c)).

(** ** CompiledFunction *)

Record CompiledFunction : Type := mkCompiledFunction {
  sparse : bool;
  symbol_parameters : list (list string);
  compiled_casadi_function : option Function;
  function_buffer : buffer;
  out : out_value;
  (* the result that the instance attributes [__call__] and [fast_call]
     return, when [__init__] has set them *)
  constant : option out_value
}.

(** The [parameters] argument: absent, a list of symbols, or a list of
    lists of symbols. *)
Inductive parameters_arg : Type :=
| NoParameters
| Symbols (l : list string)
| Groups (l : list (list string)).

(** [expression.free_symbols()]: every symbol once. *)
Fixpoint dedup (l : list string) : list string :=
  match l with
  | [] => []
  | x :: t => if existsb (String.eqb x) t then dedup t else x :: dedup t
  end.

Definition free_symbols (expression : SX) : list string :=
  dedup (free_of expression).

Definition zeros (n : nat) : list (option R) := repeat (Some 0) n.

(** Writing the values of the output into the memory of a buffer. *)
Definition overwrite (values old : list (option R)) : list (option R) :=
  values ++ skipn (length values) old.

(** [self.function_evaluator()]: the compiled function runs on the bound
    arguments and its output is written into the memory of [self.out]. *)
Definition function_evaluator (self : CompiledFunction) : CompiledFunction :=
  match compiled_casadi_function self with
  | None => self
  | Some f =>
      let values := evaluate f (function_buffer self) in
      let out' :=
        match out self with
        | Dense (Array1 data) => Dense (Array1 (overwrite values data))
        | Dense (Array2 r c data) => Dense (Array2 r c (overwrite values data))
        | Sparse m =>
            Sparse (mkCsc (csc_shape m) (overwrite values (csc_data m))
                      (csc_indices m) (csc_indptr m))
        end in
      mkCompiledFunction (sparse self) (symbol_parameters self)
        (compiled_casadi_function self) (function_buffer self) out' (constant self)
  end.

Definition CompiledFunction___init__ (expression : SX) (parameters : parameters_arg)
  (sparse : bool) : result CompiledFunction :=
  let parameters :=
    match parameters with
    | NoParameters => Symbols (free_symbols expression)
    | _ => parameters
    end in
  let parameters :=
    match parameters with
    | Symbols [] => []
    | Symbols l => [l]
    | Groups l => l
    | NoParameters => []
    end in
  let symbol_parameters := parameters in
  if (size1 expression =? 0)%nat && sparse then
    let result :=
      Sparse (mkCsc (shape expression) [] [] (repeat 0%nat (S (size2 expression)))) in
    Ok (mkCompiledFunction sparse symbol_parameters None [] result (Some result))
  else
    let* self :=
      if sparse then
        (* the function is made of the structural nonzeros *)
        let sparsified := mkMatrix (size1 expression) (size2 expression)
                            (nonzeros expression) in
        let* f := ca_Function parameters sparsified in
        let '(csc_indices, csc_indptr) := get_ccs expression in
        let out := Sparse (mkCsc (shape expression)
                             (zeros (length (nonzeros expression)))
                             csc_indptr csc_indices) in
        Ok (mkCompiledFunction sparse symbol_parameters (Some f)
              (repeat None (length parameters)) out None)
      else
        let* f := ca_Function parameters expression in
        let out :=
          if (size2 expression <=? 1)%nat then
            Dense (Array1 (zeros (size1 expression)))
          else
            Dense (Array2 (size1 expression) (size2 expression)
                     (zeros (size1 expression * size2 expression))) in
        Ok (mkCompiledFunction sparse symbol_parameters (Some f)
              (repeat None (length parameters)) out None) in
    if (length symbol_parameters =? 0)%nat then
      let self := function_evaluator self in
      let result :=
        match out self with
        | Sparse m => Dense (toarray m)
        | Dense a => Dense a
        end in
      Ok (mkCompiledFunction sparse symbol_parameters (compiled_casadi_function self)
            (function_buffer self) (out self) (Some result))
    else Ok self.

(** [fast_call]: the value returned and the object after the call. *)
Definition CompiledFunction_fast_call (self : CompiledFunction) (args : list (list R))
  : result (out_value * CompiledFunction) :=
  match constant self with
  | Some result => Ok (result, self)
  | None =>
      match compiled_casadi_function self with
      | None => Raise EngineError
      | Some f =>
          let* b :=
            SpatialTypes.for_each (combine (seq 0 (length args)) args)
              (fun b '(arg_idx, arg) => set_arg f b arg_idx arg)
              (function_buffer self) in
          let self :=
            mkCompiledFunction (sparse self) (symbol_parameters self)
              (compiled_casadi_function self) b (out self) (constant self) in
          let self := function_evaluator self in
          Ok (out self, self)
      end
  end.

(** [__call__], with the keyword arguments as a map from names to
    values. *)
Definition CompiledFunction___call__ (self : CompiledFunction) (kwargs : gmap string R)
  : result (out_value * CompiledFunction) :=
  let* args :=
    SpatialTypes.rmap
      (fun param => match kwargs !! param with
                    | Some v => Ok v
                    | None => Raise KeyError
                    end)
      (concat (symbol_parameters self)) in
  let filtered_args := args in
  CompiledFunction_fast_call self [filtered_args].

(** [expression.compile(parameters, sparse)]. *)
Definition compile (expression : SX) (parameters : parameters_arg) (sparse : bool)
  : result CompiledFunction :=
  CompiledFunction___init__ expression parameters sparse.

End Compilation.

(** * Specification predicates *)

Module Spec.
Import Engine SpatialTypes.

(** A 4x1 column whose fourth entry is the constant [h]. *)
Definition homogeneous (s : SX) (h : R) : Prop :=
  exists x y z, s = mkMatrix 4 1 [x; y; z; Const h].

(** The homogeneous-coordinate invariant of points and vectors. *)
Definition invariant (o : pyobj) : Prop :=
  match o with
  | PyPoint3 p => homogeneous (Point3_s p) 1
  | PyVector3 v => homogeneous (Vector3_s v) 0
  | _ => True
  end.

(** The values produced by a public constructor or by an arithmetic
    operation. *)
Inductive produced : pyobj -> Prop :=
| by_Point3 data rf p :
    Point3___init__ data rf = Ok p -> produced (PyPoint3 p)
| by_Point3_from_xyz x y z rf p :
    Point3_from_xyz x y z rf = Ok p -> produced (PyPoint3 p)
| by_Vector3 data rf v :
    Vector3___init__ data rf = Ok v -> produced (PyVector3 v)
| by_Vector3_from_xyz x y z rf v :
    Vector3_from_xyz x y z rf = Ok v -> produced (PyVector3 v)
| by_operator o a b r :
    py_binop o a b = Ok r -> produced r
| by_negation a r :
    py_neg a = Ok r -> produced r.

(** A 4x4 matrix, given by its entries [mij] (row i, column j). *)
Definition matrix4
  (m00 m01 m02 m03 m10 m11 m12 m13 m20 m21 m22 m23 m30 m31 m32 m33 : sx) : SX :=
  mkMatrix 4 4 [m00; m10; m20; m30;
                m01; m11; m21; m31;
                m02; m12; m22; m32;
                m03; m13; m23; m33].

(** A point and a vector with the given first three entries. *)
Definition point (x y z : sx) (rf : option Body) : Point3 :=
  mkPoint3 (column [x; y; z; Const 1]) rf.

Definition vector (x y z : sx) (rf vis : option Body) : Vector3 :=
  mkVector3 (column [x; y; z; Const 0]) rf vis.

(** A scalar operand: a number, a Symbol or a 1x1 Expression. *)
Inductive scalar_operand : Type :=
| Num (k : R)
| Symb (n : string)
| Expr (e : sx).

Definition operand (c : scalar_operand) : pyobj :=
  match c with
  | Num k => PyNum k
  | Symb n => PySymbol n
  | Expr e => PyExpression (scalar e)
  end.

Definition entry (c : scalar_operand) : sx :=
  match c with
  | Num k => Const k
  | Symb n => Sym n
  | Expr e => e
  end.

(** [res] has the value of [l o r] under every binding. *)
Definition same_value (res : sx) (o : operator) (l r : sx) : Prop :=
  forall rho, eval rho res = eval rho (Bin (engine_op o) l r).

(** The number a scalar result stands for under a binding. *)
Definition value (rho : string -> option R) (o : pyobj) : option R :=
  match o with
  | PyNum k => Some k
  | PySymbol n => rho n
  | PyExpression s =>
      match entries s with
      | [e] => eval rho e
      | _ => None
      end
  | _ => None
  end.

Definition trinary (x : R) : Prop :=
  x = TrinaryFalse \/ x = TrinaryUnknown \/ x = TrinaryTrue.

(** The binding of the single symbol [a]. *)
Definition binding_a (v : R) : string -> option R :=
  fun n => if String.eqb n "a" then Some v else None.

(** The dense array that holds the values [values] of the entries of an
    expression. *)
Definition dense_of (expression : SX) (values : list (option R)) : Compilation.out_value :=
  if (size2 expression <=? 1)%nat
  then Compilation.Dense (Compilation.Array1 values)
  else Compilation.Dense
         (Compilation.Array2 (size1 expression) (size2 expression) values).

(** Direct substitution of the values of a keyword assignment. *)
Definition substitute (kwargs : gmap string R) (expression : SX) : list (option R) :=
  map (eval (fun n => kwargs !! n)) (entries expression).

(** The nested ternaries of a case table over the scrutinee [a], built from
    the first case to the last: each case wraps the result so far. *)
Definition case_tree (op : binop) (a : sx) (cases : list (sx * sx)) (d : sx) : sx :=
  fold_left (fun acc '(k, r) => IfElse (Bin op a k) r acc) cases d.

(** The result of the last pair of a table of values whose key satisfies
    the test, the default when there is none. *)
Definition last_match (test : R -> bool) (cases : list (R * R)) (d : R) : R :=
  fold_left (fun acc '(k, r) => if test k then r else acc) cases d.

(** The result of the first such pair. *)
Fixpoint first_match (test : R -> bool) (cases : list (R * R)) (d : R) : R :=
  match cases with
  | [] => d
  | (k, r) :: t => if test k then r else first_match test t d
  end.

Definition operands (cases : list (scalar_operand * scalar_operand))
  : list (pyobj * pyobj) :=
  map (fun '(k, r) => (operand k, operand r)) cases.

Definition case_entries (cases : list (scalar_operand * scalar_operand))
  : list (sx * sx) :=
  map (fun '(k, r) => (entry k, entry r)) cases.

(** The values of the keys and results of a table under a binding. *)
Definition case_values (rho : string -> option R) (cases : list (sx * sx))
  (values : list (R * R)) : Prop :=
  Forall2 (fun '(k, r) '(vk, vr) => eval rho k = Some vk /\ eval rho r = Some vr)
    cases values.

(** Evaluation in which a ternary node computes both of its branches: the
    value exists only when the branch that is not selected has one too. *)
Fixpoint eval_strict (rho : string -> option R) (e : sx) : option R :=
  match e with
  | Const c => Some c
  | Sym name => rho name
  | Un o a => let? x := eval_strict rho a in eval_unop o x
  | Bin o a b =>
      let? x := eval_strict rho a in
      let? y := eval_strict rho b in eval_binop o x y
  | IfElse c a b =>
      let? v := eval_strict rho c in
      let? x := eval_strict rho a in
      let? y := eval_strict rho b in
      Some (if Rzero v then y else x)
  end.

(** A quaternion with the given entries. *)
Definition quaternion (x y z w : sx) (rf : option Body) : Quaternion :=
  mkQuaternion (column [x; y; z; w]) rf.

(** The values of a 4x4 matrix whose last row and column are those of a
    rotation, given by its 3x3 block [rij] (row i, column j). *)
Definition rotation4 (r00 r01 r02 r10 r11 r12 r20 r21 r22 : R) : matrix R :=
  mkMatrix 4 4 [r00; r10; r20; 0;
                r01; r11; r21; 0;
                r02; r12; r22; 0;
                0; 0; 0; 1].

(** The rows of the block have length one and are orthogonal. *)
Definition orthonormal (r00 r01 r02 r10 r11 r12 r20 r21 r22 : R) : Prop :=
  r00 * r00 + r01 * r01 + r02 * r02 = 1 /\
  r10 * r10 + r11 * r11 + r12 * r12 = 1 /\
  r20 * r20 + r21 * r21 + r22 * r22 = 1 /\
  r00 * r10 + r01 * r11 + r02 * r12 = 0 /\
  r00 * r20 + r01 * r21 + r02 * r22 = 0 /\
  r10 * r20 + r11 * r21 + r12 * r22 = 0.

(** The disjunction of the expressions of a list, nested to the right. *)
Fixpoint or_tree (es : list sx) : sx :=
  match es with
  | [] => Const 0
  | [a] => a
  | a :: rest => Bin OpOr a (or_tree rest)
  end.

(** A truth value: 0 or 1. *)
Definition binary_value (v : R) : Prop := v = 0 \/ v = 1.

(** A scalar operand whose value is a truth value. *)
Definition has_value (rho : string -> option R) (x : scalar_operand) (v : R) : Prop :=
  eval rho (entry x) = Some v /\ binary_value v.

Definition nonzero (v : R) : bool := negb (Rzero v).

(** Two outputs of one layout: they differ in the numbers that their
    memory holds only. *)
Definition same_layout (o o' : Compilation.out_value) : Prop :=
  match o, o' with
  | Compilation.Dense (Compilation.Array1 d), Compilation.Dense (Compilation.Array1 d') =>
      length d = length d'
  | Compilation.Dense (Compilation.Array2 r c d),
    Compilation.Dense (Compilation.Array2 r' c' d') =>
      r = r' /\ c = c' /\ length d = length d'
  | Compilation.Sparse m, Compilation.Sparse m' =>
      Compilation.csc_shape m = Compilation.csc_shape m' /\
      Compilation.csc_indices m = Compilation.csc_indices m' /\
      Compilation.csc_indptr m = Compilation.csc_indptr m' /\
      length (Compilation.csc_data m) = length (Compilation.csc_data m')
  | _, _ => False
  end.

(** The states of the compiled function [f0] in use: a call binds arrays to
    the inputs and writes numbers into the memory of the output, and leaves
    the rest of the object as [__init__] made it.  [in_use f0 f] holds for
    every such state [f], whatever the arrays and the numbers are. *)
Definition in_use (f0 f : Compilation.CompiledFunction) : Prop :=
  Compilation.sparse f = Compilation.sparse f0 /\
  Compilation.symbol_parameters f = Compilation.symbol_parameters f0 /\
  Compilation.compiled_casadi_function f = Compilation.compiled_casadi_function f0 /\
  Compilation.constant f = Compilation.constant f0 /\
  length (Compilation.function_buffer f) = length (Compilation.function_buffer f0) /\
  same_layout (Compilation.out f) (Compilation.out f0).

End Spec.

(** * Properties *)

Import Engine SpatialTypes Spec.

(** Inversion of a successful computation. *)
Ltac ok_inv :=
  repeat match goal with
    | H : Ok _ = Ok _ |- _ => inversion H; subst; clear H
    | H : Raise _ = Ok _ |- _ => discriminate H
    | H : bind ?m _ = Ok _ |- _ =>
        let E := fresh "E" in destruct m eqn:E; cbn [bind] in H; [| discriminate H]
    end.

Section Accessors.

(** ** The axis accessors of a rotation matrix *)

Lemma axis_accessors_equal (R : RotationMatrix) :
  RotationMatrix_x_vector R = RotationMatrix_y_vector R /\
  RotationMatrix_y_vector R = RotationMatrix_z_vector R.
Proof. split; reflexivity. Qed.

(** C9: [x_vector], [y_vector] and [z_vector] return the same value, the
    Vector3 made of the first three entries of the fourth column and a
    homogeneous component 0; when the last column is (0,0,0,1) this is the
    zero vector. *)
Theorem axis_accessors_return_fourth_column
  (R : RotationMatrix)
  (m00 m01 m02 m03 m10 m11 m12 m13 m20 m21 m22 m23 m30 m31 m32 m33 : sx)
  (H : RotationMatrix_s R =
       matrix4 m00 m01 m02 m03 m10 m11 m12 m13 m20 m21 m22 m23 m30 m31 m32 m33) :
  let fourth_column :=
    mkVector3 (column [m03; m13; m23; Const 0])
      (RotationMatrix_reference_frame R) (RotationMatrix_reference_frame R) in
  RotationMatrix_x_vector R = Ok fourth_column /\
  RotationMatrix_y_vector R = Ok fourth_column /\
  RotationMatrix_z_vector R = Ok fourth_column /\
  ((m03, m13, m23, m33) = (Const 0, Const 0, Const 0, Const 1) ->
   RotationMatrix_x_vector R
   = Ok (mkVector3 (column [Const 0; Const 0; Const 0; Const 0])
           (RotationMatrix_reference_frame R) (RotationMatrix_reference_frame R))).
Proof.
  destruct R as [s rf cf]; cbn in H; subst s; cbn.
  repeat split.
  intros E; inversion E; reflexivity.
Qed.

Lemma axis_accessors_return_fourth_column_witness :
  RotationMatrix___init__ PyNone None None true =
    Ok (mkRotationMatrix SX_eye4 None None) /\
  RotationMatrix_x_vector (mkRotationMatrix SX_eye4 None None) =
    Ok (mkVector3 (column [Const 0; Const 0; Const 0; Const 0]) None None).
Proof.
  split; [reflexivity |].
  apply (axis_accessors_return_fourth_column (mkRotationMatrix SX_eye4 None None)
           (Const 1) (Const 0) (Const 0) (Const 0)
           (Const 0) (Const 1) (Const 0) (Const 0)
           (Const 0) (Const 0) (Const 1) (Const 0)
           (Const 0) (Const 0) (Const 0) (Const 1)).
  all: reflexivity.
Defined.

(** A matrix that went through the check of [RotationMatrix.__init__] has
    the last column (0,0,0,1): its three accessors return the zero
    vector. *)
Lemma axis_accessors_of_checked_matrix (s s' : SX) (rf cf : option Body) :
  RotationMatrix_sanity_check s = Ok s' ->
  RotationMatrix_x_vector (mkRotationMatrix s' rf cf)
  = Ok (mkVector3 (column [Const 0; Const 0; Const 0; Const 0]) rf rf).
Proof.
  destruct s as [r c l]. unfold RotationMatrix_sanity_check. cbn [size1 size2].
  destruct (Nat.eqb_spec r 4) as [-> | Hr]; [| discriminate].
  destruct (Nat.eqb_spec c 4) as [-> | Hc]; [| discriminate].
  cbn [negb orb].
  do 16 (destruct l as [| ? l]; [discriminate |]).
  cbn. intros H; injection H as <-. reflexivity.
Qed.

End Accessors.

Section HomogeneousCoordinates.

(** ** The homogeneous coordinate of points and vectors *)

Lemma setitem_column4 (a b c d : sx) (i : nat) (value : pyobj) (s' : SX) :
  setitem (mkMatrix 4 1 [a; b; c; d]) i value = Ok s' ->
  exists e,
    s' = match i with
         | 0 => mkMatrix 4 1 [e; b; c; d]
         | 1 => mkMatrix 4 1 [a; e; c; d]
         | 2 => mkMatrix 4 1 [a; b; e; d]
         | _ => mkMatrix 4 1 [a; b; c; e]
         end%nat.
Proof.
  unfold setitem, set_lin; intros H; ok_inv.
  destruct (entries a0) as [| e [| ? ?]]; try discriminate H.
  destruct (is_scalar a0); try discriminate H.
  exists e.
  destruct i as [| [| [| [| i]]]]; cbn in H; ok_inv; reflexivity.
Qed.

Lemma setitem_3_num (a b c d : sx) (h : R) :
  setitem (mkMatrix 4 1 [a; b; c; d]) 3 (PyNum h) = Ok (mkMatrix 4 1 [a; b; c; Const h]).
Proof. reflexivity. Qed.

Lemma Point3_init_homogeneous data rf p :
  Point3___init__ data rf = Ok p -> homogeneous (Point3_s p) 1.
Proof.
  unfold Point3___init__, SX_0001, column; cbn [length].
  intros H.
  assert (G : forall d0 d1 d2 f,
             (let* s := setitem (mkMatrix 4 1 [Const 0; Const 0; Const 0; Const 1]) 0 d0 in
              let* d1' := d1 in
              let* s := setitem s 1 d1' in
              let* d2' := d2 in
              let* s := setitem s 2 d2' in
              Ok (mkPoint3 s f)) = Ok p -> homogeneous (Point3_s p) 1).
  { clear; intros d0 d1 d2 f H; ok_inv.
    apply setitem_column4 in E as [e0 ->].
    apply setitem_column4 in E1 as [e1 ->].
    apply setitem_column4 in E3 as [e2 ->].
    cbn; exists e0, e1, e2; reflexivity. }
  destruct data; cbn [bind] in H;
    try (ok_inv; cbn; exists (Const 0), (Const 0), (Const 0); reflexivity);
    match type of H with
    | bind ?m _ = _ => destruct m eqn:E0; cbn [bind] in H; [| discriminate H]
    end; eapply G; exact H.
Qed.

Lemma Vector3_init_homogeneous data rf v :
  Vector3___init__ data rf = Ok v -> homogeneous (Vector3_s v) 0.
Proof.
  unfold Vector3___init__; intros H; ok_inv.
  apply Point3_init_homogeneous in E as (x & y & z & Hs).
  rewrite Hs in E0. rewrite setitem_3_num in E0. ok_inv.
  cbn; exists x, y, z; reflexivity.
Qed.

Lemma new_Point3_invariant s r : new_Point3 s = Ok r -> invariant r.
Proof.
  unfold new_Point3; intros H; ok_inv.
  cbn; eapply Point3_init_homogeneous; eassumption.
Qed.

Lemma new_Vector3_invariant s r : new_Vector3 s = Ok r -> invariant r.
Proof.
  unfold new_Vector3; intros H; ok_inv.
  cbn; eapply Vector3_init_homogeneous; eassumption.
Qed.

Lemma set_reference_frame_invariant r rf :
  invariant r -> invariant (set_reference_frame r rf).
Proof. destruct r; cbn; auto. Qed.

(** Every result of a method is built by a constructor, and the frame that
    is stored afterwards leaves the coordinates alone. *)
Ltac method_invariant :=
  intros; ok_inv;
  repeat match goal with
    | H : match ?x with _ => _ end = Ok _ |- _ =>
        destruct x eqn:?; try discriminate H; ok_inv
    end;
  try (apply set_reference_frame_invariant);
  solve [ exact I
        | eapply new_Point3_invariant; eassumption
        | eapply new_Vector3_invariant; eassumption ].

Lemma Symbol_arith_invariant o self other r :
  Symbol_arith o self other = Ok r -> invariant r.
Proof. unfold Symbol_arith; method_invariant. Qed.

Lemma Symbol_rarith_invariant o self other r :
  Symbol_rarith o self other = Ok r -> invariant r.
Proof. unfold Symbol_rarith; method_invariant. Qed.

Lemma Expression_arith_invariant o self other r :
  Expression_arith o self other = Ok r -> invariant r.
Proof. unfold Expression_arith; method_invariant. Qed.

Lemma Expression_rarith_invariant o self other r :
  Expression_rarith o self other = Ok r -> invariant r.
Proof. unfold Expression_rarith; method_invariant. Qed.

Create HintDb methods.
#[local] Hint Unfold
  Point3___add__ Point3___sub__ Point3___mul__ Point3___truediv__ Point3___pow__
  Point3___radd__ Point3___rsub__ Point3___rmul__ Point3___rtruediv__ Point3___rpow__
  Vector3___add__ Vector3___sub__ Vector3___mul__ Vector3___truediv__ Vector3___pow__
  Vector3___radd__ Vector3___rsub__ Vector3___rmul__ Vector3___rtruediv__ Vector3___rpow__
  Symbol___add__ Symbol___sub__ Symbol___mul__ Symbol___truediv__ Symbol___pow__
  Symbol___radd__ Symbol___rsub__ Symbol___rmul__ Symbol___rtruediv__ Symbol___rpow__
  Expression___add__ Expression___sub__ Expression___mul__ Expression___truediv__
  Expression___pow__ Expression___radd__ Expression___rsub__ Expression___rmul__
  Expression___rtruediv__ Expression___rpow__ : methods.

Lemma method_invariant_ok o self other r :
  method o self other = Some (Ok r) -> invariant r.
Proof.
  unfold method; intros Hm.
  destruct self, o; try discriminate Hm;
    injection Hm as Hm; revert Hm;
    first [ apply Symbol_arith_invariant
          | apply Expression_arith_invariant
          | autounfold with methods; method_invariant ].
Qed.

Lemma reflected_invariant_ok o self other r :
  reflected o self other = Some (Ok r) -> invariant r.
Proof.
  unfold reflected; intros Hm.
  destruct self, o; try discriminate Hm;
    injection Hm as Hm; revert Hm;
    first [ apply Symbol_rarith_invariant
          | apply Expression_rarith_invariant
          | autounfold with methods; method_invariant ].
Qed.

Lemma py_binop_invariant o a b r : py_binop o a b = Ok r -> invariant r.
Proof.
  unfold py_binop; intros H.
  destruct (method o a b) eqn:Hm.
  { subst r0; eapply method_invariant_ok; eassumption. }
  destruct (reflected o b a) eqn:Hr.
  { subst r0; eapply reflected_invariant_ok; eassumption. }
  unfold number_op in H.
  destruct a, b; try discriminate H; ok_inv;
    try exact I;
    destruct (eval_binop _ _ _); ok_inv; exact I.
Qed.

Lemma py_neg_invariant a r : py_neg a = Ok r -> invariant r.
Proof.
  unfold py_neg, Symbol___neg__, Expression___neg__, Point3___neg__, Vector3___neg__.
  destruct a; method_invariant.
Qed.

(** C3: every value produced by a constructor of Point3 or Vector3 or by an
    arithmetic operation satisfies the invariant: the fourth component of a
    point is the constant 1, that of a vector the constant 0. *)
Theorem homogeneous_coordinate_invariant (o : pyobj) :
  produced o -> invariant o.
Proof.
  intros [data rf p H | x y z rf p H | data rf v H | x y z rf v H
         | op a b r H | a r H].
  - cbn; eapply Point3_init_homogeneous; exact H.
  - cbn; eapply Point3_init_homogeneous; exact H.
  - cbn; eapply Vector3_init_homogeneous; exact H.
  - cbn; eapply Vector3_init_homogeneous; exact H.
  - eapply py_binop_invariant; exact H.
  - eapply py_neg_invariant; exact H.
Qed.

Lemma homogeneous_coordinate_invariant_witness :
  let p := mkPoint3 (column [Const 1; Const 2; Const 3; Const 1]) None in
  let r := PyPoint3 (mkPoint3 (column [Bin OpAdd (Const 1) (Const 5);
                                        Bin OpAdd (Const 2) (Const 5);
                                        Bin OpAdd (Const 3) (Const 5);
                                        Const 1]) None) in
  py_binop Add (PyPoint3 p) (PyNum 5) = Ok r /\ invariant r.
Proof.
  split; [reflexivity |].
  apply homogeneous_coordinate_invariant.
  apply (by_operator Add
           (PyPoint3 (mkPoint3 (column [Const 1; Const 2; Const 3; Const 1]) None))
           (PyNum 5)).
  reflexivity.
Defined.

End HomogeneousCoordinates.

Section Dispatch.

(** ** The point and vector rows of the dispatch table *)

Lemma add_comm_value rho a b :
  eval rho (Bin OpAdd a b) = eval rho (Bin OpAdd b a).
Proof.
  cbn; destruct (eval rho a), (eval rho b); cbn; try reflexivity.
  f_equal; lra.
Qed.

Lemma mul_comm_value rho a b :
  eval rho (Bin OpMul a b) = eval rho (Bin OpMul b a).
Proof.
  cbn; destruct (eval rho a), (eval rho b); cbn; try reflexivity.
  f_equal; lra.
Qed.

Ltac dispatch_case :=
  cbn; repeat (split; [reflexivity |]); repeat split; intros rho;
  first [ reflexivity | apply add_comm_value | apply mul_comm_value ].

Lemma scalar_left_of_point (o : operator) (c : scalar_operand) px py pz rf :
  exists x y z rf',
    py_binop o (operand c) (PyPoint3 (point px py pz rf)) = Ok (PyPoint3 (point x y z rf')) /\
    same_value x o (entry c) px /\ same_value y o (entry c) py /\
    same_value z o (entry c) pz.
Proof. destruct o, c; do 4 eexists; dispatch_case. Qed.

Lemma scalar_right_of_point (o : operator) (c : scalar_operand) px py pz rf :
  exists x y z,
    py_binop o (PyPoint3 (point px py pz rf)) (operand c) = Ok (PyPoint3 (point x y z rf)) /\
    same_value x o px (entry c) /\ same_value y o py (entry c) /\
    same_value z o pz (entry c).
Proof. destruct o, c; do 3 eexists; dispatch_case. Qed.

Lemma scalar_left_of_vector (o : operator) (c : scalar_operand) vx vy vz rf vis :
  exists x y z rf',
    py_binop o (operand c) (PyVector3 (vector vx vy vz rf vis))
      = Ok (PyVector3 (vector x y z rf' None)) /\
    same_value x o (entry c) vx /\ same_value y o (entry c) vy /\
    same_value z o (entry c) vz.
Proof. destruct o, c; do 4 eexists; dispatch_case. Qed.

Lemma scalar_right_of_vector (o : operator) (c : scalar_operand) vx vy vz rf vis :
  exists x y z,
    py_binop o (PyVector3 (vector vx vy vz rf vis)) (operand c)
      = Ok (PyVector3 (vector x y z rf None)) /\
    same_value x o vx (entry c) /\ same_value y o vy (entry c) /\
    same_value z o vz (entry c).
Proof. destruct o, c; do 3 eexists; dispatch_case. Qed.

(** C4: a point plus a vector is a point, the difference of two points is a
    vector, the sum and the product of two points are type errors, and a
    scalar combined with a point or a vector gives the type of the point or
    vector operand, component by component. *)
Theorem point_vector_dispatch
  (px py pz qx qy qz vx vy vz : sx) (rf rfq rfv vis : option Body)
  (c : scalar_operand) (o : operator) :
  let p := PyPoint3 (point px py pz rf) in
  let q := PyPoint3 (point qx qy qz rfq) in
  let v := PyVector3 (vector vx vy vz rfv vis) in
  py_binop Add p v =
    Ok (PyPoint3 (point (Bin OpAdd px vx) (Bin OpAdd py vy) (Bin OpAdd pz vz) rf)) /\
  py_binop Sub p q =
    Ok (PyVector3 (vector (Bin OpSub px qx) (Bin OpSub py qy) (Bin OpSub pz qz) rf None)) /\
  py_binop Add p q = Raise TypeError /\
  py_binop Mul p q = Raise TypeError /\
  (exists x y z rf',
     py_binop o (operand c) p = Ok (PyPoint3 (point x y z rf')) /\
     same_value x o (entry c) px /\ same_value y o (entry c) py /\
     same_value z o (entry c) pz) /\
  (exists x y z,
     py_binop o p (operand c) = Ok (PyPoint3 (point x y z rf)) /\
     same_value x o px (entry c) /\ same_value y o py (entry c) /\
     same_value z o pz (entry c)) /\
  (exists x y z rf',
     py_binop o (operand c) v = Ok (PyVector3 (vector x y z rf' None)) /\
     same_value x o (entry c) vx /\ same_value y o (entry c) vy /\
     same_value z o (entry c) vz) /\
  (exists x y z,
     py_binop o v (operand c) = Ok (PyVector3 (vector x y z rfv None)) /\
     same_value x o vx (entry c) /\ same_value y o vy (entry c) /\
     same_value z o vz (entry c)).
Proof.
  cbv zeta.
  split; [reflexivity |].
  split; [reflexivity |].
  split; [reflexivity |].
  split; [reflexivity |].
  split; [apply scalar_left_of_point |].
  split; [apply scalar_right_of_point |].
  split; [apply scalar_left_of_vector |].
  apply scalar_right_of_vector.
Qed.

End Dispatch.

Section Conditionals.

Lemma Rzero_truth b : Rzero (truth b) = negb b.
Proof.
  unfold Rzero, truth; destruct b; destruct (Req_dec_T _ 0); try reflexivity; lra.
Qed.

(** ** The type rule of [if_else] *)

(** C6, as stated, fails: with an Expression as first branch and a Point3
    as second branch the call returns an Expression. *)
Lemma if_else_accepts_geometric_else_branch :
  let a := PyExpression (SX_num 2) in
  let b := PyPoint3 (mkPoint3 SX_0001 None) in
  (is_frame_carrying a || is_frame_carrying b = true) /\
  type a <> type b /\
  if_else (PyNum 1) a b =
    Ok (PyExpression (column [IfElse (Const 1) (Const 2) (Const 0);
                              IfElse (Const 1) (Const 2) (Const 0);
                              IfElse (Const 1) (Const 2) (Const 0);
                              IfElse (Const 1) (Const 2) (Const 1)])) /\
  ~ raises (if_else (PyNum 1) a b).
Proof.
  cbv zeta; repeat split; try reflexivity.
  - discriminate.
  - intros [e H]; discriminate H.
Qed.

Lemma pytype_eqb_eq a b : pytype_eqb a b = true <-> a = b.
Proof. split; [destruct a, b; (reflexivity || discriminate) | intros ->; destruct b; reflexivity]. Qed.

Lemma frame_carrying_not_Number a : is_frame_carrying a = true -> type a <> Number /\ type a <> ExpressionType.
Proof. destruct a; (discriminate || (split; discriminate)). Qed.

(** C6, amended: when the first branch is a frame-carrying geometric type
    and the concrete type of the second branch differs, the call raises. *)
Theorem if_else_rejects_differing_types (condition a b : pyobj) :
  is_frame_carrying a = true -> type a <> type b ->
  raises (if_else condition a b).
Proof.
  intros Ha Hab. unfold if_else, raises.
  destruct (Expression___init__ condition) as [cs | e]; cbn [bind];
    [| eexists; reflexivity].
  assert (Ea : match a with PyNum _ => Expression a | _ => Ok a end = Ok a)
    by (destruct a; (discriminate Ha || reflexivity)).
  rewrite Ea; cbn [bind].
  assert (Eb : exists b', match b with PyNum _ => Expression b | _ => Ok b end = Ok b'
                          /\ type a <> type b').
  { destruct b; try (eexists; split; [reflexivity | exact Hab]).
    eexists; split; [reflexivity |].
    apply frame_carrying_not_Number in Ha; cbn; tauto. }
  destruct Eb as (b' & -> & Hb'); cbn [bind].
  rewrite Ha; cbn [andb].
  destruct (pytype_eqb (type a) (type b')) eqn:E.
  - apply pytype_eqb_eq in E; contradiction.
  - cbn; eexists; reflexivity.
Qed.

Lemma if_else_rejects_differing_types_witness :
  let a := PyPoint3 (mkPoint3 SX_0001 None) in
  let b := PyVector3 (mkVector3 (column [Const 0; Const 0; Const 0; Const 0]) None None) in
  is_frame_carrying a = true /\ type a <> type b /\ raises (if_else (PyNum 1) a b).
Proof.
  cbv zeta. split; [reflexivity |]. split; [discriminate |].
  apply if_else_rejects_differing_types; [reflexivity | discriminate].
Defined.

(** ** Case tables *)

(** The expression that [if_eq_cases] builds: the ternaries are nested from
    the first case to the last. *)
Lemma if_eq_cases_tree (a : scalar_operand)
  (cases : list (scalar_operand * scalar_operand)) (d : scalar_operand) :
  if_eq_cases (operand a) (operands cases) (operand d)
  = Ok (PyExpression (scalar (case_tree OpEq (entry a) (case_entries cases) (entry d)))).
Proof.
  unfold if_eq_cases, case_tree.
  match goal with |- context [for_each _ ?f _] => set (step := f) end.
  assert (Hstep : forall acc k r,
             step (PySX (scalar acc)) (operand k, operand r)
             = Ok (PySX (scalar (IfElse (Bin OpEq (entry a) (entry k)) (entry r) acc)))).
  { intros acc k r. subst step. cbv beta iota zeta.
    assert (Ea : as_SX (_to_sx (operand a)) = Ok (scalar (entry a)))
      by (destruct a; reflexivity).
    assert (Ek : as_SX (_to_sx (operand k)) = Ok (scalar (entry k)))
      by (destruct k; reflexivity).
    assert (Er : as_SX (_to_sx (operand r)) = Ok (scalar (entry r)))
      by (destruct r; reflexivity).
    rewrite Ea, Ek, Er. reflexivity. }
  assert (G : forall cs acc,
             for_each (operands cs) step (PySX (scalar acc))
             = Ok (PySX (scalar (fold_left
                                   (fun acc '(k, r) => IfElse (Bin OpEq (entry a) k) r acc)
                                   (case_entries cs) acc)))).
  { clearbody step.
    induction cs as [| [k r] cs IH]; intros acc; [reflexivity |].
    cbn [operands case_entries map for_each fold_left].
    rewrite Hstep. cbn [bind]. apply IH. }
  destruct cases as [| [k r] cases].
  - destruct d; reflexivity.
  - cbn [operands map for_each].
    assert (E0 : step (_to_sx (operand d)) (operand k, operand r)
                 = step (PySX (scalar (entry d))) (operand k, operand r)).
    { subst step. cbv beta iota zeta. destruct d; reflexivity. }
    rewrite E0, Hstep. cbn [bind].
    fold (operands cases). rewrite G. reflexivity.
Qed.

(** Its value: the last pair whose key has the value of the scrutinee
    decides. *)
Lemma case_tree_value rho (test : R -> R -> bool) (op : binop) (a : sx) (va : R) :
  (forall x y, eval_binop op x y = Some (truth (test x y))) ->
  eval rho a = Some va ->
  forall (cases : list (sx * sx)) (values : list (R * R)) (d : sx) (vd : R),
    case_values rho cases values ->
    eval rho d = Some vd ->
    eval rho (case_tree op a cases d) = Some (last_match (test va) values vd).
Proof.
  intros Hop Ha. unfold case_tree, last_match.
  induction cases as [| [k r] cases IH]; intros values d vd Hv Hd;
    unfold case_values in Hv; inversion Hv as [| ? [vk vr] ? values' Hkr Hv']; subst.
  - exact Hd.
  - destruct Hkr as [Hk Hr].
    cbn [fold_left]. apply IH; [exact Hv' |].
    cbn [eval]. rewrite Ha, Hk. cbn [obind]. rewrite Hop. cbn [obind].
    rewrite Rzero_truth. destruct (test va vk); cbn [negb]; assumption.
Qed.

(** C7 fails on the code: [if_eq_cases] folds the cases from the first to
    the last, so that the last pair whose key equals the scrutinee decides.
    With the cases (1, 10), (1, 20), the default 0 and the scrutinee [a]
    bound to 1, the result is 20 and not 10. *)
Theorem if_eq_cases_last_match_decides :
  let cases := [(PyNum 1, PyNum 10); (PyNum 1, PyNum 20)] in
  let e := IfElse (Bin OpEq (Sym "a") (Const 1)) (Const 20)
             (IfElse (Bin OpEq (Sym "a") (Const 1)) (Const 10) (Const 0)) in
  if_eq_cases (PySymbol "a") cases (PyNum 0) = Ok (PyExpression (scalar e)) /\
  eval (binding_a 1) e = Some 20 /\
  eval (binding_a 1) e <> Some 10.
Proof.
  cbv zeta. split; [reflexivity |].
  assert (E : eval (binding_a 1)
                (IfElse (Bin OpEq (Sym "a") (Const 1)) (Const 20)
                   (IfElse (Bin OpEq (Sym "a") (Const 1)) (Const 10) (Const 0)))
              = Some 20).
  { cbn. unfold Req_b, Rzero, truth.
    destruct (Req_dec_T 1 1) as [_ | N]; [| lra].
    destruct (Req_dec_T 1 0) as [N | _]; [lra |]. reflexivity. }
  split; [exact E |].
  rewrite E. intros H; injection H as H; lra.
Qed.

(** The sibling [if_less_eq_cases] walks the cases from the last to the
    first, so that there the first matching pair decides. *)
Lemma if_less_eq_cases_first_match_decides :
  let cases := [(PyNum 1, PyNum 10); (PyNum 1, PyNum 20)] in
  let e := IfElse (Bin OpLe (Sym "a") (Const 1)) (Const 10)
             (IfElse (Bin OpLe (Sym "a") (Const 1)) (Const 20) (Const 0)) in
  if_less_eq_cases (PySymbol "a") cases (PyNum 0) = Ok (PyExpression (scalar e)) /\
  eval (binding_a 1) e = Some 10.
Proof.
  cbv zeta. split; [reflexivity |].
  cbn. unfold Rle_b, Rzero, truth.
  destruct (Rle_dec 1 1) as [_ | N]; [| lra].
  destruct (Req_dec_T 1 0) as [N | _]; [lra |]. reflexivity.
Qed.

End Conditionals.

Section ThreeValuedLogic.

(** ** Three-valued logic *)

Lemma eval_no_binding rho e v :
  eval no_binding e = Some v -> eval rho e = Some v.
Proof.
  revert v; induction e as [c | n | o a IHa | o a IHa b IHb | c IHc a IHa b IHb];
    intros v; cbn [eval].
  - auto.
  - discriminate.
  - destruct (eval no_binding a) as [x |]; [| discriminate].
    rewrite (IHa x eq_refl); auto.
  - destruct (eval no_binding a) as [x |]; [| discriminate].
    rewrite (IHa x eq_refl); cbn [obind].
    destruct (eval no_binding b) as [y |]; [| discriminate].
    rewrite (IHb y eq_refl); auto.
  - destruct (eval no_binding c) as [x |]; [| discriminate].
    rewrite (IHc x eq_refl); cbn [obind].
    destruct (Rzero x); auto.
Qed.

Lemma value_entry rho c : value rho (operand c) = eval rho (entry c).
Proof. destruct c; reflexivity. Qed.

Lemma Req_b_true x y : Req_b x y = true -> x = y.
Proof. unfold Req_b; destruct (Req_dec_T x y); [auto | discriminate]. Qed.

(** What the two constant tests find out about a scalar operand. *)
Lemma is_true_symbol_operand rho c v :
  value rho (operand c) = Some v ->
  exists b, is_true_symbol (operand c) = Ok b /\ (b = true -> v = 1).
Proof.
  intros Hv. destruct c as [k | n | e]; cbn in *.
  - injection Hv as ->. rewrite Rzero_truth, negb_involutive.
    eexists; split; [reflexivity |]. intros H; apply Req_b_true in H; lra.
  - eexists; split; [reflexivity | discriminate].
  - destruct (eval no_binding e) as [x |] eqn:E; cbn.
    + rewrite (eval_no_binding rho _ _ E) in Hv; injection Hv as ->.
      rewrite Rzero_truth, negb_involutive.
      eexists; split; [reflexivity |]. intros H; apply Req_b_true in H; lra.
    + eexists; split; [reflexivity | discriminate].
Qed.

Lemma is_false_symbol_operand rho c v :
  value rho (operand c) = Some v ->
  exists b, is_false_symbol (operand c) = Ok b /\ (b = true -> v = 0).
Proof.
  intros Hv. destruct c as [k | n | e]; cbn in *.
  - injection Hv as ->. rewrite Rzero_truth, negb_involutive.
    eexists; split; [reflexivity |]. intros H; apply Req_b_true in H; lra.
  - eexists; split; [reflexivity | discriminate].
  - destruct (eval no_binding e) as [x |] eqn:E; cbn.
    + rewrite (eval_no_binding rho _ _ E) in Hv; injection Hv as ->.
      rewrite Rzero_truth, negb_involutive.
      eexists; split; [reflexivity |]. intros H; apply Req_b_true in H; lra.
    + eexists; split; [reflexivity | discriminate].
Qed.

Lemma min_operands rho x y vx vy :
  value rho (operand x) = Some vx -> value rho (operand y) = Some vy ->
  exists r, min (_to_sx (operand x)) (_to_sx (operand y)) = Ok r /\
            value rho r = Some (Rmin vx vy).
Proof.
  rewrite !value_entry; intros Hx Hy.
  exists (PyExpression (scalar (Bin OpFmin (entry x) (entry y)))).
  split; [destruct x, y; reflexivity |].
  cbn. rewrite Hx, Hy. reflexivity.
Qed.

Lemma max_operands rho x y vx vy :
  value rho (operand x) = Some vx -> value rho (operand y) = Some vy ->
  exists r, max (_to_sx (operand x)) (_to_sx (operand y)) = Ok r /\
            value rho r = Some (Rmax vx vy).
Proof.
  rewrite !value_entry; intros Hx Hy.
  exists (PyExpression (scalar (Bin OpFmax (entry x) (entry y)))).
  split; [destruct x, y; reflexivity |].
  cbn. rewrite Hx, Hy. reflexivity.
Qed.

Lemma trinary_bounds v : trinary v -> 0 <= v <= 1.
Proof. unfold trinary, TrinaryFalse, TrinaryUnknown, TrinaryTrue; intros [-> | [-> | ->]]; lra. Qed.

Lemma logic_and3_operands rho x y vx vy :
  value rho (operand x) = Some vx -> value rho (operand y) = Some vy ->
  trinary vx -> trinary vy ->
  exists r, logic_and3 [operand x; operand y] = Ok r /\
            value rho r = Some (Rmin vx vy).
Proof.
  intros Hx Hy Tx Ty.
  apply trinary_bounds in Tx, Ty.
  destruct (is_false_symbol_operand rho x vx Hx) as (fx & Efx & Hfx).
  destruct (is_false_symbol_operand rho y vy Hy) as (fy & Efy & Hfy).
  destruct (is_true_symbol_operand rho x vx Hx) as (tx & Etx & Htx).
  destruct (is_true_symbol_operand rho y vy Hy) as (ty & Ety & Hty).
  unfold logic_and3; cbn [length logic_and3_rec Nat.ltb Nat.leb rfilter].
  rewrite Efx, Efy; cbn [bind].
  assert (Z0 : value rho (PyNum TrinaryFalse) = Some 0) by reflexivity.
  destruct fx.
  { eexists; split; [destruct fy; reflexivity |].
    rewrite Z0, (Hfx eq_refl), Rmin_left; [reflexivity | lra]. }
  destruct fy.
  { eexists; split; [reflexivity |].
    rewrite Z0, (Hfy eq_refl), Rmin_right; [reflexivity | lra]. }
  unfold is_not_true_symbol. rewrite Etx, Ety; cbn [bind negb].
  destruct tx, ty; cbn [negb].
  - eexists; split; [reflexivity |].
    rewrite (Htx eq_refl), (Hty eq_refl), Rmin_left; [reflexivity | lra].
  - eexists; split; [reflexivity |].
    rewrite Hy, (Htx eq_refl), Rmin_right; [reflexivity | lra].
  - eexists; split; [reflexivity |].
    rewrite Hx, (Hty eq_refl), Rmin_left; [reflexivity | lra].
  - apply min_operands; assumption.
Qed.

Lemma logic_not3_operand rho x vx :
  value rho (operand x) = Some vx ->
  exists r, logic_not3 (operand x) = Ok r /\ value rho r = Some (1 - vx).
Proof.
  intros Hx. destruct x as [k | n | e]; cbn in *.
  - injection Hx as ->. eexists; split; reflexivity.
  - eexists; split; [reflexivity |]. cbn. rewrite Hx. reflexivity.
  - eexists; split; [reflexivity |]. cbn. rewrite Hx. reflexivity.
Qed.

(** C8: on operands whose values are trinary, [logic_and3] evaluates to
    the minimum, [logic_or3] to the maximum and [logic_not3] to one minus
    the operand; true and unknown give unknown, false or unknown gives
    unknown. *)
Theorem three_valued_logic rho (x y : scalar_operand) (vx vy : R) :
  value rho (operand x) = Some vx -> value rho (operand y) = Some vy ->
  trinary vx -> trinary vy ->
  (exists r, logic_and3 [operand x; operand y] = Ok r /\
             value rho r = Some (Rmin vx vy)) /\
  (exists r, logic_or3 (operand x) (operand y) = Ok r /\
             value rho r = Some (Rmax vx vy)) /\
  (exists r, logic_not3 (operand x) = Ok r /\ value rho r = Some (1 - vx)) /\
  (exists r, logic_and3 [PyNum TrinaryTrue; PyNum TrinaryUnknown] = Ok r /\
             value rho r = Some TrinaryUnknown) /\
  (exists r, logic_or3 (PyNum TrinaryFalse) (PyNum TrinaryUnknown) = Ok r /\
             value rho r = Some TrinaryUnknown).
Proof.
  intros Hx Hy Tx Ty.
  split; [apply logic_and3_operands; assumption |].
  split; [apply max_operands; assumption |].
  split; [apply logic_not3_operand; assumption |].
  split.
  - destruct (logic_and3_operands rho (Num TrinaryTrue) (Num TrinaryUnknown)
                TrinaryTrue TrinaryUnknown eq_refl eq_refl) as (r & Hr & Hv).
    { right; right; reflexivity. }
    { right; left; reflexivity. }
    exists r; split; [exact Hr |].
    rewrite Hv; f_equal. unfold TrinaryTrue, TrinaryUnknown.
    apply Rmin_right; lra.
  - destruct (max_operands rho (Num TrinaryFalse) (Num TrinaryUnknown)
                TrinaryFalse TrinaryUnknown eq_refl eq_refl) as (r & Hr & Hv).
    exists r; split; [exact Hr |].
    rewrite Hv; f_equal. unfold TrinaryFalse, TrinaryUnknown.
    apply Rmax_right; lra.
Qed.

Lemma three_valued_logic_witness :
  trinary TrinaryTrue /\ trinary TrinaryUnknown /\
  exists r, logic_and3 [PyNum TrinaryTrue; PyNum TrinaryUnknown] = Ok r /\
            value no_binding r = Some (Rmin TrinaryTrue TrinaryUnknown).
Proof.
  assert (T1 : trinary TrinaryTrue) by (right; right; reflexivity).
  assert (Tu : trinary TrinaryUnknown) by (right; left; reflexivity).
  split; [exact T1 |]. split; [exact Tu |].
  apply (three_valued_logic no_binding (Num TrinaryTrue) (Num TrinaryUnknown)
           TrinaryTrue TrinaryUnknown eq_refl eq_refl T1 Tu).
Defined.

End ThreeValuedLogic.

Section RoundTrip.

(** ** Quaternion to rotation matrix and back *)

Lemma Rlt_b_true a b : a < b -> Rlt_b a b = true.
Proof. unfold Rlt_b; destruct (Rlt_dec a b); tauto. Qed.

Lemma Rlt_b_false a b : ~ a < b -> Rlt_b a b = false.
Proof. unfold Rlt_b; destruct (Rlt_dec a b); tauto. Qed.

Lemma Rzero_false a : a <> 0 -> Rzero a = false.
Proof. unfold Rzero; destruct (Req_dec_T a 0); tauto. Qed.

(** The factor [0.5 / sqrt(t)] when [t] is the square of [2 a], [a > 0]:
    the root is defined and the division is by a number that is not 0. *)
Lemma half_over_sqrt (t a h : R) :
  t = (2 * a) * (2 * a) -> 0 < a -> h = 1 / 2 ->
  (let? y0 := (if Rlt_b t 0 then None else Some (R_sqrt.sqrt t)) in
   if Rzero y0 then None else Some (h / y0)) = Some (/ (4 * a)).
Proof.
  intros -> Ha ->.
  rewrite Rlt_b_false by nra.
  rewrite sqrt_square by lra. cbn [obind].
  rewrite Rzero_false by lra.
  f_equal. field. lra.
Qed.

Lemma times_inv_eq (n a r : R) :
  a <> 0 -> n = r * (4 * a) -> n * / (4 * a) = r.
Proof. intros Ha ->. field. exact Ha. Qed.

(** Settle a test [0 < c] of the expression from the facts at hand. *)
Ltac decide_cond :=
  match goal with
  | |- context [Rlt_b 0 ?c] =>
      first [ rewrite (Rlt_b_true 0 c) by lra | rewrite (Rlt_b_false 0 c) by lra ]
  end; cbn [negb obind]; rewrite ?Rzero_truth; cbn [negb obind].

Variables (rho : string -> option R) (qx qy qz qw : sx) (x y z w : R).
Hypothesis Hx : eval rho qx = Some x.
Hypothesis Hy : eval rho qy = Some y.
Hypothesis Hz : eval rho qz = Some z.
Hypothesis Hw : eval rho qw = Some w.
Hypothesis unit_norm : x * x + y * y + z * z + w * w = 1.

(** One component of the result, in the branch whose pivot is [a > 0]. *)
Ltac component a :=
  cbn [eval obind eval_binop eval_unop];
  rewrite ?Hx, ?Hy, ?Hz, ?Hw;
  cbn [eval obind eval_binop eval_unop];
  rewrite !Rzero_truth;
  repeat decide_cond;
  erewrite (half_over_sqrt _ a) by lra;
  cbn [obind]; f_equal; apply times_inv_eq; lra.

(** The branch of the component [a], which is not 0: the result is the
    quaternion itself when [a > 0] and its opposite when [a < 0]. *)
Ltac branch a :=
  destruct (Rtotal_order a 0) as [N | [Z | P]];
  [ exists (-1); split; [right; reflexivity |]; repeat split; component (- a)
  | exfalso; rewrite Z in *; lra
  | exists 1; split; [left; reflexivity |]; repeat split; component a ].

(** C2: for a quaternion whose components have the values x, y, z, w of
    norm one, the quaternion extracted from its rotation matrix is defined
    and has the values of q or of -q. *)
Theorem quaternion_round_trip (rf : option Body) :
  exists q' e0 e1 e2 e3,
    (let* r := RotationMatrix_from_quaternion
                 (mkQuaternion (column [qx; qy; qz; qw]) rf) in
     RotationMatrix_to_quaternion r) = Ok q' /\
    Quaternion_s q' = column [e0; e1; e2; e3] /\
    exists sgn,
      (sgn = 1 \/ sgn = -1) /\
      eval rho e0 = Some (sgn * x) /\ eval rho e1 = Some (sgn * y) /\
      eval rho e2 = Some (sgn * z) /\ eval rho e3 = Some (sgn * w).
Proof.
  eexists. do 4 eexists. split.
  { cbv -[IZR]. reflexivity. }
  cbn [Quaternion_s]. unfold column. cbn [length].
  split; [reflexivity |].
  destruct (Rlt_dec 1 (4 * (w * w))) as [A | A]; [branch w |].
  destruct (Rlt_dec (x * x) (y * y)) as [B | B];
    destruct (Rlt_dec (y * y) (z * z)) as [C | C];
    destruct (Rlt_dec (x * x) (z * z)) as [D | D]; try lra.
  - branch z.
  - branch y.
  - branch y.
  - branch z.
  - branch x.
  - branch x.
Qed.

End RoundTrip.

Lemma quaternion_round_trip_witness :
  exists q' e0 e1 e2 e3,
    (let* r := RotationMatrix_from_quaternion
                 (mkQuaternion (column [Const (3 / 5); Const 0; Const 0; Const (4 / 5)])
                    None) in
     RotationMatrix_to_quaternion r) = Ok q' /\
    Quaternion_s q' = column [e0; e1; e2; e3] /\
    exists sgn,
      (sgn = 1 \/ sgn = -1) /\
      eval no_binding e0 = Some (sgn * (3 / 5)) /\ eval no_binding e1 = Some (sgn * 0) /\
      eval no_binding e2 = Some (sgn * 0) /\ eval no_binding e3 = Some (sgn * (4 / 5)).
Proof.
  apply (quaternion_round_trip no_binding
           (Const (3 / 5)) (Const 0) (Const 0) (Const (4 / 5))
           (3 / 5) 0 0 (4 / 5) eq_refl eq_refl eq_refl eq_refl).
  lra.
Defined.

Section Normalisation.

(** ** [to_axis_angle] normalises its receiver *)

(** A quotient is not its own numerator: the stored entry is replaced. *)
Lemma quotient_is_new (a : sx) : forall o b, Bin o a b <> a.
Proof.
  induction a as [c | n | o' a' IHa | o' a1 IH1 a2 IH2 | c IHc a1 IH1 a2 IH2];
    intros o b H; try discriminate H.
  injection H as _ H1 _. exact (IH1 _ _ H1).
Qed.

Lemma eval_div rho a b va vb :
  eval rho a = Some va -> eval rho b = Some vb -> vb <> 0 ->
  eval rho (Bin OpDiv a b) = Some (va / vb).
Proof.
  intros Ha Hb Hn. cbn [eval]. rewrite Ha, Hb. cbn.
  rewrite Rzero_false by exact Hn. reflexivity.
Qed.

(** The values of the components after the call, for a quaternion that is
    not zero. *)
Lemma normalized_values rho (qx qy qz qw : sx) (x y z w : R) :
  eval rho qx = Some x -> eval rho qy = Some y ->
  eval rho qz = Some z -> eval rho qw = Some w ->
  x * x + y * y + z * z + w * w <> 0 ->
  let n := R_sqrt.sqrt (x * x + y * y + z * z + w * w) in
  let norm_ := Un OpSqrt (sumsqr [qx; qy; qz; qw]) in
  eval rho (Bin OpDiv qx norm_) = Some (x / n) /\
  eval rho (Bin OpDiv qy norm_) = Some (y / n) /\
  eval rho (Bin OpDiv qz norm_) = Some (z / n) /\
  eval rho (Bin OpDiv qw norm_) = Some (w / n).
Proof.
  intros Hx Hy Hz Hw Hn. cbv zeta.
  assert (Hs : 0 < x * x + y * y + z * z + w * w) by nra.
  assert (En : eval rho (Un OpSqrt (sumsqr [qx; qy; qz; qw]))
               = Some (R_sqrt.sqrt (x * x + y * y + z * z + w * w))).
  { cbn. rewrite Hx, Hy, Hz, Hw. cbn.
    rewrite Rlt_b_false by lra.
    do 2 f_equal. lra. }
  assert (Hq : R_sqrt.sqrt (x * x + y * y + z * z + w * w) <> 0).
  { intros E. apply sqrt_eq_0 in E; lra. }
  repeat split; apply eval_div; assumption.
Qed.

(** Dividing four numbers by the root of the sum of their squares gives
    numbers whose squares add up to one. *)
Lemma normalized_is_unit (x y z w : R) :
  x * x + y * y + z * z + w * w <> 0 ->
  let n := R_sqrt.sqrt (x * x + y * y + z * z + w * w) in
  (x / n) * (x / n) + (y / n) * (y / n) + (z / n) * (z / n) + (w / n) * (w / n) = 1.
Proof.
  intros Hn. cbv zeta.
  assert (Hs : 0 < x * x + y * y + z * z + w * w) by nra.
  set (n := R_sqrt.sqrt (x * x + y * y + z * z + w * w)).
  assert (Hsq : n * n = x * x + y * y + z * z + w * w)
    by (apply sqrt_sqrt; lra).
  assert (Hq : n <> 0).
  { intros E. rewrite E in Hsq. lra. }
  replace (x / n * (x / n) + y / n * (y / n) + z / n * (z / n) + w / n * (w / n))
    with ((x * x + y * y + z * z + w * w) / (n * n)) by (field; exact Hq).
  rewrite Hsq. field. lra.
Qed.

(** C10: after [to_axis_angle] (and after [normalize], which it calls
    first) the receiver holds its four components divided by its norm, the
    root of the sum of their squares; its reference frame is unchanged.
    For a quaternion that is not zero the values of the stored components
    are those of the former ones divided by the norm of the values, so that
    their squares add up to one. *)
Theorem to_axis_angle_normalizes_receiver (qx qy qz qw : sx) (rf : option Body) :
  let self := mkQuaternion (column [qx; qy; qz; qw]) rf in
  let norm_ := Un OpSqrt (sumsqr [qx; qy; qz; qw]) in
  let normalized :=
    mkQuaternion (column [Bin OpDiv qx norm_; Bin OpDiv qy norm_;
                          Bin OpDiv qz norm_; Bin OpDiv qw norm_]) rf in
  Quaternion_normalize self = Ok normalized /\
  (exists axis angle,
     Quaternion_to_axis_angle self = Ok ((axis, angle), normalized)) /\
  Quaternion_reference_frame normalized = Quaternion_reference_frame self /\
  normalized <> self /\
  forall rho (x y z w : R),
    eval rho qx = Some x -> eval rho qy = Some y ->
    eval rho qz = Some z -> eval rho qw = Some w ->
    x * x + y * y + z * z + w * w <> 0 ->
    let n := R_sqrt.sqrt (x * x + y * y + z * z + w * w) in
    eval_matrix rho (Quaternion_s normalized)
    = Some (mkMatrix 4 1 [x / n; y / n; z / n; w / n]) /\
    (x / n) * (x / n) + (y / n) * (y / n) + (z / n) * (z / n) + (w / n) * (w / n) = 1.
Proof.
  cbv zeta. split; [reflexivity |].
  split; [do 2 eexists; cbv -[IZR]; reflexivity |].
  split; [reflexivity |].
  split; [intros H; injection H as H _ _ _; exact (quotient_is_new _ _ _ H) |].
  intros rho x y z w Hx Hy Hz Hw Hn.
  destruct (normalized_values rho qx qy qz qw x y z w Hx Hy Hz Hw Hn)
    as (Ex & Ey & Ez & Ew).
  split; [| exact (normalized_is_unit x y z w Hn)].
  unfold eval_matrix.
  cbn [Quaternion_s column entries size1 size2 length mapM].
  rewrite Ex. cbn [mbind option_bind]. rewrite Ey. cbn [mbind option_bind].
  rewrite Ez. cbn [mbind option_bind]. rewrite Ew. reflexivity.
Qed.

(** The quaternion (0, 0, 3, 4), of norm 5. *)
Lemma to_axis_angle_normalizes_receiver_witness :
  let norm_ := Un OpSqrt (sumsqr [Const 0; Const 0; Const 3; Const 4]) in
  let n := R_sqrt.sqrt (0 * 0 + 0 * 0 + 3 * 3 + 4 * 4) in
  eval_matrix no_binding
    (column [Bin OpDiv (Const 0) norm_; Bin OpDiv (Const 0) norm_;
             Bin OpDiv (Const 3) norm_; Bin OpDiv (Const 4) norm_])
  = Some (mkMatrix 4 1 [0 / n; 0 / n; 3 / n; 4 / n]) /\
  (0 / n) * (0 / n) + (0 / n) * (0 / n) + (3 / n) * (3 / n) + (4 / n) * (4 / n) = 1.
Proof.
  apply (to_axis_angle_normalizes_receiver (Const 0) (Const 0) (Const 3) (Const 4) None);
    [reflexivity | reflexivity | reflexivity | reflexivity | lra].
Defined.

End Normalisation.

Section Interning.

(** ** The symbol registry *)

Import SymbolRegistry.












(** *** Hashes of names collide *)











End Interning.

Section CompiledFunctions.

(** ** Compiled functions *)

Import Compilation.

(** The value of an expression depends on the binding of its symbols
    only. *)
Lemma eval_ext rho1 rho2 e :
  (forall n, In n (symvar e) -> rho1 n = rho2 n) -> eval rho1 e = eval rho2 e.
Proof.
  induction e as [c | n | o a IHa | o a IHa b IHb | c IHc a IHa b IHb];
    cbn [eval symvar]; intros H.
  - reflexivity.
  - apply H; left; reflexivity.
  - rewrite IHa by exact H. reflexivity.
  - rewrite IHa, IHb by (intros; apply H; apply in_or_app; auto). reflexivity.
  - rewrite IHc, IHa, IHb
      by (intros; apply H; repeat (apply in_or_app; auto; right); auto).
    reflexivity.
Qed.

Lemma existsb_eqb_In n l : existsb (String.eqb n) l = true <-> In n l.
Proof.
  rewrite existsb_exists. split.
  - intros (x & Hx & E). apply String.eqb_eq in E. subst; exact Hx.
  - intros H. exists n; split; [exact H | apply String.eqb_refl].
Qed.

(** What a successful [ca.Function] tells: the inputs do not repeat a
    symbol and cover the symbols of the output. *)
Lemma ca_Function_ok parameters expression f :
  ca_Function parameters expression = Ok f ->
  f = mkFunction parameters expression /\
  forall n, In n (free_of expression) -> In n (concat parameters).
Proof.
  unfold ca_Function.
  destruct (has_duplicates (concat parameters)); [discriminate |].
  destruct (forallb _ _) eqn:E; [| discriminate].
  intros H; injection H as <-. split; [reflexivity |].
  intros n Hn. rewrite forallb_forall in E. apply existsb_eqb_In, E, Hn.
Qed.

Lemma overwrite_all (values : list (option R)) (n : nat) :
  length values = n -> overwrite values (zeros n) = values.
Proof.
  intros <-. unfold overwrite, zeros.
  rewrite skipn_all2 by (rewrite repeat_length; lia).
  apply app_nil_r.
Qed.

(** The run of the evaluator of a dense function on a buffer. *)
Lemma function_evaluator_dense expression groups b c :
  wf expression -> (0 < size2 expression)%nat ->
  let zero_out :=
    if (size2 expression <=? 1)%nat then Dense (Array1 (zeros (size1 expression)))
    else Dense (Array2 (size1 expression) (size2 expression)
                  (zeros (size1 expression * size2 expression))) in
  Compilation.out
    (function_evaluator
       (mkCompiledFunction false groups (Some (mkFunction groups expression)) b
          zero_out c))
  = dense_of expression (map (eval (read groups b)) (entries expression)).
Proof.
  intros Hwf Hpos. cbv zeta. unfold function_evaluator, dense_of, evaluate.
  cbn [compiled_casadi_function function_buffer Compilation.out inputs output].
  assert (L : length (map (eval (read groups b)) (entries expression))
              = (size1 expression * size2 expression)%nat)
    by (rewrite length_map; exact Hwf).
  destruct (size2 expression <=? 1)%nat eqn:E; cbn [Compilation.out].
  - apply Nat.leb_le in E. rewrite overwrite_all; [reflexivity |].
    rewrite L. nia.
  - rewrite overwrite_all by exact L. reflexivity.
Qed.

(** Binding one array per input fills the buffer. *)
Lemma set_all_args f (args : list (list R)) :
  Forall2 (fun g a => (length g <= length a)%nat) (inputs f) args ->
  SpatialTypes.for_each (combine (seq 0 (length args)) args)
    (fun b '(arg_idx, arg) => set_arg f b arg_idx arg)
    (repeat None (length (inputs f)))
  = Ok (map Some args).
Proof.
  intros H.
  assert (G : forall (todo : list (list R)) (done_ : list (list R)) (gs : list (list string)),
             Forall2 (fun g a => (length g <= length a)%nat) gs todo ->
             (forall k g, nth_error gs k = Some g ->
                          nth_error (inputs f) (length done_ + k) = Some g) ->
             SpatialTypes.for_each (combine (seq (length done_) (length todo)) todo)
               (fun b '(arg_idx, arg) => set_arg f b arg_idx arg)
               (map Some done_ ++ repeat None (length todo))
             = Ok (map Some (done_ ++ todo))).
  { induction todo as [| a todo IH]; intros done_ gs HF Hnth.
    - cbn. rewrite !app_nil_r. reflexivity.
    - inversion HF as [| g ? gs' ? Hga HF']; subst.
      cbn [length seq combine SpatialTypes.for_each repeat].
      unfold set_arg at 1.
      pose proof (Hnth 0%nat g eq_refl) as H0.
      rewrite Nat.add_0_r in H0. rewrite H0.
      destruct (length a <? length g)%nat eqn:E;
        [apply Nat.ltb_lt in E; lia |].
      cbn [bind].
      assert (Hl : length (map Some done_ : list (option (list R))) = length done_)
        by apply length_map.
      rewrite firstn_app, Hl, Nat.sub_diag, firstn_all2 by lia.
      cbn [firstn]. rewrite app_nil_r.
      rewrite skipn_app, Hl, skipn_all2 by lia.
      replace (S (length done_) - length done_)%nat with 1%nat by lia.
      cbn [skipn app]. rewrite ?skipn_O.
      specialize (IH (done_ ++ [a]) gs' HF').
      rewrite length_app in IH. cbn [length] in IH.
      replace (length done_ + 1)%nat with (S (length done_)) in IH by lia.
      rewrite map_app in IH. cbn [map] in IH.
      rewrite <- app_assoc in IH. cbn [app] in IH.
      rewrite IH.
      + rewrite <- app_assoc. reflexivity.
      + intros k g' Hk. replace (S (length done_) + k)%nat with (length done_ + S k)%nat by lia.
        apply Hnth. exact Hk. }
  specialize (G args [] (inputs f) H).
  cbn [length map app] in G.
  rewrite (Forall2_length _ _ _ H).
  apply G. intros k g Hk. exact Hk.
Qed.

(** The positional call with one array per group: every symbol is read
    from the array of its group, and the dense output holds the values of
    the entries under that binding. *)
Lemma positional_call_dense expression groups (args : list (list R)) f :
  groups <> [] -> wf expression -> (0 < size2 expression)%nat ->
  Forall2 (fun g a => (length g <= length a)%nat) groups args ->
  compile expression (Groups groups) false = Ok f ->
  exists f',
    CompiledFunction_fast_call f args
    = Ok (dense_of expression
            (map (eval (read groups (map Some args))) (entries expression)), f').
Proof.
  intros Hne Hwf Hpos Hargs. unfold compile, CompiledFunction___init__.
  rewrite andb_false_r.
  destruct (ca_Function groups expression) as [f0 | e] eqn:Ef; [| discriminate].
  apply ca_Function_ok in Ef as [-> _]. cbn [bind].
  destruct groups as [| g groups]; [contradiction |].
  cbn [length Nat.eqb]. intros Hf; injection Hf as <-.
  unfold CompiledFunction_fast_call.
  cbn [constant compiled_casadi_function function_buffer].
  pose proof (set_all_args (mkFunction (g :: groups) expression) args Hargs) as Hset.
  cbn [inputs length repeat] in Hset. cbn [length repeat]. rewrite Hset. cbn [bind].
  eexists. do 2 f_equal.
  cbn [Compilation.sparse symbol_parameters compiled_casadi_function
         Compilation.out constant].
  apply function_evaluator_dense; assumption.
Qed.

Lemma has_duplicates_NoDup l : has_duplicates l = false -> List.NoDup l.
Proof.
  induction l as [| x t IH]; cbn; intros H; [constructor |].
  apply orb_false_elim in H as [Hx Ht].
  constructor; [| auto].
  intros Hin. apply existsb_eqb_In in Hin. congruence.
Qed.

Lemma index_of_None n group : ~ In n group -> index_of n group = None.
Proof.
  induction group as [| x t IH]; cbn; intros H; [reflexivity |].
  destruct (String.eqb_spec x n) as [-> | Hne]; [tauto |].
  rewrite IH by tauto. reflexivity.
Qed.

Lemma index_of_nth n group j :
  List.NoDup group -> nth_error group j = Some n -> index_of n group = Some j.
Proof.
  revert j; induction group as [| x t IH]; intros j Hnd Hj.
  - destruct j; discriminate.
  - inversion Hnd as [| ? ? Hx Ht]; subst. destruct j as [| j]; cbn in Hj |- *.
    + injection Hj as ->. rewrite String.eqb_refl. reflexivity.
    + destruct (String.eqb_spec x n) as [-> | Hne].
      * exfalso. apply Hx. eapply nth_error_In; eassumption.
      * rewrite (IH j Ht Hj). reflexivity.
Qed.

(** In a buffer with one array per group, the symbol at position [j] of
    group [i] is read from position [j] of array [i]. *)
Lemma read_at groups (args : list (list R)) i j g a n :
  has_duplicates (concat groups) = false ->
  nth_error groups i = Some g -> nth_error g j = Some n ->
  nth_error args i = Some a ->
  read groups (map Some args) n = nth_error a j.
Proof.
  intros Hd. apply has_duplicates_NoDup in Hd.
  revert i args Hd; induction groups as [| g0 groups IH]; intros i args Hd Hg Hj Ha.
  - destruct i; discriminate.
  - cbn [concat] in Hd. apply List.NoDup_app_remove_l in Hd as Hd'.
    destruct i as [| i]; cbn in Hg.
    + injection Hg as ->. destruct args as [| a0 args]; [discriminate |].
      cbn in Ha. injection Ha as ->. cbn [read map].
      rewrite (index_of_nth n g j); [reflexivity | | exact Hj].
      eapply List.NoDup_app_remove_r; exact Hd.
    + destruct args as [| a0 args]; [discriminate |]. cbn in Ha.
      cbn [read map tl].
      rewrite index_of_None; [eapply IH; eassumption |].
      intros Hin.
      assert (Hin' : In n (concat groups)).
      { apply in_concat. exists g; split; [eapply nth_error_In; eassumption |].
        eapply nth_error_In; eassumption. }
      clear -Hd Hin Hin'.
      induction g0 as [| x t IHt]; [contradiction |].
      cbn in Hd. inversion Hd as [| ? ? Hx Ht]; subst.
      destruct Hin as [-> | Hin]; [apply Hx; apply in_or_app; auto | auto].
Qed.

Lemma index_of_In n group : In n group -> exists k, index_of n group = Some k.
Proof.
  induction group as [| x t IH]; [contradiction |].
  intros [-> | H]; cbn.
  - rewrite String.eqb_refl. eexists; reflexivity.
  - destruct (String.eqb x n); [eexists; reflexivity |].
    destruct (IH H) as [k ->]. eexists; reflexivity.
Qed.

(** The values looked up for the names of a group, at the position of a
    name. *)
Lemma lookups_at (kwargs : gmap string R) n group vals k :
  SpatialTypes.rmap
    (fun param => match kwargs !! param with
                  | Some v => Ok v
                  | None => Raise KeyError
                  end) group = Ok vals ->
  index_of n group = Some k ->
  option_map Some (nth_error vals k) = Some (kwargs !! n).
Proof.
  revert vals k; induction group as [| x t IH]; intros vals k Hv Hk; [discriminate |].
  cbn in Hv, Hk.
  destruct (kwargs !! x) as [v |] eqn:Ex; [| discriminate]. cbn [bind] in Hv.
  destruct (SpatialTypes.rmap _ t) as [vals' | e] eqn:Et; [| discriminate].
  cbn [bind] in Hv. injection Hv as <-.
  destruct (String.eqb x n) eqn:E.
  - apply String.eqb_eq in E. subst x. injection Hk as <-. cbn. rewrite Ex. reflexivity.
  - destruct (index_of n t) as [k' |] eqn:Ek; [| discriminate].
    injection Hk as <-. cbn. apply (IH vals' k' eq_refl eq_refl).
Qed.

(** X4: an expression without symbols compiles to a constant: the value is
    computed by [__init__], and every later call returns it and leaves the
    object as it is. *)
Lemma constant_function expression :
  free_of expression = [] -> wf expression -> (0 < size2 expression)%nat ->
  exists f,
    compile expression NoParameters false = Ok f /\
    constant f
    = Some (dense_of expression (map (eval no_binding) (entries expression))) /\
    (forall args, CompiledFunction_fast_call f args
                  = Ok (dense_of expression
                          (map (eval no_binding) (entries expression)), f)) /\
    (forall kwargs, CompiledFunction___call__ f kwargs
                    = Ok (dense_of expression
                            (map (eval no_binding) (entries expression)), f)).
Proof.
  intros Hfree Hwf Hpos.
  unfold compile, CompiledFunction___init__, free_symbols.
  rewrite andb_false_r, Hfree. cbn [dedup].
  unfold ca_Function. rewrite Hfree. cbn [concat has_duplicates forallb bind length Nat.eqb].
  eexists. split; [reflexivity |].
  assert (E : Compilation.out
                (function_evaluator
                   (mkCompiledFunction false [] (Some (mkFunction [] expression))
                      (repeat None 0)
                      (if (size2 expression <=? 1)%nat
                       then Dense (Array1 (zeros (size1 expression)))
                       else Dense (Array2 (size1 expression) (size2 expression)
                                     (zeros (size1 expression * size2 expression))))
                      None))
              = dense_of expression (map (eval no_binding) (entries expression))).
  { rewrite function_evaluator_dense by assumption. reflexivity. }
  cbn [constant]. rewrite E.
  assert (C : match dense_of expression (map (eval no_binding) (entries expression)) with
              | Dense a => Dense a
              | Sparse m => Dense (toarray m)
              end = dense_of expression (map (eval no_binding) (entries expression)))
    by (unfold dense_of; destruct (size2 expression <=? 1)%nat; reflexivity).
  rewrite C.
  split; [reflexivity |]. split.
  - intros args. reflexivity.
  - intros kwargs. reflexivity.
Qed.

(** The keyword call in general: the values of all groups go into the
    array of the first input, and the other inputs stay as they were (not
    bound, after [__init__]). *)
Lemma keyword_call_buffer expression g groups (kwargs : gmap string R) f :
  wf expression -> (0 < size2 expression)%nat ->
  (forall n, In n (concat (g :: groups)) -> is_Some (kwargs !! n)) ->
  compile expression (Groups (g :: groups)) false = Ok f ->
  exists vals f',
    SpatialTypes.rmap
      (fun param => match kwargs !! param with
                    | Some v => Ok v
                    | None => Raise KeyError
                    end) (concat (g :: groups)) = Ok vals /\
    CompiledFunction___call__ f kwargs
    = Ok (dense_of expression
            (map (eval (read (g :: groups) (Some vals :: repeat None (length groups))))
               (entries expression)), f').
Proof.
  intros Hwf Hpos Hkw. unfold compile, CompiledFunction___init__.
  rewrite andb_false_r.
  destruct (ca_Function (g :: groups) expression) as [f0 | e] eqn:Ef; [| discriminate].
  apply ca_Function_ok in Ef as [-> _]. cbn [bind length Nat.eqb].
  intros Hf; injection Hf as <-.
  unfold CompiledFunction___call__. cbn [symbol_parameters].
  assert (Hvals : exists vals,
             SpatialTypes.rmap
               (fun param => match kwargs !! param with
                             | Some v => Ok v
                             | None => Raise KeyError
                             end) (concat (g :: groups)) = Ok vals /\
             length vals = length (concat (g :: groups))).
  { clear -Hkw. induction (concat (g :: groups)) as [| x t IH].
    - exists []; split; reflexivity.
    - destruct (Hkw x (or_introl eq_refl)) as [v Hv].
      destruct IH as (vals & Hvals & Hlen); [intros; apply Hkw; right; assumption |].
      exists (v :: vals). cbn. rewrite Hv. cbn. rewrite Hvals. cbn.
      split; [reflexivity | congruence]. }
  destruct Hvals as (vals & Hvals & Hlen). exists vals. rewrite Hvals. cbn [bind].
  unfold CompiledFunction_fast_call.
  cbn [constant compiled_casadi_function function_buffer length seq combine
         SpatialTypes.for_each repeat].
  unfold set_arg. cbn [inputs nth_error].
  assert (Hg : (length vals <? length g)%nat = false).
  { apply Nat.ltb_ge. rewrite Hlen. cbn [concat]. rewrite length_app. lia. }
  rewrite Hg. cbn [bind firstn skipn app].
  eexists. split; [reflexivity |]. do 2 f_equal.
  cbn [Compilation.sparse symbol_parameters compiled_casadi_function
         Compilation.out constant].
  apply function_evaluator_dense; assumption.
Qed.

(** There, a symbol of a later group is read as 0, whatever the keyword
    arguments say. *)
Lemma later_group_reads_zero g groups (vals : list R) n :
  ~ In n g -> In n (concat groups) ->
  read (g :: groups) (Some vals :: repeat None (length groups)) n = Some 0.
Proof.
  intros Hg Hin. cbn [read tl]. rewrite (index_of_None n g Hg).
  clear Hg. induction groups as [| g' groups IH]; [contradiction |].
  cbn [read repeat length tl].
  destruct (index_of n g') as [k |] eqn:E; [reflexivity |].
  apply IH. cbn [concat] in Hin. apply in_app_or in Hin as [Hin | Hin]; [| exact Hin].
  apply index_of_In in Hin as [k Hk]. congruence.
Qed.

Lemma Rzero_0 : Rzero 0 = true.
Proof. unfold Rzero. destruct (Req_dec_T 0 0); [reflexivity | contradiction]. Qed.

(** The sparse mode on a diagonal matrix: the buffer holds the two
    structural nonzeros, and the matrix it stands for has the values
    obtained by substitution. *)
Lemma sparse_call_diagonal :
  let expression := mkMatrix 2 2 [Sym "a"; Const 0; Const 0; Sym "b"] in
  exists f f' m,
    compile expression (Symbols ["a"; "b"]) true = Ok f /\
    CompiledFunction_fast_call f [[3; 4]] = Ok (Sparse m, f') /\
    csc_data m = [Some 3; Some 4] /\
    csc_indices m = [0; 1]%nat /\
    csc_indptr m = [0; 1; 2]%nat /\
    toarray m = Array2 2 2 [Some 3; Some 0; Some 0; Some 4].
Proof.
  cbv zeta.
  assert (Ef : compile (mkMatrix 2 2 [Sym "a"; Const 0; Const 0; Sym "b"])
                 (Symbols ["a"; "b"]) true
               = Ok (mkCompiledFunction true [["a"; "b"]]
                       (Some (mkFunction [["a"; "b"]] (mkMatrix 2 2 [Sym "a"; Sym "b"])))
                       [None]
                       (Sparse (mkCsc (2, 2)%nat [Some 0; Some 0] [0; 1]%nat [0; 1; 2]%nat))
                       None)).
  { unfold compile, CompiledFunction___init__, nonzeros, get_ccs, column_rows.
    cbn. rewrite !Rzero_0. cbn. reflexivity. }
  do 3 eexists. split; [exact Ef |].
  split; [cbn; reflexivity |].
  repeat split.
Qed.

(** ** The sparse output *)

Lemma filter_seq_S (f : nat -> bool) (a n : nat) :
  List.filter f (seq (S a) n) = map S (List.filter (fun k => f (S k)) (seq a n)).
Proof.
  revert a; induction n as [| n IH]; intros a; [reflexivity |].
  cbn [seq List.filter]. rewrite IH. destruct (f (S a)); reflexivity.
Qed.

Lemma is_zero_value rho e : is_zero e = true -> eval rho e = Some 0.
Proof.
  destruct e; try discriminate. cbn. unfold Rzero.
  destruct (Req_dec_T c 0) as [-> | ?]; [reflexivity | discriminate].
Qed.

Lemma rows_from_ge (col : list sx) : forall s x,
  In x (map fst (List.filter (fun p => negb (is_zero (snd p)))
                   (combine (seq s (length col)) col))) ->
  (s <= x)%nat.
Proof.
  induction col as [| e t IH]; intros s x; [contradiction |].
  cbn [length seq combine List.filter snd].
  destruct (negb (is_zero e)); cbn [map fst].
  - intros [<- | H]; [lia |]. apply IH in H. lia.
  - intros H. apply IH in H. lia.
Qed.

(** One column in compressed form: looking up row [i] among the row
    indices gives the value of the entry, 0 for a structural zero. *)
Lemma column_lookup rho (col : list sx) : forall s i,
  (s <= i < s + length col)%nat ->
  match List.filter
          (fun k => (nth k (map fst (List.filter (fun p => negb (is_zero (snd p)))
                                       (combine (seq s (length col)) col))) 0 =? i)%nat)
          (seq 0 (length (List.filter (fun e => negb (is_zero e)) col))) with
  | k :: _ => nth k (map (eval rho) (List.filter (fun e => negb (is_zero e)) col)) (Some 0)
  | [] => Some 0
  end = eval rho (nth (i - s) col (Const 0)).
Proof.
  induction col as [| e t IH]; intros s i Hi; [cbn in Hi; lia |].
  cbn [length seq combine List.filter snd].
  destruct (is_zero e) eqn:Ez; cbn [negb map fst length].
  - destruct (Nat.eq_dec i s) as [-> | Hne].
    + rewrite Nat.sub_diag. cbn [nth]. rewrite (is_zero_value rho e Ez).
      match goal with |- match ?l with _ => _ end = _ => destruct l as [| k l'] eqn:El end;
        [reflexivity |].
      exfalso.
      assert (Hk : In k (k :: l')) by (left; reflexivity).
      rewrite <- El in Hk. apply filter_In in Hk as [Hk1 Hk2].
      apply in_seq in Hk1. apply Nat.eqb_eq in Hk2.
      assert (L : forall a,
                 length (List.filter (fun p => negb (is_zero (snd p)))
                           (combine (seq a (length t)) t))
                 = length (List.filter (fun e => negb (is_zero e)) t)).
      { clear. induction t as [| e t IH]; intros a; [reflexivity |].
        cbn [length seq combine List.filter snd].
        destruct (negb (is_zero e)); cbn [length]; rewrite IH; reflexivity. }
      assert (Hlen : (k < length (map fst (List.filter (fun p => negb (is_zero (snd p)))
                                            (combine (seq (S s) (length t)) t))))%nat)
        by (rewrite length_map, L; lia).
      pose proof (nth_In _ 0%nat Hlen) as Hin. rewrite Hk2 in Hin.
      apply rows_from_ge in Hin. lia.
    + replace (i - s)%nat with (S (i - S s)) by lia. cbn [nth].
      apply IH. cbn [length] in Hi. lia.
  - cbn [seq List.filter nth]. rewrite filter_seq_S. cbn [nth].
    destruct (Nat.eqb_spec s i) as [<- | Hne].
    + rewrite Nat.sub_diag. reflexivity.
    + replace (i - s)%nat with (S (i - S s)) by lia. cbn [nth].
      rewrite <- (IH (S s) i) by (cbn [length] in Hi; lia).
      match goal with
      | |- match map S ?l with _ => _ end = _ => destruct l as [| k l']; reflexivity
      end.
Qed.

Lemma filter_seq_plus (f : nat -> bool) (a n : nat) :
  List.filter f (seq a n) = map (Nat.add a) (List.filter (fun k => f (a + k)%nat) (seq 0 n)).
Proof.
  revert f; induction a as [| a IH]; intros f.
  - cbn. rewrite map_id. reflexivity.
  - rewrite filter_seq_S, IH, map_map. reflexivity.
Qed.

Lemma column_rows_length (col : list sx) :
  length (column_rows col) = length (List.filter (fun e => negb (is_zero e)) col).
Proof.
  unfold column_rows. rewrite length_map. generalize 0%nat.
  induction col as [| e t IH]; intros a; [reflexivity |].
  cbn [length seq combine List.filter snd].
  destruct (negb (is_zero e)); cbn [length]; rewrite IH; reflexivity.
Qed.

Lemma filter_concat {A : Type} (p : A -> bool) (ls : list (list A)) :
  List.filter p (concat ls) = flat_map (List.filter p) ls.
Proof.
  induction ls as [| l ls IH]; [reflexivity |].
  cbn [concat flat_map]. rewrite List.filter_app, IH. reflexivity.
Qed.

Lemma rows_before_length (cols : list (list sx)) :
  length (flat_map column_rows cols)
  = length (flat_map (List.filter (fun e => negb (is_zero e))) cols).
Proof.
  induction cols as [| col cols IH]; [reflexivity |].
  cbn [flat_map]. rewrite !length_app, IH, column_rows_length. reflexivity.
Qed.

(** The column offsets are the numbers of structural nonzeros of the
    columns before. *)
Lemma offsets_fold (cols : list (list sx)) : forall acc,
  fold_left (fun acc col => acc ++ [(List.last acc 0 + length (column_rows col))%nat])
    cols acc
  = acc ++ map (fun k => (List.last acc 0
                          + length (flat_map column_rows (firstn k cols)))%nat)
             (seq 1 (length cols)).
Proof.
  induction cols as [| col cols IH]; intros acc.
  - cbn. rewrite app_nil_r. reflexivity.
  - cbn [fold_left length]. rewrite IH.
    rewrite List.last_last, <- app_assoc. f_equal.
    change (seq 1 (S (length cols))) with (1%nat :: seq 2 (length cols)).
    cbn [app map firstn flat_map]. rewrite app_nil_r. f_equal.
    rewrite <- (seq_shift (length cols) 1), map_map. apply map_ext. intros k.
    cbn [firstn flat_map]. rewrite length_app. lia.
Qed.

Lemma offsets_nth (cols : list (list sx)) (j : nat) :
  (j <= length cols)%nat ->
  nth j (fold_left
           (fun acc col => acc ++ [(List.last acc 0 + length (column_rows col))%nat])
           cols [0%nat]) 0%nat
  = length (flat_map column_rows (firstn j cols)).
Proof.
  intros Hj. rewrite offsets_fold. cbn [app List.last].
  destruct j as [| j]; [reflexivity |].
  cbn [nth].
  rewrite (nth_indep _ 0%nat (0 + length (flat_map column_rows (firstn 0 cols)))%nat)
    by (rewrite length_map, length_seq; lia).
  rewrite (map_nth (fun k => (0 + length (flat_map column_rows (firstn k cols)))%nat)).
  rewrite seq_nth by lia. reflexivity.
Qed.

(** An entry of the matrix in compressed form is the value of the entry of
    the expression. *)
Lemma csc_entry_of_columns rho (cols : list (list sx)) (shape_ : nat * nat)
  (j i : nat) (col : list sx) :
  nth_error cols j = Some col -> (i < length col)%nat ->
  csc_entry
    (mkCsc shape_
       (map (eval rho) (List.filter (fun e => negb (is_zero e)) (concat cols)))
       (flat_map column_rows cols)
       (fold_left
          (fun acc col => acc ++ [(List.last acc 0 + length (column_rows col))%nat])
          cols [0%nat]))
    i j
  = eval rho (nth i col (Const 0)).
Proof.
  intros Hj Hi.
  destruct (nth_error_split _ _ Hj) as (pre & post & -> & Hpre).
  unfold csc_entry. cbn [csc_indptr csc_indices csc_data].
  assert (Hlen : (S j <= length (pre ++ col :: post))%nat)
    by (rewrite length_app; cbn [length]; lia).
  rewrite !offsets_nth by lia.
  assert (F1 : firstn j (pre ++ col :: post) = pre)
    by (rewrite <- Hpre, firstn_app, Nat.sub_diag, firstn_all; cbn; apply app_nil_r).
  assert (F2 : firstn (S j) (pre ++ col :: post) = pre ++ [col]).
  { rewrite <- Hpre, firstn_app, firstn_all2 by lia.
    replace (S (length pre) - length pre)%nat with 1%nat by lia. reflexivity. }
  rewrite F1, F2, (flat_map_app column_rows pre [col]), length_app.
  cbn [flat_map]. rewrite app_nil_r.
  set (lo := length (flat_map column_rows pre)).
  replace (lo + length (column_rows col) - lo)%nat with (length (column_rows col)) by lia.
  rewrite filter_seq_plus.
  rewrite (List.filter_ext_in
             (fun k => (nth (lo + k)
                          (flat_map column_rows (pre ++ col :: post)) 0 =? i)%nat)
             (fun k => (nth k (column_rows col) 0 =? i)%nat)).
  2:{ intros p Hp. apply in_seq in Hp.
      rewrite flat_map_app. cbn [flat_map].
      unfold lo. rewrite app_nth2_plus, app_nth1 by lia. reflexivity. }
  rewrite filter_concat, flat_map_app, map_app. cbn [flat_map]. rewrite map_app.
  assert (Hlo : length (map (eval rho)
                          (flat_map (List.filter (fun e => negb (is_zero e))) pre)) = lo)
    by (rewrite length_map; unfold lo; symmetry; apply rows_before_length).
  pose proof (column_lookup rho col 0 i ltac:(lia)) as Hc.
  rewrite Nat.sub_0_r in Hc. fold (column_rows col) in Hc.
  rewrite <- column_rows_length in Hc.
  rewrite <- Hc.
  destruct (List.filter (fun k => (nth k (column_rows col) 0 =? i)%nat)
              (seq 0 (length (column_rows col)))) as [| p l'] eqn:El;
    [reflexivity |].
  cbn [map].
  assert (Hp : In p (p :: l')) by (left; reflexivity).
  rewrite <- El in Hp. apply filter_In in Hp as [Hp _]. apply in_seq in Hp.
  rewrite <- Hlo, app_nth2_plus, app_nth1; [reflexivity |].
  rewrite length_map, <- column_rows_length. lia.
Qed.

Lemma columns_length {A : Type} (r c : nat) : forall l : list A,
  length (columns r c l) = c.
Proof. induction c as [| c IH]; intros l; cbn; [| rewrite IH]; reflexivity. Qed.

Lemma columns_concat {A : Type} (r c : nat) : forall l : list A,
  length l = (r * c)%nat -> concat (columns r c l) = l.
Proof.
  induction c as [| c IH]; intros l Hl; cbn [columns concat].
  - destruct l; [reflexivity | cbn in Hl; lia].
  - rewrite IH by (rewrite length_skipn; nia). apply firstn_skipn.
Qed.

Lemma columns_nth_length {A : Type} (r c : nat) : forall (l : list A) j col,
  length l = (r * c)%nat -> nth_error (columns r c l) j = Some col ->
  length col = r.
Proof.
  induction c as [| c IH]; intros l j col Hl Hj; cbn [columns] in Hj.
  - destruct j; discriminate.
  - destruct j as [| j]; cbn [nth_error] in Hj.
    + injection Hj as <-. rewrite length_firstn. nia.
    + apply (IH (skipn r l) j); [rewrite length_skipn; nia | exact Hj].
Qed.

Lemma map_nth_seq {A B : Type} (g : A -> B) (d : A) (l : list A) :
  map (fun i => g (nth i l d)) (seq 0 (length l)) = map g l.
Proof.
  induction l as [| x l IH]; [reflexivity |].
  cbn [length seq map nth]. rewrite <- seq_shift, map_map. cbn [nth].
  rewrite IH. reflexivity.
Qed.

(** Reading a matrix entry by entry through its columns gives its entries
    in column-major order. *)
Lemma columns_values {A B : Type} (g : A -> B) (d : A) (r c : nat) :
  forall l : list A,
  length l = (r * c)%nat ->
  flat_map (fun j => map (fun i => g (nth i (nth j (columns r c l) []) d)) (seq 0 r))
    (seq 0 c)
  = map g l.
Proof.
  induction c as [| c IH]; intros l Hl.
  - destruct l; [reflexivity | cbn in Hl; lia].
  - cbn [seq flat_map columns nth].
    rewrite <- seq_shift, flat_map_concat_map, map_map, <- flat_map_concat_map.
    cbn [nth]. rewrite IH by (rewrite length_skipn; nia).
    assert (Hf : length (firstn r l) = r) by (rewrite length_firstn; nia).
    pose proof (map_nth_seq g d (firstn r l)) as Hm. rewrite Hf in Hm.
    rewrite Hm, <- map_app, firstn_skipn. reflexivity.
Qed.

(** The positional call in sparse mode: the compressed matrix returned
    stands for the values of the entries of the expression under the
    binding of the arrays. *)
Lemma positional_call_sparse expression groups (args : list (list R)) f :
  groups <> [] -> wf expression -> (0 < size1 expression)%nat ->
  Forall2 (fun g a => (length g <= length a)%nat) groups args ->
  compile expression (Groups groups) true = Ok f ->
  exists m f',
    CompiledFunction_fast_call f args = Ok (Sparse m, f') /\
    toarray m
    = Array2 (size1 expression) (size2 expression)
        (map (eval (read groups (map Some args))) (entries expression)).
Proof.
  intros Hne Hwf Hpos Hargs. unfold compile, CompiledFunction___init__.
  destruct (size1 expression =? 0)%nat eqn:E0;
    [apply Nat.eqb_eq in E0; lia |].
  cbn [andb].
  destruct (ca_Function groups _) as [f0 | e] eqn:Ef; [| discriminate].
  apply ca_Function_ok in Ef as [-> _]. cbn [bind].
  unfold get_ccs.
  destruct groups as [| g groups]; [contradiction |].
  cbn [length Nat.eqb]. intros Hf; injection Hf as <-.
  unfold CompiledFunction_fast_call.
  cbn [constant compiled_casadi_function function_buffer].
  pose proof (set_all_args
                (mkFunction (g :: groups)
                   (mkMatrix (size1 expression) (size2 expression)
                      (nonzeros expression))) args Hargs) as Hset.
  cbn [inputs length repeat] in Hset. cbn [length repeat]. rewrite Hset. cbn [bind].
  unfold function_evaluator, evaluate.
  cbn [Compilation.sparse symbol_parameters compiled_casadi_function
         Compilation.out constant function_buffer inputs output entries
         csc_shape csc_data csc_indices csc_indptr].
  do 2 eexists. split; [reflexivity |].
  rewrite overwrite_all by apply length_map.
  unfold toarray, shape. cbn [csc_shape]. f_equal.
  set (rho := read (g :: groups) (map Some args)).
  set (cols := columns (size1 expression) (size2 expression) (entries expression)).
  rewrite <- (columns_values (eval rho) (Const 0) (size1 expression)
                (size2 expression) (entries expression) Hwf).
  fold cols.
  rewrite !flat_map_concat_map. f_equal.
  apply map_ext_in. intros j Hj. apply in_seq in Hj.
  apply map_ext_in. intros i Hi. apply in_seq in Hi.
  assert (Hc : nth_error cols j = Some (nth j cols [])).
  { apply nth_error_nth'. unfold cols. rewrite columns_length. lia. }
  unfold nonzeros.
  rewrite <- (columns_concat (size1 expression) (size2 expression)
                (entries expression) Hwf) at 1.
  fold cols. rewrite <- (flat_map_concat_map column_rows cols).
  apply csc_entry_of_columns; [exact Hc |].
  rewrite (columns_nth_length _ _ _ _ _ Hwf Hc). lia.
Qed.

(** C1 fails on the code for the keyword call of a function compiled with
    more than one group of parameters: [__call__] passes the values of all
    groups as one array, which binds the first input only.  With the
    expression [b], the groups [[a], [b]] and the call [f(a=1, b=2)] the
    input of [b] is never bound and the call returns 0, whereas
    substitution gives 2; the positional call with one array per group
    returns 2. *)
Theorem keyword_call_binds_first_group_only :
  let expression := scalar (Sym "b") in
  let kwargs : gmap string R := <["a" := 1]> (<["b" := 2]> ∅) in
  exists f f' f'',
    compile expression (Groups [["a"]; ["b"]]) false = Ok f /\
    CompiledFunction___call__ f kwargs = Ok (Dense (Array1 [Some 0]), f') /\
    substitute kwargs expression = [Some 2] /\
    CompiledFunction_fast_call f [[1]; [2]] = Ok (Dense (Array1 [Some 2]), f'').
Proof.
  cbv zeta. do 3 eexists.
  split; [cbv -[IZR]; reflexivity |].
  split; [| split].
  - unfold CompiledFunction___call__.
    cbn [symbol_parameters concat app SpatialTypes.rmap].
    rewrite lookup_insert_eq, lookup_insert_ne, lookup_insert_eq by discriminate.
    cbn. reflexivity.
  - unfold substitute. cbn [scalar entries map eval].
    rewrite lookup_insert_ne, lookup_insert_eq by discriminate. reflexivity.
  - cbn. reflexivity.
Qed.

End CompiledFunctions.

(** * Further properties of the code *)

Import Engine SpatialTypes Spec.

(** Bounds of a minimum and a maximum. *)
Ltac minmax :=
  unfold Rmin;
  repeat match goal with |- context [Rle_dec ?a ?b] => destruct (Rle_dec a b) end;
  unfold Rmax;
  repeat match goal with |- context [Rle_dec ?a ?b] => destruct (Rle_dec a b) end;
  lra.

(** Evaluate an expression whose leaves have known values. *)
Ltac values :=
  cbn [eval obind eval_binop eval_unop];
  repeat match goal with
    | H : _ = Some _ |- _ => rewrite H
    end;
  cbn [eval obind eval_binop eval_unop].

(** Take a list of values apart into the expressions that have them. *)
Ltac entries_of H :=
  repeat match type of H with
    | Forall2 _ _ (_ :: _) =>
        let e := fresh "e" in let l := fresh "l" in
        let He := fresh "He" in let Hl := fresh "Hl" in
        inversion H as [| e ? l ? He Hl]; subst; clear H; rename Hl into H
    end;
  inversion H; subst; clear H.

Section SafeArithmetic.

(** ** Division and inverse cosine that cannot fail *)

Lemma eval_strict_eval rho e v : eval_strict rho e = Some v -> eval rho e = Some v.
Proof.
  revert v; induction e as [c | n | o a IHa | o a IHa b IHb | c IHc a IHa b IHb];
    intros v; cbn [eval eval_strict].
  - auto.
  - auto.
  - destruct (eval_strict rho a) as [x |]; [| discriminate].
    rewrite (IHa x eq_refl); auto.
  - destruct (eval_strict rho a) as [x |]; [| discriminate].
    rewrite (IHa x eq_refl); cbn [obind].
    destruct (eval_strict rho b) as [y |]; [| discriminate].
    rewrite (IHb y eq_refl); auto.
  - destruct (eval_strict rho c) as [x |]; [| discriminate].
    rewrite (IHc x eq_refl); cbn [obind].
    destruct (eval_strict rho a) as [y |]; [| discriminate].
    destruct (eval_strict rho b) as [z |]; [| discriminate].
    cbn [obind]. rewrite (IHa y eq_refl), (IHb z eq_refl).
    destruct (Rzero x); auto.
Qed.

Lemma if_else_operands (c a b : scalar_operand) :
  if_else (operand c) (operand a) (operand b)
  = Ok (PyExpression (scalar (IfElse (entry c) (entry a) (entry b)))).
Proof. destruct c, a, b; reflexivity. Qed.

Lemma Rzero_true x : Rzero x = true -> x = 0.
Proof. unfold Rzero; destruct (Req_dec_T x 0); [auto | discriminate]. Qed.

Lemma Rzero_neq x : Rzero x = false -> x <> 0.
Proof. unfold Rzero; destruct (Req_dec_T x 0); [discriminate | auto]. Qed.

Lemma save_division_tree (n d c : scalar_operand) :
  save_division (operand n) (operand d) (Some (operand c))
  = Ok (PyExpression
          (scalar
             (Bin OpMul (entry n)
                (IfElse (entry d)
                   (Bin OpDiv (Const 1) (IfElse (entry d) (entry d) (Const 1)))
                   (entry c))))).
Proof.
  unfold save_division, if_eq_zero. cbn [bind].
  change (if_else (operand d) (operand d) (PyNum 1))
    with (if_else (operand d) (operand d) (operand (Num 1))).
  rewrite if_else_operands. cbn [bind entry lift2].
  set (sd := IfElse (entry d) (entry d) (Const 1)).
  replace (py_binop TrueDiv (PyNum 1) (PyExpression (scalar sd)))
    with (Ok (PyExpression (scalar (Bin OpDiv (Const 1) sd)))) by reflexivity.
  cbn [bind].
  change (PyExpression (scalar (Bin OpDiv (Const 1) sd)))
    with (operand (Expr (Bin OpDiv (Const 1) sd))).
  rewrite if_else_operands. cbn [bind entry].
  destruct n; reflexivity.
Qed.

(** X12: [save_division] on scalar operands: the quotient when the
    denominator is not zero; when it is zero, the nominator times [if_nan].
    The result has a value even when both branches of every conditional are
    computed: no division by zero is left in it. *)
Theorem save_division_never_divides_by_zero rho (n d c : scalar_operand)
  (vn vd vc : R) :
  eval_strict rho (entry n) = Some vn ->
  eval_strict rho (entry d) = Some vd ->
  eval_strict rho (entry c) = Some vc ->
  exists e,
    save_division (operand n) (operand d) (Some (operand c))
    = Ok (PyExpression (scalar e)) /\
    eval_strict rho e = Some (if Rzero vd then vn * vc else vn / vd) /\
    eval rho e = Some (if Rzero vd then vn * vc else vn / vd).
Proof.
  intros Hn Hd Hc. eexists. split; [apply save_division_tree |].
  assert (E : eval_strict rho
                (Bin OpMul (entry n)
                   (IfElse (entry d)
                      (Bin OpDiv (Const 1) (IfElse (entry d) (entry d) (Const 1)))
                      (entry c)))
              = Some (if Rzero vd then vn * vc else vn / vd)).
  { cbn [eval_strict]. rewrite Hn, Hd, Hc. cbn [obind eval_binop].
    destruct (Rzero vd) eqn:E; cbn [obind eval_binop].
    - replace (Rzero 1) with false
        by (symmetry; unfold Rzero; destruct (Req_dec_T 1 0); [lra | reflexivity]).
      cbn [obind]. reflexivity.
    - rewrite E. cbn [obind]. apply Rzero_neq in E.
      f_equal. field. exact E. }
  split; [exact E | apply eval_strict_eval; exact E].
Qed.

Lemma save_division_never_divides_by_zero_witness :
  exists e,
    save_division (PySymbol "n") (PySymbol "d") (Some (PyNum 7))
    = Ok (PyExpression (scalar e)) /\
    eval_strict (fun _ => Some 0) e = Some (if Rzero 0 then 0 * 7 else 0 / 0) /\
    eval (fun _ => Some 0) e = Some (if Rzero 0 then 0 * 7 else 0 / 0).
Proof.
  apply (save_division_never_divides_by_zero (fun _ => Some 0)
           (Symb "n") (Symb "d") (Num 7) 0 0 7); reflexivity.
Defined.

Lemma limit_tree (x lo hi : scalar_operand) :
  limit (operand x) (operand lo) (operand hi)
  = Ok (PyExpression
          (scalar (Bin OpFmax (entry lo) (Bin OpFmin (entry hi) (entry x))))).
Proof. destruct x, lo, hi; reflexivity. Qed.

(** X14: [limit] clamps: the value is max(lower, min(upper, x)), which lies
    between the limits when they are in order. *)
Theorem limit_clamps rho (x lo hi : scalar_operand) (vx vlo vhi : R) :
  eval rho (entry x) = Some vx ->
  eval rho (entry lo) = Some vlo ->
  eval rho (entry hi) = Some vhi ->
  exists r,
    limit (operand x) (operand lo) (operand hi) = Ok r /\
    value rho r = Some (Rmax vlo (Rmin vhi vx)) /\
    (vlo <= vhi -> vlo <= Rmax vlo (Rmin vhi vx) <= vhi) /\
    (vlo <= vx <= vhi -> Rmax vlo (Rmin vhi vx) = vx).
Proof.
  intros Hx Hlo Hhi. eexists. split; [apply limit_tree |].
  split; [cbn; rewrite Hlo, Hhi, Hx; reflexivity |].
  split; intros H; minmax.
Qed.

Lemma limit_clamps_witness :
  exists r,
    limit (PyNum 5) (PyNum 0) (PySymbol "hi") = Ok r /\
    value (fun _ => Some 3) r = Some (Rmax 0 (Rmin 3 5)) /\
    (0 <= 3 -> 0 <= Rmax 0 (Rmin 3 5) <= 3) /\
    (0 <= 5 <= 3 -> Rmax 0 (Rmin 3 5) = 5).
Proof.
  apply (limit_clamps (fun _ => Some 3) (Num 5) (Num 0) (Symb "hi") 5 0 3); reflexivity.
Defined.

Lemma save_acos_tree (x : scalar_operand) :
  save_acos (operand x)
  = Ok (PyExpression
          (scalar (Un OpAcos
                     (Bin OpFmax (Const (-1)) (Bin OpFmin (Const 1) (entry x)))))).
Proof. destruct x; reflexivity. Qed.

Lemma Rle_b_true x y : x <= y -> Rle_b x y = true.
Proof. intros H; unfold Rle_b; destruct (Rle_dec x y); [reflexivity | contradiction]. Qed.

(** X13: [save_acos] has a value for every argument that has one: the
    inverse cosine of the argument clamped to [-1, 1], which is the inverse
    cosine of the argument itself when that lies in [-1, 1]. *)
Theorem save_acos_defined rho (x : scalar_operand) (vx : R) :
  eval rho (entry x) = Some vx ->
  exists r,
    save_acos (operand x) = Ok r /\
    value rho r = Some (Ratan.acos (Rmax (-1) (Rmin 1 vx))) /\
    (-1 <= vx <= 1 -> value rho r = Some (Ratan.acos vx)).
Proof.
  intros Hx. eexists. split; [apply save_acos_tree |].
  assert (B : -1 <= Rmax (-1) (Rmin 1 vx) <= 1).
  { minmax. }
  assert (E : value rho
                (PyExpression
                   (scalar (Un OpAcos
                              (Bin OpFmax (Const (-1)) (Bin OpFmin (Const 1) (entry x))))))
              = Some (Ratan.acos (Rmax (-1) (Rmin 1 vx)))).
  { cbn. rewrite Hx. cbn.
    rewrite (Rle_b_true _ _ (proj1 B)), (Rle_b_true _ _ (proj2 B)). reflexivity. }
  split; [exact E |].
  intros H. rewrite E. do 2 f_equal.
  minmax.
Qed.

Lemma save_acos_defined_witness :
  exists r,
    save_acos (PySymbol "x") = Ok r /\
    value (fun _ => Some 2) r = Some (Ratan.acos (Rmax (-1) (Rmin 1 2))) /\
    (-1 <= 2 <= 1 -> value (fun _ => Some 2) r = Some (Ratan.acos 2)).
Proof.
  apply (save_acos_defined (fun _ => Some 2) (Symb "x") 2); reflexivity.
Defined.

(** X15: [abs] never returns a Point3 or a Vector3: its result is an
    Expression, also for a point, of which it takes the absolute value of
    all four entries. *)
Theorem abs_returns_an_expression (x r : pyobj) :
  abs x = Ok r ->
  type r = ExpressionType /\
  forall px py pz rf,
    x = PyPoint3 (point px py pz rf) ->
    r = PyExpression
          (column [Un OpFabs px; Un OpFabs py; Un OpFabs pz; Un OpFabs (Const 1)]).
Proof.
  unfold abs, Expression. intros H.
  destruct (Expression___init__ x) as [s | e] eqn:E; [| discriminate].
  cbn in H. injection H as <-. split; [reflexivity |].
  intros px py pz rf ->. cbn in E. injection E as <-. reflexivity.
Qed.

Lemma abs_returns_an_expression_witness :
  type (PyExpression (column [Un OpFabs (Sym "x"); Un OpFabs (Const 2);
                              Un OpFabs (Const 3); Un OpFabs (Const 1)]))
  = ExpressionType /\
  forall px py pz rf,
    PyPoint3 (point (Sym "x") (Const 2) (Const 3) None) = PyPoint3 (point px py pz rf) ->
    PyExpression (column [Un OpFabs (Sym "x"); Un OpFabs (Const 2);
                          Un OpFabs (Const 3); Un OpFabs (Const 1)])
    = PyExpression
        (column [Un OpFabs px; Un OpFabs py; Un OpFabs pz; Un OpFabs (Const 1)]).
Proof.
  apply (abs_returns_an_expression
           (PyPoint3 (point (Sym "x") (Const 2) (Const 3) None))).
  reflexivity.
Defined.

Lemma Int_part_2 : Int_part 2 = 2%Z.
Proof.
  unfold Int_part.
  assert (H : up 2 = 3%Z).
  { symmetry. apply tech_up; simpl; lra. }
  rewrite H. reflexivity.
Qed.

Lemma pow_real_2 x : pow_real x 2 = Some (x * x).
Proof.
  unfold pow_real.
  destruct (Rlt_dec 0 x) as [Hpos | Hneg].
  - unfold Rlt_b. destruct (Rlt_dec 0 x); [| contradiction].
    f_equal. replace 2 with (INR 2) by (simpl; lra).
    rewrite Rpower_pow by exact Hpos. simpl. ring.
  - unfold Rlt_b at 1. destruct (Rlt_dec 0 x); [contradiction |].
    destruct (Rzero x) eqn:E.
    + unfold Rzero in *. destruct (Req_dec_T x 0) as [-> |]; [| discriminate].
      destruct (Req_dec_T 2 0); [lra |].
      unfold Rlt_b. destruct (Rlt_dec 0 2); [| lra]. f_equal. ring.
    + unfold is_integer. rewrite Int_part_2.
      unfold Req_b. destruct (Req_dec_T 2 (IZR 2)); [| lra].
      f_equal. simpl. ring.
Qed.

Lemma number_op_Pow_2 k : number_op Pow k 2 = Ok (PyNum (k * k)).
Proof. unfold number_op. cbn [engine_op eval_binop]. rewrite pow_real_2. reflexivity. Qed.

Lemma number_op_TrueDiv x y : y <> 0 -> number_op TrueDiv x y = Ok (PyNum (x / y)).
Proof.
  intros H. unfold number_op. cbn [engine_op eval_binop].
  rewrite (Rzero_false _ H). reflexivity.
Qed.

Lemma number_op_Add x y : number_op Add x y = Ok (PyNum (x + y)).
Proof. reflexivity. Qed.

Lemma number_op_Sub x y : number_op Sub x y = Ok (PyNum (x - y)).
Proof. reflexivity. Qed.

Lemma number_op_Mul x y : number_op Mul x y = Ok (PyNum (x * y)).
Proof. reflexivity. Qed.

Ltac numops :=
  cbn -[number_op pow_real];
  repeat (first [ rewrite number_op_Pow_2
                | rewrite number_op_TrueDiv by lra
                | rewrite number_op_Add
                | rewrite number_op_Sub
                | rewrite number_op_Mul ];
          cbn -[number_op pow_real]).

Lemma sqrt_gauss v :
  R_sqrt.sqrt (2 * ((v * v + v) / 2) + 1 / 4) = Rabs (v + 1 / 2).
Proof.
  replace (2 * ((v * v + v) / 2) + 1 / 4) with (Rsqr (v + 1 / 2)) by (unfold Rsqr; field).
  apply sqrt_Rsqr_abs.
Qed.

Lemma gauss_nonneg v : ~ 2 * ((v * v + v) / 2) + 1 / 4 < 0.
Proof.
  replace (2 * ((v * v + v) / 2) + 1 / 4) with (Rsqr (v + 1 / 2)) by (unfold Rsqr; field).
  pose proof (Rle_0_sqr (v + 1 / 2)). lra.
Qed.

(** X16: [r_gauss] inverts [gauss] from -1/2 on: r_gauss(gauss(n)) has the
    value |n + 1/2| - 1/2, which is n when n >= -1/2. *)
Theorem r_gauss_inverts_gauss rho (n : scalar_operand) (v : R) :
  eval rho (entry n) = Some v ->
  exists g r,
    gauss (operand n) = Ok g /\ r_gauss g = Ok r /\
    value rho r = Some (Rabs (v + 1 / 2) - 1 / 2) /\
    (- (1 / 2) <= v -> value rho r = Some v).
Proof.
  intros Hv.
  assert (G : exists g r,
             gauss (operand n) = Ok g /\ r_gauss g = Ok r /\
             value rho r = Some (Rabs (v + 1 / 2) - 1 / 2)).
  { destruct n as [k | n | e]; cbn [entry eval] in Hv.
    - injection Hv as ->.
      exists (PyNum ((v * v + v) / 2)).
      exists (PyExpression
                (scalar (Bin OpSub (Un OpSqrt (Const (2 * ((v * v + v) / 2) + 1 / 4)))
                           (Const (1 / 2))))).
      split.
      { unfold gauss, lift2. numops. reflexivity. }
      split.
      { unfold r_gauss, lift2. numops. reflexivity. }
      cbn. rewrite (Rlt_b_false _ _ (gauss_nonneg v)), sqrt_gauss. reflexivity.
    - eexists. eexists. split; [reflexivity |].
      split.
      { unfold r_gauss, lift2. numops. reflexivity. }
      cbn. rewrite Hv. cbn. rewrite pow_real_2. cbn.
      rewrite (Rzero_false 2) by lra. cbn.
      rewrite (Rlt_b_false _ _ (gauss_nonneg v)), sqrt_gauss. reflexivity.
    - eexists. eexists. split; [reflexivity |].
      split.
      { unfold r_gauss, lift2. numops. reflexivity. }
      cbn. rewrite Hv. cbn. rewrite pow_real_2. cbn.
      rewrite (Rzero_false 2) by lra. cbn.
      rewrite (Rlt_b_false _ _ (gauss_nonneg v)), sqrt_gauss. reflexivity. }
  destruct G as (g & r & Hg & Hr & Hval).
  exists g, r. repeat split; try assumption.
  intros H. rewrite Hval. f_equal. rewrite Rabs_right by lra. lra.
Qed.

Lemma r_gauss_inverts_gauss_witness :
  exists g r,
    gauss (PySymbol "n") = Ok g /\ r_gauss g = Ok r /\
    value (fun _ => Some 3) r = Some (Rabs (3 + 1 / 2) - 1 / 2) /\
    (- (1 / 2) <= 3 -> value (fun _ => Some 3) r = Some 3).
Proof.
  apply (r_gauss_inverts_gauss (fun _ => Some 3) (Symb "n") 3). reflexivity.
Defined.

End SafeArithmetic.

Section QuaternionAlgebra.

(** ** Quaternion algebra *)

Lemma eval_matrix_4 rho (s : SX) (a b c d : R) :
  eval_matrix rho s = Some (mkMatrix 4 1 [a; b; c; d]) ->
  exists ea eb ec ed,
    s = mkMatrix 4 1 [ea; eb; ec; ed] /\
    eval rho ea = Some a /\ eval rho eb = Some b /\
    eval rho ec = Some c /\ eval rho ed = Some d.
Proof.
  destruct s as [r c' l]. unfold eval_matrix. cbn [entries size1 size2].
  destruct (mapM (eval rho) l) as [vs |] eqn:E; [| discriminate].
  intros H; injection H as -> -> ->.
  apply mapM_Some_1 in E.
  repeat match goal with
    | H : Forall2 _ _ (_ :: _) |- _ => inversion H; subst; clear H
    | H : Forall2 _ _ [] |- _ => inversion H; subst; clear H
    end.
  do 4 eexists. repeat split; eassumption.
Qed.

Lemma eval_matrix_values rho (r c : nat) (l : list sx) (vs : list R) :
  Forall2 (fun e v => eval rho e = Some v) l vs ->
  eval_matrix rho (mkMatrix r c l) = Some (mkMatrix r c vs).
Proof.
  intros H. unfold eval_matrix. cbn [entries size1 size2].
  rewrite (mapM_Some_2 _ _ _ H). reflexivity.
Qed.

(** X23: [diff] solves self * p = q for a unit quaternion: multiplying the
    receiver with [self.diff(q)] gives the values of [q].  The difference
    carries no reference frame, the product that of the receiver. *)
Theorem quaternion_diff_solves rho (p q : Quaternion)
  (px py pz pw qx qy qz qw : R) :
  eval_matrix rho (Quaternion_s p) = Some (mkMatrix 4 1 [px; py; pz; pw]) ->
  eval_matrix rho (Quaternion_s q) = Some (mkMatrix 4 1 [qx; qy; qz; qw]) ->
  px * px + py * py + pz * pz + pw * pw = 1 ->
  exists d r,
    Quaternion_diff p q = Ok d /\
    Quaternion_multiply p d = Ok r /\
    eval_matrix rho (Quaternion_s r) = Some (mkMatrix 4 1 [qx; qy; qz; qw]) /\
    Quaternion_reference_frame d = None /\
    Quaternion_reference_frame r = Quaternion_reference_frame p.
Proof.
  intros Hp Hq Hunit.
  destruct p as [ps prf], q as [qs qrf]. cbn [Quaternion_s Quaternion_reference_frame] in *.
  apply eval_matrix_4 in Hp as (p0 & p1 & p2 & p3 & -> & Hp0 & Hp1 & Hp2 & Hp3).
  apply eval_matrix_4 in Hq as (q0 & q1 & q2 & q3 & -> & Hq0 & Hq1 & Hq2 & Hq3).
  eexists. eexists.
  split; [cbv -[IZR]; reflexivity |].
  split; [cbv -[IZR]; reflexivity |].
  split; [| split; reflexivity].
  cbn [Quaternion_s]. apply eval_matrix_values.
  repeat constructor; values; f_equal.
  - transitivity ((px * px + py * py + pz * pz + pw * pw) * qx); [ring | rewrite Hunit; ring].
  - transitivity ((px * px + py * py + pz * pz + pw * pw) * qy); [ring | rewrite Hunit; ring].
  - transitivity ((px * px + py * py + pz * pz + pw * pw) * qz); [ring | rewrite Hunit; ring].
  - transitivity ((px * px + py * py + pz * pz + pw * pw) * qw); [ring | rewrite Hunit; ring].
Qed.

Lemma quaternion_diff_solves_witness :
  exists d r,
    Quaternion_diff (quaternion (Const 0) (Const 1) (Const 0) (Const 0) None)
      (quaternion (Sym "x") (Sym "x") (Sym "x") (Sym "x") None) = Ok d /\
    Quaternion_multiply (quaternion (Const 0) (Const 1) (Const 0) (Const 0) None) d
    = Ok r /\
    eval_matrix (fun _ => Some 2) (Quaternion_s r) = Some (mkMatrix 4 1 [2; 2; 2; 2]) /\
    Quaternion_reference_frame d = None /\
    Quaternion_reference_frame r
    = Quaternion_reference_frame (quaternion (Const 0) (Const 1) (Const 0) (Const 0) None).
Proof.
  apply (quaternion_diff_solves (fun _ => Some 2)
           (quaternion (Const 0) (Const 1) (Const 0) (Const 0) None)
           (quaternion (Sym "x") (Sym "x") (Sym "x") (Sym "x") None)
           0 1 0 0 2 2 2 2); [reflexivity | reflexivity | lra].
Defined.

(** X22: [multiply] is associative on the values, and the squared norm of a
    product is the product of the squared norms: unit quaternions stay unit
    quaternions. *)
Theorem quaternion_multiply_associative rho (p q r : Quaternion)
  (px py pz pw qx qy qz qw rx ry rz rw : R) :
  eval_matrix rho (Quaternion_s p) = Some (mkMatrix 4 1 [px; py; pz; pw]) ->
  eval_matrix rho (Quaternion_s q) = Some (mkMatrix 4 1 [qx; qy; qz; qw]) ->
  eval_matrix rho (Quaternion_s r) = Some (mkMatrix 4 1 [rx; ry; rz; rw]) ->
  exists pq qr left_ right_ a b c d x y z w,
    Quaternion_multiply p q = Ok pq /\
    Quaternion_multiply pq r = Ok left_ /\
    Quaternion_multiply q r = Ok qr /\
    Quaternion_multiply p qr = Ok right_ /\
    eval_matrix rho (Quaternion_s left_) = Some (mkMatrix 4 1 [a; b; c; d]) /\
    eval_matrix rho (Quaternion_s right_) = Some (mkMatrix 4 1 [a; b; c; d]) /\
    eval_matrix rho (Quaternion_s pq) = Some (mkMatrix 4 1 [x; y; z; w]) /\
    x * x + y * y + z * z + w * w
    = (px * px + py * py + pz * pz + pw * pw) * (qx * qx + qy * qy + qz * qz + qw * qw).
Proof.
  intros Hp Hq Hr.
  destruct p as [ps prf], q as [qs qrf], r as [rs rrf].
  cbn [Quaternion_s Quaternion_reference_frame] in *.
  apply eval_matrix_4 in Hp as (p0 & p1 & p2 & p3 & -> & Hp0 & Hp1 & Hp2 & Hp3).
  apply eval_matrix_4 in Hq as (q0 & q1 & q2 & q3 & -> & Hq0 & Hq1 & Hq2 & Hq3).
  apply eval_matrix_4 in Hr as (r0 & r1 & r2 & r3 & -> & Hr0 & Hr1 & Hr2 & Hr3).
  do 12 eexists.
  split; [cbv -[IZR]; reflexivity |].
  split; [cbv -[IZR]; reflexivity |].
  split; [cbv -[IZR]; reflexivity |].
  split; [cbv -[IZR]; reflexivity |].
  cbn [Quaternion_s].
  split; [apply eval_matrix_values; repeat constructor; values; reflexivity |].
  split; [apply eval_matrix_values; repeat constructor; values; f_equal; ring |].
  split; [apply eval_matrix_values; repeat constructor; values; reflexivity |].
  ring.
Qed.

Lemma quaternion_multiply_associative_witness :
  exists pq qr left_ right_ a b c d x y z w,
    Quaternion_multiply (quaternion (Const 1) (Const 0) (Const 0) (Const 0) None)
      (quaternion (Const 0) (Const 1) (Const 0) (Const 0) None) = Ok pq /\
    Quaternion_multiply pq (quaternion (Const 0) (Const 0) (Const 1) (Const 0) None)
    = Ok left_ /\
    Quaternion_multiply (quaternion (Const 0) (Const 1) (Const 0) (Const 0) None)
      (quaternion (Const 0) (Const 0) (Const 1) (Const 0) None) = Ok qr /\
    Quaternion_multiply (quaternion (Const 1) (Const 0) (Const 0) (Const 0) None) qr
    = Ok right_ /\
    eval_matrix no_binding (Quaternion_s left_) = Some (mkMatrix 4 1 [a; b; c; d]) /\
    eval_matrix no_binding (Quaternion_s right_) = Some (mkMatrix 4 1 [a; b; c; d]) /\
    eval_matrix no_binding (Quaternion_s pq) = Some (mkMatrix 4 1 [x; y; z; w]) /\
    x * x + y * y + z * z + w * w
    = (1 * 1 + 0 * 0 + 0 * 0 + 0 * 0) * (0 * 0 + 1 * 1 + 0 * 0 + 0 * 0).
Proof.
  apply (quaternion_multiply_associative no_binding
           (quaternion (Const 1) (Const 0) (Const 0) (Const 0) None)
           (quaternion (Const 0) (Const 1) (Const 0) (Const 0) None)
           (quaternion (Const 0) (Const 0) (Const 1) (Const 0) None)
           1 0 0 0 0 1 0 0 0 0 1 0); reflexivity.
Defined.

(** X24: The rotation matrix of a product of quaternions is the product of
    their rotation matrices: [from_quaternion(p.multiply(q))] and
    [from_quaternion(p).dot(from_quaternion(q))] have the same values, and
    the product of the matrices carries the reference frame of the left
    one. *)
Theorem rotation_matrix_of_product rho (p q : Quaternion)
  (px py pz pw qx qy qz qw : R) :
  eval_matrix rho (Quaternion_s p) = Some (mkMatrix 4 1 [px; py; pz; pw]) ->
  eval_matrix rho (Quaternion_s q) = Some (mkMatrix 4 1 [qx; qy; qz; qw]) ->
  exists pq rp rq rpq prod m,
    Quaternion_multiply p q = Ok pq /\
    RotationMatrix_from_quaternion p = Ok rp /\
    RotationMatrix_from_quaternion q = Ok rq /\
    RotationMatrix_from_quaternion pq = Ok rpq /\
    RotationMatrix_dot rp (PyRotationMatrix rq) = Ok (PyRotationMatrix prod) /\
    eval_matrix rho (RotationMatrix_s rpq) = Some m /\
    eval_matrix rho (RotationMatrix_s prod) = Some m /\
    RotationMatrix_reference_frame prod = Quaternion_reference_frame p.
Proof.
  intros Hp Hq.
  destruct p as [ps prf], q as [qs qrf].
  cbn [Quaternion_s Quaternion_reference_frame] in *.
  apply eval_matrix_4 in Hp as (p0 & p1 & p2 & p3 & -> & Hp0 & Hp1 & Hp2 & Hp3).
  apply eval_matrix_4 in Hq as (q0 & q1 & q2 & q3 & -> & Hq0 & Hq1 & Hq2 & Hq3).
  do 6 eexists.
  split; [cbv -[IZR]; reflexivity |].
  split; [cbv -[IZR]; reflexivity |].
  split; [cbv -[IZR]; reflexivity |].
  split; [cbv -[IZR]; reflexivity |].
  split; [cbv -[IZR]; reflexivity |].
  cbn [RotationMatrix_s RotationMatrix_reference_frame].
  split; [apply eval_matrix_values; repeat constructor; values; reflexivity |].
  split; [apply eval_matrix_values; repeat constructor; values; f_equal; ring |].
  reflexivity.
Qed.

Lemma rotation_matrix_of_product_witness :
  exists pq rp rq rpq prod m,
    Quaternion_multiply (quaternion (Const 0) (Const 1) (Const 0) (Const 0) None)
      (quaternion (Sym "x") (Sym "x") (Sym "x") (Sym "x") None) = Ok pq /\
    RotationMatrix_from_quaternion
      (quaternion (Const 0) (Const 1) (Const 0) (Const 0) None) = Ok rp /\
    RotationMatrix_from_quaternion
      (quaternion (Sym "x") (Sym "x") (Sym "x") (Sym "x") None) = Ok rq /\
    RotationMatrix_from_quaternion pq = Ok rpq /\
    RotationMatrix_dot rp (PyRotationMatrix rq) = Ok (PyRotationMatrix prod) /\
    eval_matrix (fun _ => Some 2) (RotationMatrix_s rpq) = Some m /\
    eval_matrix (fun _ => Some 2) (RotationMatrix_s prod) = Some m /\
    RotationMatrix_reference_frame prod
    = Quaternion_reference_frame
        (quaternion (Const 0) (Const 1) (Const 0) (Const 0) None).
Proof.
  apply (rotation_matrix_of_product (fun _ => Some 2)
           (quaternion (Const 0) (Const 1) (Const 0) (Const 0) None)
           (quaternion (Sym "x") (Sym "x") (Sym "x") (Sym "x") None)
           0 1 0 0 2 2 2 2); reflexivity.
Defined.

End QuaternionAlgebra.

Section Rotations.

(** ** Rotation matrices *)

Lemma eval_matrix_inv rho (s : SX) (r c : nat) (vs : list R) :
  eval_matrix rho s = Some (mkMatrix r c vs) ->
  exists l, s = mkMatrix r c l /\ Forall2 (fun e v => eval rho e = Some v) l vs.
Proof.
  destruct s as [r' c' l]. unfold eval_matrix. cbn [entries size1 size2].
  destruct (mapM (eval rho) l) as [vs' |] eqn:E; [| discriminate].
  intros H; injection H as -> -> ->.
  exists l. split; [reflexivity | apply mapM_Some_1; exact E].
Qed.

(** X27: A rotation matrix times its [inverse] is the identity.  The
    inverse is the transpose; it keeps the reference frame of the matrix
    and has no child frame. *)
Theorem rotation_times_inverse rho (r : RotationMatrix)
  (r00 r01 r02 r10 r11 r12 r20 r21 r22 : R) :
  eval_matrix rho (RotationMatrix_s r)
  = Some (rotation4 r00 r01 r02 r10 r11 r12 r20 r21 r22) ->
  orthonormal r00 r01 r02 r10 r11 r12 r20 r21 r22 ->
  exists inv prod,
    RotationMatrix_inverse r = Ok inv /\
    RotationMatrix_dot r (PyRotationMatrix inv) = Ok (PyRotationMatrix prod) /\
    eval_matrix rho (RotationMatrix_s inv)
    = Some (rotation4 r00 r10 r20 r01 r11 r21 r02 r12 r22) /\
    eval_matrix rho (RotationMatrix_s prod) = Some (rotation4 1 0 0 0 1 0 0 0 1) /\
    RotationMatrix_reference_frame inv = RotationMatrix_reference_frame r /\
    RotationMatrix_child_frame inv = None /\
    RotationMatrix_reference_frame prod = RotationMatrix_reference_frame r.
Proof.
  intros Hr (H00 & H11 & H22 & H01 & H02 & H12).
  destruct r as [s rf cf]. cbn [RotationMatrix_s RotationMatrix_reference_frame] in *.
  apply eval_matrix_inv in Hr as (l & -> & Hl).
  entries_of Hl.
  do 2 eexists.
  split; [cbv -[IZR]; reflexivity |].
  split; [cbv -[IZR]; reflexivity |].
  cbn [RotationMatrix_s RotationMatrix_reference_frame RotationMatrix_child_frame].
  split; [apply eval_matrix_values; repeat constructor; values; reflexivity |].
  split; [| repeat split].
  apply eval_matrix_values; repeat constructor; values; f_equal; lra.
Qed.

Lemma rotation_times_inverse_witness :
  exists inv prod,
    RotationMatrix_inverse
      (mkRotationMatrix
         (matrix4 (Const 0) (Const (-1)) (Const 0) (Const 0)
                  (Const 1) (Const 0) (Const 0) (Const 0)
                  (Const 0) (Const 0) (Const 1) (Const 0)
                  (Const 0) (Const 0) (Const 0) (Const 1)) None None) = Ok inv /\
    RotationMatrix_dot
      (mkRotationMatrix
         (matrix4 (Const 0) (Const (-1)) (Const 0) (Const 0)
                  (Const 1) (Const 0) (Const 0) (Const 0)
                  (Const 0) (Const 0) (Const 1) (Const 0)
                  (Const 0) (Const 0) (Const 0) (Const 1)) None None)
      (PyRotationMatrix inv) = Ok (PyRotationMatrix prod) /\
    eval_matrix no_binding (RotationMatrix_s inv)
    = Some (rotation4 0 1 0 (-1) 0 0 0 0 1) /\
    eval_matrix no_binding (RotationMatrix_s prod) = Some (rotation4 1 0 0 0 1 0 0 0 1) /\
    RotationMatrix_reference_frame inv = None /\
    RotationMatrix_child_frame inv = None /\
    RotationMatrix_reference_frame prod = None.
Proof.
  apply (rotation_times_inverse no_binding
           (mkRotationMatrix
              (matrix4 (Const 0) (Const (-1)) (Const 0) (Const 0)
                       (Const 1) (Const 0) (Const 0) (Const 0)
                       (Const 0) (Const 0) (Const 1) (Const 0)
                       (Const 0) (Const 0) (Const 0) (Const 1)) None None)
           0 (-1) 0 1 0 0 0 0 1); [reflexivity |].
  unfold orthonormal. repeat split; lra.
Defined.

Lemma from_rpy_values rho (roll pitch yaw : scalar_operand)
  (vr vp vy : R) (rf : option Body) :
  eval rho (entry roll) = Some vr ->
  eval rho (entry pitch) = Some vp ->
  eval rho (entry yaw) = Some vy ->
  let cr := Rtrigo_def.cos vr in let sr := Rtrigo_def.sin vr in
  let cp := Rtrigo_def.cos vp in let sp := Rtrigo_def.sin vp in
  let cy := Rtrigo_def.cos vy in let sy := Rtrigo_def.sin vy in
  exists r,
    RotationMatrix_from_rpy (Some (operand roll)) (Some (operand pitch))
      (Some (operand yaw)) rf = Ok r /\
    RotationMatrix_reference_frame r = rf /\
    eval_matrix rho (RotationMatrix_s r)
    = Some (rotation4 (cy * cp) (cy * sp * sr - sy * cr) (sy * sr + cy * sp * cr)
              (sy * cp) (cy * cr + sy * sp * sr) (sy * sp * cr - cy * sr)
              (- sp) (cp * sr) (cp * cr)).
Proof.
  intros Hr Hp Hy. cbv zeta.
  destruct roll, pitch, yaw; cbn [entry eval] in Hr, Hp, Hy;
    try (injection Hr as ->); try (injection Hp as ->); try (injection Hy as ->);
    (eexists; split; [cbv -[IZR Rtrigo_def.cos Rtrigo_def.sin]; reflexivity |];
     split; [reflexivity |];
     cbn [RotationMatrix_s]; apply eval_matrix_values; repeat constructor;
     cbn [eval obind eval_binop eval_unop];
     rewrite ?Hr, ?Hp, ?Hy; cbn [eval obind eval_binop eval_unop];
     f_equal; ring).
Qed.

(** X26: [RotationMatrix.from_rpy] builds a rotation for all angles: the
    rows of the matrix have length one and are orthogonal.  Angles left out
    count as 0, which gives the identity. *)
Theorem from_rpy_is_orthonormal rho (roll pitch yaw : scalar_operand)
  (vr vp vy : R) (rf : option Body) :
  eval rho (entry roll) = Some vr ->
  eval rho (entry pitch) = Some vp ->
  eval rho (entry yaw) = Some vy ->
  let cr := Rtrigo_def.cos vr in let sr := Rtrigo_def.sin vr in
  let cp := Rtrigo_def.cos vp in let sp := Rtrigo_def.sin vp in
  let cy := Rtrigo_def.cos vy in let sy := Rtrigo_def.sin vy in
  (exists r,
     RotationMatrix_from_rpy (Some (operand roll)) (Some (operand pitch))
       (Some (operand yaw)) rf = Ok r /\
     RotationMatrix_reference_frame r = rf /\
     eval_matrix rho (RotationMatrix_s r)
     = Some (rotation4 (cy * cp) (cy * sp * sr - sy * cr) (sy * sr + cy * sp * cr)
               (sy * cp) (cy * cr + sy * sp * sr) (sy * sp * cr - cy * sr)
               (- sp) (cp * sr) (cp * cr))) /\
  orthonormal (cy * cp) (cy * sp * sr - sy * cr) (sy * sr + cy * sp * cr)
    (sy * cp) (cy * cr + sy * sp * sr) (sy * sp * cr - cy * sr)
    (- sp) (cp * sr) (cp * cr) /\
  (exists r,
     RotationMatrix_from_rpy None None None rf = Ok r /\
     eval_matrix rho (RotationMatrix_s r) = Some (rotation4 1 0 0 0 1 0 0 0 1)).
Proof.
  intros Hr Hp Hy. cbv zeta.
  split; [apply (from_rpy_values rho roll pitch yaw vr vp vy rf Hr Hp Hy) |].
  split.
  - pose proof (sin2_cos2 vr) as Er. pose proof (sin2_cos2 vp) as Ep.
    pose proof (sin2_cos2 vy) as Ey. unfold Rsqr in *.
    set (cr := Rtrigo_def.cos vr) in *. set (sr := Rtrigo_def.sin vr) in *.
    set (cp := Rtrigo_def.cos vp) in *. set (sp := Rtrigo_def.sin vp) in *.
    set (cy := Rtrigo_def.cos vy) in *. set (sy := Rtrigo_def.sin vy) in *.
    clearbody cr sr cp sp cy sy.
    unfold orthonormal. repeat split; nsatz.
  - eexists. split; [cbv -[IZR Rtrigo_def.cos Rtrigo_def.sin]; reflexivity |].
    cbn [RotationMatrix_s]. apply eval_matrix_values. repeat constructor;
      cbn [eval]; f_equal; rewrite ?cos_0, ?sin_0; ring.
Qed.

Lemma from_rpy_is_orthonormal_witness :
  let cr := Rtrigo_def.cos 1 in let sr := Rtrigo_def.sin 1 in
  let cp := Rtrigo_def.cos 2 in let sp := Rtrigo_def.sin 2 in
  let cy := Rtrigo_def.cos 3 in let sy := Rtrigo_def.sin 3 in
  (exists r,
     RotationMatrix_from_rpy (Some (PyNum 1)) (Some (PyNum 2)) (Some (PySymbol "yaw")) None
     = Ok r /\
     RotationMatrix_reference_frame r = None /\
     eval_matrix (fun _ => Some 3) (RotationMatrix_s r)
     = Some (rotation4 (cy * cp) (cy * sp * sr - sy * cr) (sy * sr + cy * sp * cr)
               (sy * cp) (cy * cr + sy * sp * sr) (sy * sp * cr - cy * sr)
               (- sp) (cp * sr) (cp * cr))) /\
  orthonormal (cy * cp) (cy * sp * sr - sy * cr) (sy * sr + cy * sp * cr)
    (sy * cp) (cy * cr + sy * sp * sr) (sy * sp * cr - cy * sr)
    (- sp) (cp * sr) (cp * cr) /\
  (exists r,
     RotationMatrix_from_rpy None None None None = Ok r /\
     eval_matrix (fun _ => Some 3) (RotationMatrix_s r)
     = Some (rotation4 1 0 0 0 1 0 0 0 1)).
Proof.
  apply (from_rpy_is_orthonormal (fun _ => Some 3) (Num 1) (Num 2) (Symb "yaw") 1 2 3 None);
    reflexivity.
Defined.

Lemma Expression_operand (c : scalar_operand) :
  Expression___init__ (operand c) = Ok (scalar (entry c)).
Proof. destruct c; reflexivity. Qed.

Lemma Rzero_2 : Rzero 2 = false.
Proof. apply Rzero_false. lra. Qed.

Lemma half_angle v :
  Rtrigo_def.cos v
  = Rtrigo_def.cos (v / 2) * Rtrigo_def.cos (v / 2)
    - Rtrigo_def.sin (v / 2) * Rtrigo_def.sin (v / 2) /\
  Rtrigo_def.sin v = 2 * Rtrigo_def.sin (v / 2) * Rtrigo_def.cos (v / 2).
Proof.
  split.
  - rewrite <- cos_2a. f_equal. field.
  - rewrite <- sin_2a. f_equal. field.
Qed.

(** X25: [Quaternion.from_rpy] gives a unit quaternion for all angles, and
    its rotation matrix has the values of [RotationMatrix.from_rpy] for the
    same angles. *)
Theorem quaternion_from_rpy_agrees rho (roll pitch yaw : scalar_operand)
  (vr vp vy : R) (rf : option Body) :
  eval rho (entry roll) = Some vr ->
  eval rho (entry pitch) = Some vp ->
  eval rho (entry yaw) = Some vy ->
  exists q x y z w rq r m,
    Quaternion_from_rpy (operand roll) (operand pitch) (operand yaw) rf = Ok q /\
    Quaternion_reference_frame q = rf /\
    eval_matrix rho (Quaternion_s q) = Some (mkMatrix 4 1 [x; y; z; w]) /\
    x * x + y * y + z * z + w * w = 1 /\
    Quaternion_to_rotation_matrix q = Ok rq /\
    RotationMatrix_from_rpy (Some (operand roll)) (Some (operand pitch))
      (Some (operand yaw)) rf = Ok r /\
    eval_matrix rho (RotationMatrix_s rq) = Some m /\
    eval_matrix rho (RotationMatrix_s r) = Some m.
Proof.
  intros Hr Hp Hy.
  destruct (from_rpy_values rho roll pitch yaw vr vp vy rf Hr Hp Hy)
    as (r & Er & _ & Vr).
  cbv zeta in Vr.
  destruct (half_angle vr) as [Cr Sr]. destruct (half_angle vp) as [Cp Sp].
  destruct (half_angle vy) as [Cy Sy].
  rewrite Cr, Sr, Cp, Sp, Cy, Sy in Vr.
  clear Cr Sr Cp Sp Cy Sy.
  pose proof (sin2_cos2 (vr / 2)) as Ur. pose proof (sin2_cos2 (vp / 2)) as Up.
  pose proof (sin2_cos2 (vy / 2)) as Uy. unfold Rsqr in *.
  unfold Quaternion_from_rpy, Quaternion_to_rotation_matrix.
  rewrite !Expression_operand. cbn [bind].
  set (er := entry roll) in *. set (ep := entry pitch) in *. set (ey := entry yaw) in *.
  clearbody er ep ey.
  do 8 eexists.
  split; [cbv -[IZR]; reflexivity |].
  split; [reflexivity |].
  split.
  { cbn [Quaternion_s]. apply eval_matrix_values; repeat constructor;
      values; rewrite ?Rzero_2; cbn [obind eval_unop]; reflexivity. }
  set (cr := Rtrigo_def.cos (vr / 2)) in *. set (sr := Rtrigo_def.sin (vr / 2)) in *.
  set (cp := Rtrigo_def.cos (vp / 2)) in *. set (sp := Rtrigo_def.sin (vp / 2)) in *.
  set (cy := Rtrigo_def.cos (vy / 2)) in *. set (sy := Rtrigo_def.sin (vy / 2)) in *.
  split; [clearbody cr sr cp sp cy sy; nsatz |].
  split; [cbv -[IZR]; reflexivity |].
  split; [exact Er |].
  split; [| exact Vr].
  cbn [RotationMatrix_s]. unfold rotation4.
  apply eval_matrix_values; repeat constructor;
    values; rewrite ?Rzero_2; cbn [obind eval_unop eval_binop];
    fold cr sr cp sp cy sy; f_equal; clearbody cr sr cp sp cy sy; nsatz.
Qed.

Lemma quaternion_from_rpy_agrees_witness :
  exists q x y z w rq r m,
    Quaternion_from_rpy (PyNum 1) (PySymbol "pitch") (PyNum 3) None = Ok q /\
    Quaternion_reference_frame q = None /\
    eval_matrix (fun _ => Some 2) (Quaternion_s q) = Some (mkMatrix 4 1 [x; y; z; w]) /\
    x * x + y * y + z * z + w * w = 1 /\
    Quaternion_to_rotation_matrix q = Ok rq /\
    RotationMatrix_from_rpy (Some (PyNum 1)) (Some (PySymbol "pitch")) (Some (PyNum 3)) None
    = Ok r /\
    eval_matrix (fun _ => Some 2) (RotationMatrix_s rq) = Some m /\
    eval_matrix (fun _ => Some 2) (RotationMatrix_s r) = Some m.
Proof.
  apply (quaternion_from_rpy_agrees (fun _ => Some 2) (Num 1) (Symb "pitch") (Num 3)
           1 2 3 None); reflexivity.
Defined.

End Rotations.

Section CompiledCalls.

(** ** Calls of compiled functions *)

Import Compilation.

Lemma ca_Function_no_duplicates parameters expression f :
  ca_Function parameters expression = Ok f ->
  has_duplicates (concat parameters) = false.
Proof.
  unfold ca_Function.
  destruct (has_duplicates (concat parameters)); [discriminate | reflexivity].
Qed.

Lemma overwrite_same_length (values old : list (option R)) :
  length values = length old -> overwrite values old = values.
Proof.
  intros H. unfold overwrite. rewrite skipn_all2 by lia. apply app_nil_r.
Qed.

(** Binding one array per input replaces every array bound before. *)
Lemma set_all_args_any f (args : list (list R)) (b : buffer) :
  Forall2 (fun g a => (length g <= length a)%nat) (inputs f) args ->
  length b = length (inputs f) ->
  SpatialTypes.for_each (combine (seq 0 (length args)) args)
    (fun b '(arg_idx, arg) => set_arg f b arg_idx arg) b
  = Ok (map Some args).
Proof.
  intros H Hb.
  assert (G : forall (todo : list (list R)) (done_ : list (list R)) (gs : list (list string))
                     (rest : buffer),
             Forall2 (fun g a => (length g <= length a)%nat) gs todo ->
             length rest = length todo ->
             (forall k g, nth_error gs k = Some g ->
                          nth_error (inputs f) (length done_ + k) = Some g) ->
             SpatialTypes.for_each (combine (seq (length done_) (length todo)) todo)
               (fun b '(arg_idx, arg) => set_arg f b arg_idx arg)
               (map Some done_ ++ rest)
             = Ok (map Some (done_ ++ todo))).
  { induction todo as [| a todo IH]; intros done_ gs rest HF Hr Hnth.
    - destruct rest; [| discriminate]. cbn. rewrite !app_nil_r. reflexivity.
    - inversion HF as [| g ? gs' ? Hga HF']; subst.
      destruct rest as [| r0 rest]; [discriminate |].
      cbn [length seq combine SpatialTypes.for_each].
      unfold set_arg at 1.
      pose proof (Hnth 0%nat g eq_refl) as H0.
      rewrite Nat.add_0_r in H0. rewrite H0.
      destruct (length a <? length g)%nat eqn:E;
        [apply Nat.ltb_lt in E; lia |].
      cbn [bind].
      assert (Hl : length (map Some done_ : list (option (list R))) = length done_)
        by apply length_map.
      rewrite firstn_app, Hl, Nat.sub_diag, firstn_all2 by lia.
      cbn [firstn]. rewrite app_nil_r.
      rewrite skipn_app, Hl, skipn_all2 by lia.
      replace (S (length done_) - length done_)%nat with 1%nat by lia.
      cbn [skipn app]. rewrite ?skipn_O.
      specialize (IH (done_ ++ [a]) gs' rest HF').
      rewrite length_app in IH. cbn [length] in IH.
      replace (length done_ + 1)%nat with (S (length done_)) in IH by lia.
      rewrite map_app in IH. cbn [map] in IH.
      rewrite <- app_assoc in IH. cbn [app] in IH.
      rewrite IH.
      + rewrite <- app_assoc. reflexivity.
      + cbn in Hr. lia.
      + intros k g' Hk. replace (S (length done_) + k)%nat with (length done_ + S k)%nat by lia.
        apply Hnth. exact Hk. }
  specialize (G args [] (inputs f) b H).
  cbn [length map app] in G.
  apply G.
  - rewrite Hb. exact (Forall2_length _ _ _ H).
  - intros k g Hk. exact Hk.
Qed.

(** What [compile] makes of an expression and groups of parameters. *)
Lemma compile_dense expression groups f0 :
  groups <> [] ->
  compile expression (Groups groups) false = Ok f0 ->
  has_duplicates (concat groups) = false /\
  (forall n, In n (free_of expression) -> In n (concat groups)) /\
  f0 = mkCompiledFunction false groups (Some (mkFunction groups expression))
         (repeat None (length groups))
         (if (size2 expression <=? 1)%nat
          then Dense (Array1 (zeros (size1 expression)))
          else Dense (Array2 (size1 expression) (size2 expression)
                        (zeros (size1 expression * size2 expression))))
         None.
Proof.
  intros Hne. unfold compile, CompiledFunction___init__.
  rewrite andb_false_r.
  destruct (ca_Function groups expression) as [f |] eqn:Ef; [| discriminate].
  pose proof (ca_Function_no_duplicates _ _ _ Ef) as Hd.
  apply ca_Function_ok in Ef as [-> Hfree]. cbn [bind].
  destruct groups as [| g groups]; [contradiction |].
  cbn [length Nat.eqb]. intros Hf; injection Hf as <-.
  split; [exact Hd |]. split; [exact Hfree | reflexivity].
Qed.

Lemma nonzeros_symbols expression n :
  In n (free_of expression) ->
  In n (free_of (mkMatrix (size1 expression) (size2 expression) (nonzeros expression))).
Proof.
  unfold free_of, nonzeros. cbn [entries]. rewrite !in_flat_map.
  intros (e & He & Hn). exists e. split; [| exact Hn].
  apply filter_In. split; [exact He |].
  destruct e; try reflexivity. contradiction.
Qed.

Lemma compile_sparse expression groups f0 :
  groups <> [] -> (0 < size1 expression)%nat ->
  compile expression (Groups groups) true = Ok f0 ->
  has_duplicates (concat groups) = false /\
  (forall n, In n (free_of expression) -> In n (concat groups)) /\
  f0 = mkCompiledFunction true groups
         (Some (mkFunction groups
                  (mkMatrix (size1 expression) (size2 expression) (nonzeros expression))))
         (repeat None (length groups))
         (Sparse (mkCsc (shape expression) (zeros (length (nonzeros expression)))
                    (snd (get_ccs expression)) (fst (get_ccs expression))))
         None.
Proof.
  intros Hne Hpos. unfold compile, CompiledFunction___init__.
  destruct (size1 expression =? 0)%nat eqn:E0;
    [apply Nat.eqb_eq in E0; lia |].
  cbn [andb].
  destruct (ca_Function groups _) as [f |] eqn:Ef; [| discriminate].
  pose proof (ca_Function_no_duplicates _ _ _ Ef) as Hd.
  apply ca_Function_ok in Ef as [-> Hfree]. cbn [bind].
  destruct (get_ccs expression) as [i p] eqn:Eccs. cbn [bind fst snd].
  destruct groups as [| g groups]; [contradiction |].
  cbn [length Nat.eqb]. intros Hf; injection Hf as <-.
  split; [exact Hd |]. split; [| reflexivity].
  intros n Hn. apply Hfree, nonzeros_symbols, Hn.
Qed.

(** The positional call of a dense function in any state in use. *)
Lemma fast_call_dense_in_use expression groups (args : list (list R)) f0 f :
  groups <> [] -> wf expression -> (0 < size2 expression)%nat ->
  Forall2 (fun g a => (length g <= length a)%nat) groups args ->
  compile expression (Groups groups) false = Ok f0 ->
  in_use f0 f ->
  exists f',
    CompiledFunction_fast_call f args
    = Ok (dense_of expression
            (map (eval (read groups (map Some args))) (entries expression)), f') /\
    in_use f0 f' /\
    function_buffer f' = map Some args.
Proof.
  intros Hne Hwf Hpos Hargs Hf0 Huse.
  destruct (compile_dense _ _ _ Hne Hf0) as (_ & _ & ->).
  destruct f as [s sp cf b o c].
  destruct Huse as (Hs & Hsp & Hcf & Hc & Hb & Ho).
  cbn [Compilation.sparse symbol_parameters compiled_casadi_function constant
         function_buffer Compilation.out] in Hs, Hsp, Hcf, Hc, Hb, Ho.
  subst s sp cf c. rewrite repeat_length in Hb.
  unfold CompiledFunction_fast_call.
  cbn [constant compiled_casadi_function function_buffer].
  rewrite (set_all_args_any (mkFunction groups expression) args b Hargs Hb).
  cbn [bind].
  unfold function_evaluator, evaluate.
  cbn [Compilation.sparse symbol_parameters compiled_casadi_function constant
         function_buffer Compilation.out inputs output].
  set (values := map (eval (read groups (map Some args))) (entries expression)).
  assert (L : length values = (size1 expression * size2 expression)%nat)
    by (unfold values; rewrite length_map; exact Hwf).
  unfold dense_of.
  destruct (size2 expression <=? 1)%nat eqn:E.
  - apply Nat.leb_le in E.
    destruct o as [[d | r c d] | m]; cbn [same_layout] in Ho; try contradiction.
    unfold zeros in Ho. rewrite repeat_length in Ho.
    rewrite overwrite_same_length by (rewrite L, Ho; nia).
    eexists. split; [reflexivity |].
    split; [| reflexivity].
    repeat split; cbn; try reflexivity.
    + rewrite length_map, repeat_length. symmetry. exact (Forall2_length _ _ _ Hargs).
    + unfold zeros. rewrite repeat_length, L. nia.
  - destruct o as [[d | r c d] | m]; cbn [same_layout] in Ho; try contradiction.
    destruct Ho as (-> & -> & Ho).
    unfold zeros in Ho. rewrite repeat_length in Ho.
    rewrite overwrite_same_length by (rewrite L, Ho; reflexivity).
    eexists. split; [reflexivity |].
    split; [| reflexivity].
    repeat split; cbn; try reflexivity.
    + rewrite length_map, repeat_length. symmetry. exact (Forall2_length _ _ _ Hargs).
    + unfold zeros. rewrite repeat_length, L. reflexivity.
Qed.

(** The same in sparse mode: the compressed matrix returned stands for the
    values of all entries. *)
Lemma fast_call_sparse_in_use expression groups (args : list (list R)) f0 f :
  groups <> [] -> wf expression -> (0 < size1 expression)%nat ->
  Forall2 (fun g a => (length g <= length a)%nat) groups args ->
  compile expression (Groups groups) true = Ok f0 ->
  in_use f0 f ->
  exists m f',
    CompiledFunction_fast_call f args = Ok (Sparse m, f') /\
    toarray m
    = Array2 (size1 expression) (size2 expression)
        (map (eval (read groups (map Some args))) (entries expression)) /\
    in_use f0 f' /\
    function_buffer f' = map Some args.
Proof.
  intros Hne Hwf Hpos Hargs Hf0 Huse.
  destruct (compile_sparse _ _ _ Hne Hpos Hf0) as (_ & _ & ->).
  destruct f as [s sp cf b o c].
  destruct Huse as (Hs & Hsp & Hcf & Hc & Hb & Ho).
  cbn [Compilation.sparse symbol_parameters compiled_casadi_function constant
         function_buffer Compilation.out] in Hs, Hsp, Hcf, Hc, Hb, Ho.
  subst s sp cf c. rewrite repeat_length in Hb.
  destruct o as [[d | r c d] | m]; cbn [same_layout] in Ho; try contradiction.
  destruct m as [sh data ind ptr].
  cbn [csc_shape csc_data csc_indices csc_indptr] in Ho.
  destruct Ho as (-> & -> & -> & Ho).
  unfold zeros in Ho. rewrite repeat_length in Ho.
  unfold CompiledFunction_fast_call.
  cbn [constant compiled_casadi_function function_buffer].
  rewrite (set_all_args_any
             (mkFunction groups
                (mkMatrix (size1 expression) (size2 expression) (nonzeros expression)))
             args b Hargs Hb).
  cbn [bind].
  unfold function_evaluator, evaluate.
  cbn [Compilation.sparse symbol_parameters compiled_casadi_function
         Compilation.out constant function_buffer inputs output entries
         csc_shape csc_data csc_indices csc_indptr].
  rewrite overwrite_same_length by (rewrite length_map; symmetry; exact Ho).
  do 2 eexists. split; [reflexivity |].
  split; [| split; [| reflexivity]].
  - unfold toarray, shape, get_ccs. cbn [csc_shape fst snd]. f_equal.
    set (rho := read groups (map Some args)).
    set (cols := columns (size1 expression) (size2 expression) (entries expression)).
    rewrite <- (columns_values (eval rho) (Const 0) (size1 expression)
                  (size2 expression) (entries expression) Hwf).
    fold cols.
    rewrite !flat_map_concat_map. f_equal.
    apply map_ext_in. intros j Hj. apply in_seq in Hj.
    apply map_ext_in. intros i Hi. apply in_seq in Hi.
    assert (Hc : nth_error cols j = Some (nth j cols [])).
    { apply nth_error_nth'. unfold cols. rewrite columns_length. lia. }
    unfold nonzeros.
    rewrite <- (columns_concat (size1 expression) (size2 expression)
                  (entries expression) Hwf) at 1.
    fold cols. rewrite <- (flat_map_concat_map column_rows cols).
    apply csc_entry_of_columns; [exact Hc |].
    rewrite (columns_nth_length _ _ _ _ _ Hwf Hc). lia.
  - repeat split; cbn; try reflexivity.
    + rewrite length_map, repeat_length. symmetry. exact (Forall2_length _ _ _ Hargs).
    + unfold zeros. rewrite length_map, repeat_length. reflexivity.
Qed.

(** X1: The positional call with one array per group of parameters returns
    the values of the entries under the binding that gives the j-th symbol
    of the i-th group the j-th number of the i-th array.  This holds for
    every call, not only the first: the arrays bound and the numbers
    written by earlier calls do not count, and the call leaves the object
    in a state in use again, with the arrays of this call bound. *)
Theorem fast_call_substitutes expression groups (args : list (list R)) f0 f :
  groups <> [] -> wf expression -> (0 < size2 expression)%nat ->
  Forall2 (fun g a => (length g <= length a)%nat) groups args ->
  compile expression (Groups groups) false = Ok f0 ->
  in_use f0 f ->
  exists rho f',
    CompiledFunction_fast_call f args
    = Ok (dense_of expression (map (eval rho) (entries expression)), f') /\
    (forall i j g a n,
        nth_error groups i = Some g -> nth_error g j = Some n ->
        nth_error args i = Some a -> rho n = nth_error a j) /\
    in_use f0 f' /\
    function_buffer f' = map Some args.
Proof.
  intros Hne Hwf Hpos Hargs Hf0 Huse.
  destruct (fast_call_dense_in_use expression groups args f0 f Hne Hwf Hpos Hargs Hf0 Huse)
    as (f' & Hcall & Huse' & Hb).
  exists (read groups (map Some args)), f'. split; [exact Hcall |].
  split; [| split; assumption].
  intros i j g a n Hg Hn Ha.
  apply (read_at groups args i j g a n); try assumption.
  exact (proj1 (compile_dense _ _ _ Hne Hf0)).
Qed.

(** The function of a - b with the groups [a] and [b], after a call with 1
    and 2, called with 5 and 3. *)
Lemma fast_call_substitutes_witness :
  let expression := scalar (Bin OpSub (Sym "a") (Sym "b")) in
  let groups := [["a"]; ["b"]] in
  let f0 := mkCompiledFunction false groups (Some (mkFunction groups expression))
              [None; None] (Dense (Array1 [Some 0])) None in
  let f := mkCompiledFunction false groups (Some (mkFunction groups expression))
             [Some [1]; Some [2]] (Dense (Array1 [Some (-1)])) None in
  exists rho f',
    CompiledFunction_fast_call f [[5]; [3]]
    = Ok (dense_of expression (map (eval rho) (entries expression)), f') /\
    (forall i j g a n,
        nth_error groups i = Some g -> nth_error g j = Some n ->
        nth_error [[5]; [3]] i = Some a -> rho n = nth_error a j) /\
    in_use f0 f' /\
    function_buffer f' = map Some [[5]; [3]].
Proof.
  apply (fast_call_substitutes (scalar (Bin OpSub (Sym "a") (Sym "b")))
           [["a"]; ["b"]] [[5]; [3]]).
  - discriminate.
  - reflexivity.
  - cbn; lia.
  - repeat constructor.
  - reflexivity.
  - repeat split.
Defined.

(** X2: The positional call in sparse mode: the matrix in compressed
    column form that is returned stands for the values of the entries under
    the same binding, in every call. *)
Theorem fast_call_substitutes_sparse expression groups (args : list (list R)) f0 f :
  groups <> [] -> wf expression -> (0 < size1 expression)%nat ->
  Forall2 (fun g a => (length g <= length a)%nat) groups args ->
  compile expression (Groups groups) true = Ok f0 ->
  in_use f0 f ->
  exists rho m f',
    CompiledFunction_fast_call f args = Ok (Sparse m, f') /\
    toarray m
    = Array2 (size1 expression) (size2 expression)
        (map (eval rho) (entries expression)) /\
    (forall i j g a n,
        nth_error groups i = Some g -> nth_error g j = Some n ->
        nth_error args i = Some a -> rho n = nth_error a j) /\
    in_use f0 f' /\
    function_buffer f' = map Some args.
Proof.
  intros Hne Hwf Hpos Hargs Hf0 Huse.
  destruct (fast_call_sparse_in_use expression groups args f0 f Hne Hwf Hpos Hargs Hf0 Huse)
    as (m & f' & Hcall & Harr & Huse' & Hb).
  exists (read groups (map Some args)), m, f'.
  split; [exact Hcall |]. split; [exact Harr |].
  split; [| split; assumption].
  intros i j g a n Hg Hn Ha.
  apply (read_at groups args i j g a n); try assumption.
  exact (proj1 (compile_sparse _ _ _ Hne Hpos Hf0)).
Qed.

(** The diagonal matrix of a and b, after a call with 1 and 2, called with
    3 and 4. *)
Lemma fast_call_substitutes_sparse_witness :
  let expression := mkMatrix 2 2 [Sym "a"; Const 0; Const 0; Sym "b"] in
  let groups := [["a"; "b"]] in
  let f0 := mkCompiledFunction true groups
              (Some (mkFunction groups (mkMatrix 2 2 [Sym "a"; Sym "b"])))
              [None] (Sparse (mkCsc (2, 2)%nat [Some 0; Some 0] [0; 1]%nat [0; 1; 2]%nat))
              None in
  let f := mkCompiledFunction true groups
             (Some (mkFunction groups (mkMatrix 2 2 [Sym "a"; Sym "b"])))
             [Some [1; 2]]
             (Sparse (mkCsc (2, 2)%nat [Some 1; Some 2] [0; 1]%nat [0; 1; 2]%nat))
             None in
  exists rho m f',
    CompiledFunction_fast_call f [[3; 4]] = Ok (Sparse m, f') /\
    toarray m = Array2 2 2 (map (eval rho) (entries expression)) /\
    (forall i j g a n,
        nth_error groups i = Some g -> nth_error g j = Some n ->
        nth_error [[3; 4]] i = Some a -> rho n = nth_error a j) /\
    in_use f0 f' /\
    function_buffer f' = map Some [[3; 4]].
Proof.
  apply (fast_call_substitutes_sparse (mkMatrix 2 2 [Sym "a"; Const 0; Const 0; Sym "b"])
           [["a"; "b"]] [[3; 4]]).
  - discriminate.
  - reflexivity.
  - cbn; lia.
  - repeat constructor.
  - unfold compile, CompiledFunction___init__, nonzeros, get_ccs, column_rows.
    cbn. rewrite !Rzero_0. cbn. reflexivity.
  - repeat split.
Defined.

Lemma lookups_ext (kwargs kwargs' : gmap string R) (params : list string) :
  (forall n, In n params -> kwargs !! n = kwargs' !! n) ->
  SpatialTypes.rmap
    (fun param => match kwargs !! param with
                  | Some v => Ok v
                  | None => Raise KeyError
                  end) params
  = SpatialTypes.rmap
      (fun param => match kwargs' !! param with
                    | Some v => Ok v
                    | None => Raise KeyError
                    end) params.
Proof.
  induction params as [| p params IH]; intros H; [reflexivity |].
  cbn [SpatialTypes.rmap]. rewrite (H p) by (left; reflexivity).
  rewrite IH by (intros n Hn; apply H; right; exact Hn). reflexivity.
Qed.

Lemma lookups_missing (kwargs : gmap string R) (params : list string) (n : string) :
  In n params -> kwargs !! n = None ->
  SpatialTypes.rmap
    (fun param => match kwargs !! param with
                  | Some v => Ok v
                  | None => Raise KeyError
                  end) params
  = Raise KeyError.
Proof.
  induction params as [| p params IH]; intros Hin Hn; [contradiction |].
  cbn [SpatialTypes.rmap].
  destruct (kwargs !! p) as [v |] eqn:E; [| reflexivity].
  cbn [bind].
  destruct Hin as [-> | Hin]; [congruence |].
  rewrite (IH Hin Hn). reflexivity.
Qed.

(** X5: The keyword call looks every declared parameter up before it runs
    the function: a parameter without a value raises KeyError, and keywords
    that name no parameter are ignored. *)
Theorem keyword_call_lookups (f : CompiledFunction) (kwargs : gmap string R) :
  (forall n, In n (concat (symbol_parameters f)) -> kwargs !! n = None ->
             CompiledFunction___call__ f kwargs = Raise KeyError) /\
  (forall kwargs' : gmap string R,
      (forall n, In n (concat (symbol_parameters f)) -> kwargs !! n = kwargs' !! n) ->
      CompiledFunction___call__ f kwargs = CompiledFunction___call__ f kwargs').
Proof.
  split.
  - intros n Hin Hn. unfold CompiledFunction___call__.
    rewrite (lookups_missing kwargs _ n Hin Hn). reflexivity.
  - intros kwargs' H. unfold CompiledFunction___call__.
    rewrite (lookups_ext kwargs kwargs' _ H). reflexivity.
Qed.

(** The values looked up for the names of a group that all have one. *)
Lemma lookups_defined (kwargs : gmap string R) (group : list string) :
  (forall n, In n group -> is_Some (kwargs !! n)) ->
  exists vals,
    SpatialTypes.rmap
      (fun param => match kwargs !! param with
                    | Some v => Ok v
                    | None => Raise KeyError
                    end) group = Ok vals /\ length vals = length group.
Proof.
  induction group as [| x t IH]; intros Hkw.
  - exists []; split; reflexivity.
  - destruct (Hkw x (or_introl eq_refl)) as [v Hv].
    destruct IH as (vals & Hvals & Hlen); [intros; apply Hkw; right; assumption |].
    exists (v :: vals). cbn. rewrite Hv. cbn. rewrite Hvals. cbn.
    split; [reflexivity | congruence].
Qed.

(** The array of the values looked up binds every symbol of the group to
    its keyword value. *)
Lemma read_lookups (kwargs : gmap string R) (group : list string) (vals : list R)
  (expression : SX) :
  SpatialTypes.rmap
    (fun param => match kwargs !! param with
                  | Some v => Ok v
                  | None => Raise KeyError
                  end) group = Ok vals ->
  (forall n, In n (free_of expression) -> In n group) ->
  map (eval (read [group] (map Some [vals]))) (entries expression)
  = substitute kwargs expression.
Proof.
  intros Hvals Hfree. unfold substitute. apply map_ext_in. intros e He.
  apply eval_ext. intros n Hn.
  assert (Hin : In n group).
  { apply Hfree. unfold free_of. apply in_flat_map. exists e; split; assumption. }
  destruct (index_of_In n group Hin) as [k Hk].
  cbn [read map]. rewrite Hk.
  pose proof (lookups_at kwargs n group vals k Hvals Hk) as Hl.
  destruct (nth_error vals k) as [v |] eqn:Ev; cbn in Hl.
  - injection Hl as Hl. exact Hl.
  - discriminate Hl.
Qed.

(** X3: the keyword call of a function compiled with a single group of
    parameters returns the values obtained by substitution, in dense and
    in sparse mode and in every call. *)
Theorem keyword_call_single_group expression params (sparse_ : bool)
  (kwargs : gmap string R) f0 f :
  params <> [] -> wf expression ->
  (if sparse_ then 0 < size1 expression else 0 < size2 expression)%nat ->
  (forall n, In n params -> is_Some (kwargs !! n)) ->
  compile expression (Symbols params) sparse_ = Ok f0 ->
  in_use f0 f ->
  exists r f',
    CompiledFunction___call__ f kwargs = Ok (r, f') /\
    in_use f0 f' /\
    if sparse_
    then exists m, r = Sparse m /\
                   toarray m = Array2 (size1 expression) (size2 expression)
                                 (substitute kwargs expression)
    else r = dense_of expression (substitute kwargs expression).
Proof.
  intros Hne Hwf Hpos Hkw Hf0 Huse.
  destruct params as [| p params]; [contradiction |].
  set (group := p :: params) in *.
  change (compile expression (Groups [group]) sparse_ = Ok f0) in Hf0.
  assert (Hg : [group] <> []) by discriminate.
  destruct (lookups_defined kwargs group Hkw) as (vals & Hvals & Hlen).
  assert (Hargs : Forall2 (fun g a => (length g <= length a)%nat) [group] [vals])
    by (repeat constructor; lia).
  assert (Hsp : symbol_parameters f = [group] /\
                forall n, In n (free_of expression) -> In n group).
  { destruct Huse as (_ & Hsp & _). rewrite Hsp.
    destruct sparse_.
    - destruct (compile_sparse _ _ _ Hg Hpos Hf0) as (_ & Hfree & ->).
      split; [reflexivity |]. intros n Hn. specialize (Hfree n Hn).
      cbn [concat] in Hfree. rewrite app_nil_r in Hfree. exact Hfree.
    - destruct (compile_dense _ _ _ Hg Hf0) as (_ & Hfree & ->).
      split; [reflexivity |]. intros n Hn. specialize (Hfree n Hn).
      cbn [concat] in Hfree. rewrite app_nil_r in Hfree. exact Hfree. }
  destruct Hsp as (Hsp & Hfree).
  unfold CompiledFunction___call__. rewrite Hsp. cbn [concat].
  rewrite app_nil_r, Hvals. cbn [bind].
  destruct sparse_.
  - destruct (fast_call_sparse_in_use expression [group] [vals] f0 f Hg Hwf Hpos Hargs
                Hf0 Huse) as (m & f' & Hcall & Harr & Huse' & _).
    exists (Sparse m), f'. split; [exact Hcall |]. split; [exact Huse' |].
    exists m. split; [reflexivity |].
    rewrite Harr, (read_lookups kwargs group vals expression Hvals Hfree). reflexivity.
  - destruct (fast_call_dense_in_use expression [group] [vals] f0 f Hg Hwf Hpos Hargs
                Hf0 Huse) as (f' & Hcall & Huse' & _).
    eexists _, f'. split; [exact Hcall |]. split; [exact Huse' |].
    rewrite (read_lookups kwargs group vals expression Hvals Hfree). reflexivity.
Qed.

(** The function of a - b with the parameters a and b, after a call with
    a = 1 and b = 2, called with a = 5 and b = 3. *)
Lemma keyword_call_single_group_witness :
  let expression := scalar (Bin OpSub (Sym "a") (Sym "b")) in
  let kwargs : gmap string R := <["a" := 5]> (<["b" := 3]> ∅) in
  let f0 := mkCompiledFunction false [["a"; "b"]]
              (Some (mkFunction [["a"; "b"]] expression))
              [None] (Dense (Array1 [Some 0])) None in
  let f := mkCompiledFunction false [["a"; "b"]]
             (Some (mkFunction [["a"; "b"]] expression))
             [Some [1; 2]] (Dense (Array1 [Some (-1)])) None in
  exists r f',
    CompiledFunction___call__ f kwargs = Ok (r, f') /\
    in_use f0 f' /\
    r = dense_of expression (substitute kwargs expression).
Proof.
  apply (keyword_call_single_group (scalar (Bin OpSub (Sym "a") (Sym "b"))) ["a"; "b"]
           false).
  - discriminate.
  - reflexivity.
  - cbn; lia.
  - intros n [<- | [<- | []]]; eexists; reflexivity.
  - reflexivity.
  - repeat split.
Defined.

Lemma constant_function_witness :
  exists f,
    compile (scalar (Bin OpAdd (Const 1) (Const 2))) NoParameters false = Ok f /\
    constant f
    = Some (dense_of (scalar (Bin OpAdd (Const 1) (Const 2)))
              (map (eval no_binding) (entries (scalar (Bin OpAdd (Const 1) (Const 2)))))) /\
    (forall args, CompiledFunction_fast_call f args
                  = Ok (dense_of (scalar (Bin OpAdd (Const 1) (Const 2)))
                          (map (eval no_binding)
                             (entries (scalar (Bin OpAdd (Const 1) (Const 2))))), f)) /\
    (forall kwargs, CompiledFunction___call__ f kwargs
                    = Ok (dense_of (scalar (Bin OpAdd (Const 1) (Const 2)))
                            (map (eval no_binding)
                               (entries (scalar (Bin OpAdd (Const 1) (Const 2))))), f)).
Proof.
  apply (constant_function (scalar (Bin OpAdd (Const 1) (Const 2)))).
  - reflexivity.
  - reflexivity.
  - cbn; lia.
Defined.

End CompiledCalls.

Section CaseTables.

(** ** Tables of cases *)

Lemma operand_as_SX (c : scalar_operand) :
  as_SX (_to_sx (operand c)) = Ok (scalar (entry c)).
Proof. destruct c; reflexivity. Qed.

Lemma Expression_to_sx_operand (c : scalar_operand) :
  Expression (_to_sx (operand c)) = Ok (PyExpression (scalar (entry c))).
Proof. destruct c; reflexivity. Qed.

(** The loop over a table whose step wraps a ternary around the result so
    far. *)
Lemma for_each_tree (step : pyobj -> pyobj * pyobj -> result pyobj)
  (node : sx -> sx * sx -> sx) :
  (forall acc e k r,
      as_SX acc = Ok (scalar e) ->
      step acc (operand k, operand r)
      = Ok (PySX (scalar (node e (entry k, entry r))))) ->
  forall cs d,
    (let* result := for_each (operands cs) step (_to_sx (operand d)) in
     Expression result)
    = Ok (PyExpression (scalar (fold_left node (case_entries cs) (entry d)))).
Proof.
  intros Hstep.
  assert (G : forall cs acc,
             for_each (operands cs) step (PySX (scalar acc))
             = Ok (PySX (scalar (fold_left node (case_entries cs) acc)))).
  { induction cs as [| [k r] cs IH]; intros acc; [reflexivity |].
    cbn [operands case_entries map for_each fold_left].
    rewrite (Hstep _ acc) by reflexivity. cbn [bind]. apply IH. }
  intros [| [k r] cs] d.
  - cbn [operands map for_each bind]. apply Expression_to_sx_operand.
  - cbn [operands map for_each].
    rewrite (Hstep _ (entry d)) by apply operand_as_SX. cbn [bind].
    fold (operands cs). rewrite G. reflexivity.
Qed.

Lemma operands_rev cases : rev (operands cases) = operands (rev cases).
Proof. unfold operands. symmetry. apply map_rev. Qed.

Lemma case_entries_rev cases : case_entries (rev cases) = rev (case_entries cases).
Proof. unfold case_entries. apply map_rev. Qed.

Lemma if_less_eq_cases_tree (a : scalar_operand)
  (cases : list (scalar_operand * scalar_operand)) (d : scalar_operand) :
  if_less_eq_cases (operand a) (operands cases) (operand d)
  = Ok (PyExpression
          (scalar (case_tree OpLe (entry a) (rev (case_entries cases)) (entry d)))).
Proof.
  unfold if_less_eq_cases, case_tree.
  rewrite operands_rev, <- case_entries_rev.
  apply (for_each_tree _ (fun acc '(k, r) => IfElse (Bin OpLe (entry a) k) r acc)).
  intros acc e k r Hacc. cbv beta iota zeta.
  rewrite !operand_as_SX, Hacc. reflexivity.
Qed.

Lemma if_cases_tree (cases : list (scalar_operand * scalar_operand))
  (d : scalar_operand) :
  if_cases (operands cases) (operand d)
  = Ok (PyExpression
          (scalar (fold_left (fun acc '(k, r) => IfElse k r acc)
                     (rev (case_entries cases)) (entry d)))).
Proof.
  unfold if_cases.
  rewrite operands_rev, <- case_entries_rev.
  assert (E : _to_sx (_to_sx (operand d)) = _to_sx (operand d)) by (destruct d; reflexivity).
  rewrite E.
  apply (for_each_tree _ (fun acc '(k, r) => IfElse k r acc)).
  intros acc e k r Hacc. cbv beta iota zeta.
  rewrite !operand_as_SX, Hacc. reflexivity.
Qed.

Lemma last_match_rev (test : R -> bool) (values : list (R * R)) (d : R) :
  last_match test (rev values) d = first_match test values d.
Proof.
  unfold last_match.
  induction values as [| [k r] values IH]; [reflexivity |].
  cbn [rev first_match]. rewrite fold_left_app. cbn [fold_left].
  rewrite IH. reflexivity.
Qed.

Lemma case_values_rev rho cases values :
  case_values rho cases values -> case_values rho (rev cases) (rev values).
Proof.
  unfold case_values. induction 1 as [| c v cases values Hcv H IH]; [constructor |].
  cbn [rev]. apply Forall2_app; [exact IH | repeat constructor; exact Hcv].
Qed.

(** X8: [if_less_eq_cases]: the first pair of the table whose bound is not
    below [a] decides, whatever the order of the bounds; without such a
    pair the result is [else_result]. *)
Theorem if_less_eq_cases_first_match rho (a : scalar_operand)
  (cases : list (scalar_operand * scalar_operand)) (d : scalar_operand)
  (va vd : R) (values : list (R * R)) :
  eval rho (entry a) = Some va ->
  case_values rho (case_entries cases) values ->
  eval rho (entry d) = Some vd ->
  exists r,
    if_less_eq_cases (operand a) (operands cases) (operand d) = Ok r /\
    value rho r = Some (first_match (Rle_b va) values vd).
Proof.
  intros Ha Hv Hd. eexists. split; [apply if_less_eq_cases_tree |].
  cbn [value scalar entries].
  rewrite (case_tree_value rho Rle_b OpLe (entry a) va (fun x y => eq_refl) Ha
             _ (rev values) _ vd (case_values_rev _ _ _ Hv) Hd).
  rewrite last_match_rev. reflexivity.
Qed.

Lemma if_less_eq_cases_first_match_witness :
  exists r,
    if_less_eq_cases (PySymbol "a") (operands [(Num 9, Num 10); (Num 1, Num 20)])
      (PyNum 0) = Ok r /\
    value (fun _ => Some 5) r
    = Some (first_match (Rle_b 5) [(9, 10); (1, 20)] 0).
Proof.
  apply (if_less_eq_cases_first_match (fun _ => Some 5) (Symb "a")
           [(Num 9, Num 10); (Num 1, Num 20)] (Num 0) 5 0 [(9, 10); (1, 20)]).
  - reflexivity.
  - repeat constructor.
  - reflexivity.
Defined.

Lemma cond_tree_value rho :
  forall (cases : list (sx * sx)) (values : list (R * R)) (d : sx) (vd : R),
    case_values rho cases values ->
    eval rho d = Some vd ->
    eval rho (fold_left (fun acc '(k, r) => IfElse k r acc) cases d)
    = Some (last_match (fun k => negb (Rzero k)) values vd).
Proof.
  unfold last_match.
  induction cases as [| [k r] cases IH]; intros values d vd Hv Hd;
    unfold case_values in Hv; inversion Hv as [| ? [vk vr] ? values' Hkr Hv']; subst.
  - exact Hd.
  - destruct Hkr as [Hk Hr].
    cbn [fold_left]. apply IH; [exact Hv' |].
    cbn [eval]. rewrite Hk. cbn [obind].
    destruct (Rzero vk); cbn [negb]; assumption.
Qed.

(** X7: [if_cases]: the first pair of the table whose condition is not 0
    decides; without such a pair the result is [else_result]. *)
Theorem if_cases_first_match rho
  (cases : list (scalar_operand * scalar_operand)) (d : scalar_operand)
  (vd : R) (values : list (R * R)) :
  case_values rho (case_entries cases) values ->
  eval rho (entry d) = Some vd ->
  exists r,
    if_cases (operands cases) (operand d) = Ok r /\
    value rho r = Some (first_match (fun k => negb (Rzero k)) values vd).
Proof.
  intros Hv Hd. eexists. split; [apply if_cases_tree |].
  cbn [value scalar entries].
  rewrite (cond_tree_value rho _ (rev values) _ vd (case_values_rev _ _ _ Hv) Hd).
  rewrite last_match_rev. reflexivity.
Qed.

Lemma if_cases_first_match_witness :
  exists r,
    if_cases (operands [(Symb "c", Num 10); (Num 1, Num 20)]) (PyNum 0) = Ok r /\
    value (fun _ => Some 5) r
    = Some (first_match (fun k => negb (Rzero k)) [(5, 10); (1, 20)] 0).
Proof.
  apply (if_cases_first_match (fun _ => Some 5)
           [(Symb "c", Num 10); (Num 1, Num 20)] (Num 0) 0 [(5, 10); (1, 20)]).
  - repeat constructor.
  - reflexivity.
Defined.

(** X9: [if_eq_cases]: the last pair of the table whose key equals [a]
    decides; without such a pair the result is [else_result]. *)
Theorem if_eq_cases_last_match rho (a : scalar_operand)
  (cases : list (scalar_operand * scalar_operand)) (d : scalar_operand)
  (va vd : R) (values : list (R * R)) :
  eval rho (entry a) = Some va ->
  case_values rho (case_entries cases) values ->
  eval rho (entry d) = Some vd ->
  exists r,
    if_eq_cases (operand a) (operands cases) (operand d) = Ok r /\
    value rho r = Some (last_match (Req_b va) values vd).
Proof.
  intros Ha Hv Hd. eexists. split; [apply if_eq_cases_tree |].
  cbn [value scalar entries].
  apply (case_tree_value rho Req_b OpEq (entry a) va (fun x y => eq_refl) Ha
           _ values _ vd Hv Hd).
Qed.

Lemma if_eq_cases_last_match_witness :
  exists r,
    if_eq_cases (PySymbol "a") (operands [(Num 5, Num 10); (Num 5, Num 20)])
      (PyNum 0) = Ok r /\
    value (fun _ => Some 5) r
    = Some (last_match (Req_b 5) [(5, 10); (5, 20)] 0).
Proof.
  apply (if_eq_cases_last_match (fun _ => Some 5) (Symb "a")
           [(Num 5, Num 10); (Num 5, Num 20)] (Num 0) 5 0 [(5, 10); (5, 20)]).
  - reflexivity.
  - repeat constructor.
  - reflexivity.
Defined.

End CaseTables.

Section Selection.

(** ** Conditionals on points and vectors *)

(** X10: [if_else] on two points gives a point, and on two vectors a
    vector, with the entries of the first where the condition is not 0 and
    those of the second where it is 0.  The result has no reference frame,
    whatever the frames of the two branches. *)
Theorem if_else_drops_the_reference_frame rho (c : scalar_operand) (vc : R)
  (x1 y1 z1 x2 y2 z2 : sx) (a1 b1 c1 a2 b2 c2 : R) (rf1 rf2 : option Body) :
  eval rho (entry c) = Some vc ->
  eval rho x1 = Some a1 -> eval rho y1 = Some b1 -> eval rho z1 = Some c1 ->
  eval rho x2 = Some a2 -> eval rho y2 = Some b2 -> eval rho z2 = Some c2 ->
  let pick (u v : R) := if Rzero vc then v else u in
  (exists p,
     if_else (operand c) (PyPoint3 (point x1 y1 z1 rf1)) (PyPoint3 (point x2 y2 z2 rf2))
     = Ok (PyPoint3 p) /\
     Point3_reference_frame p = None /\
     eval_matrix rho (Point3_s p)
     = Some (mkMatrix 4 1 [pick a1 a2; pick b1 b2; pick c1 c2; 1])) /\
  (exists v,
     if_else (operand c) (PyVector3 (vector x1 y1 z1 rf1 rf1))
       (PyVector3 (vector x2 y2 z2 rf2 rf2))
     = Ok (PyVector3 v) /\
     Vector3_reference_frame v = None /\
     eval_matrix rho (Vector3_s v)
     = Some (mkMatrix 4 1 [pick a1 a2; pick b1 b2; pick c1 c2; 0])).
Proof.
  intros Hc Hx1 Hy1 Hz1 Hx2 Hy2 Hz2. cbv zeta.
  assert (Ec : Expression___init__ (operand c) = Ok (scalar (entry c)))
    by (destruct c; reflexivity).
  split.
  - eexists. split.
    { unfold if_else. rewrite Ec. cbv -[IZR entry]. reflexivity. }
    split; [reflexivity |].
    cbn [Point3_s]. apply eval_matrix_values. repeat constructor; values;
      destruct (Rzero vc); reflexivity.
  - eexists. split.
    { unfold if_else. rewrite Ec. cbv -[IZR entry]. reflexivity. }
    split; [reflexivity |].
    cbn [Vector3_s]. apply eval_matrix_values. repeat constructor; values;
      destruct (Rzero vc); reflexivity.
Qed.

Lemma if_else_drops_the_reference_frame_witness :
  let pick (u v : R) := if Rzero 0 then v else u in
  (exists p,
     if_else (PySymbol "c")
       (PyPoint3 (point (Const 1) (Const 2) (Const 3) (Some "map"%string)))
       (PyPoint3 (point (Const 4) (Const 5) (Const 6) (Some "map"%string)))
     = Ok (PyPoint3 p) /\
     Point3_reference_frame p = None /\
     eval_matrix (fun _ => Some 0) (Point3_s p)
     = Some (mkMatrix 4 1 [pick 1 4; pick 2 5; pick 3 6; 1])) /\
  (exists v,
     if_else (PySymbol "c")
       (PyVector3 (vector (Const 1) (Const 2) (Const 3) (Some "map"%string)
                     (Some "map"%string)))
       (PyVector3 (vector (Const 4) (Const 5) (Const 6) (Some "map"%string)
                     (Some "map"%string)))
     = Ok (PyVector3 v) /\
     Vector3_reference_frame v = None /\
     eval_matrix (fun _ => Some 0) (Vector3_s v)
     = Some (mkMatrix 4 1 [pick 1 4; pick 2 5; pick 3 6; 0])).
Proof.
  apply (if_else_drops_the_reference_frame (fun _ => Some 0) (Symb "c") 0
           (Const 1) (Const 2) (Const 3) (Const 4) (Const 5) (Const 6)
           1 2 3 4 5 6 (Some "map"%string) (Some "map"%string)); reflexivity.
Defined.

End Selection.

Section Vectors.

(** ** Products and lengths of vectors *)

Variables (rho : string -> option R) (x1 y1 z1 x2 y2 z2 : sx) (a1 b1 c1 a2 b2 c2 : R).
Hypothesis Hx1 : eval rho x1 = Some a1.
Hypothesis Hy1 : eval rho y1 = Some b1.
Hypothesis Hz1 : eval rho z1 = Some c1.
Hypothesis Hx2 : eval rho x2 = Some a2.
Hypothesis Hy2 : eval rho y2 = Some b2.
Hypothesis Hz2 : eval rho z2 = Some c2.

(** X18: [Vector3.cross] is the cross product of the first three entries:
    the result is orthogonal to both vectors, has the reference frame of
    the receiver and the homogeneous entry 0. *)
Theorem cross_is_orthogonal (rf1 vis1 rf2 vis2 : option Body) :
  let u := vector x1 y1 z1 rf1 vis1 in
  let v := vector x2 y2 z2 rf2 vis2 in
  exists w d1 d2,
    Vector3_cross u (Vector3_s v) = Ok w /\
    Vector3_reference_frame w = rf1 /\
    eval_matrix rho (Vector3_s w)
    = Some (mkMatrix 4 1 [b1 * c2 - c1 * b2; c1 * a2 - a1 * c2; a1 * b2 - b1 * a2; 0]) /\
    Vector3_dot u (PyVector3 w) = Ok d1 /\ value rho d1 = Some 0 /\
    Vector3_dot v (PyVector3 w) = Ok d2 /\ value rho d2 = Some 0.
Proof.
  cbv zeta. do 3 eexists.
  split; [cbv -[IZR]; reflexivity |].
  split; [reflexivity |].
  split; [cbn [Vector3_s]; apply eval_matrix_values; repeat constructor; values; reflexivity |].
  split; [cbv -[IZR]; reflexivity |].
  split; [cbn [value entries]; values; f_equal; ring |].
  split; [cbv -[IZR]; reflexivity |].
  cbn [value entries]; values; f_equal; ring.
Qed.

(** X17: [dot] of two points or vectors is the scalar product of their first
    three entries: the homogeneous entries do not count.  With another kind
    of operand, and for an operand that has no [dot], it raises TypeError. *)
Theorem dot_of_points (rf1 rf2 : option Body) (k : R) (other : pyobj) :
  (exists d,
     dot (PyPoint3 (point x1 y1 z1 rf1)) (PyPoint3 (point x2 y2 z2 rf2)) = Ok d /\
     value rho d = Some (a1 * a2 + b1 * b2 + c1 * c2)) /\
  dot (PyPoint3 (point x1 y1 z1 rf1)) (PyNum k) = Raise TypeError /\
  dot (PyPoint3 (point x1 y1 z1 rf1)) (PyExpression (column [x2; y2; z2; Const 1]))
  = Raise TypeError /\
  dot (PyNum k) other = Raise TypeError /\
  dot (PySymbol "a") other = Raise TypeError.
Proof.
  split; [| repeat split].
  eexists. split; [cbv -[IZR]; reflexivity |].
  cbn [value entries]; values; f_equal; ring.
Qed.

(** X20: [euclidean_distance] of two points is the length of the difference
    of their first three entries; it does not depend on the order of the
    points. *)
Theorem euclidean_distance_of_points (rf1 rf2 : option Body) :
  let p := PyPoint3 (point x1 y1 z1 rf1) in
  let q := PyPoint3 (point x2 y2 z2 rf2) in
  let d := R_sqrt.sqrt ((a1 - a2) * (a1 - a2) + (b1 - b2) * (b1 - b2)
                        + (c1 - c2) * (c1 - c2)) in
  exists r r',
    euclidean_distance p q = Ok r /\ value rho r = Some d /\
    euclidean_distance q p = Ok r' /\ value rho r' = Some d.
Proof.
  cbv zeta.
  assert (N : forall u v w : R, ~ 0 + u * u + v * v + w * w < 0) by (intros; nra).
  do 2 eexists.
  split; [cbv -[IZR]; reflexivity |].
  split.
  { cbn [value entries]; values. rewrite (Rlt_b_false _ _ (N _ _ _)).
    do 2 f_equal. ring. }
  split; [cbv -[IZR]; reflexivity |].
  cbn [value entries]; values. rewrite (Rlt_b_false _ _ (N _ _ _)).
  do 2 f_equal. ring.
Qed.

(** X19: [Vector3.scale] gives the receiver the length |a|: its entries are
    divided by its length and multiplied by a.  A vector of length 0 stays
    the zero vector, without a division by 0.  The reference frame stays. *)
Theorem scale_sets_the_length (a : scalar_operand) (va : R) (rf vis : option Body) :
  eval rho (entry a) = Some va ->
  let n := R_sqrt.sqrt (a1 * a1 + b1 * b1 + c1 * c1) in
  let k := if Rzero n then 0 else 1 / n in
  exists v,
    Vector3_scale (vector x1 y1 z1 rf vis) (operand a) = Ok v /\
    Vector3_reference_frame v = rf /\
    eval_matrix rho (Vector3_s v)
    = Some (mkMatrix 4 1 [a1 * k * va; b1 * k * va; c1 * k * va; 0]) /\
    (n <> 0 ->
     (a1 * k * va) * (a1 * k * va) + (b1 * k * va) * (b1 * k * va)
     + (c1 * k * va) * (c1 * k * va) = va * va).
Proof.
  intros Ha. cbv zeta.
  assert (N : ~ 0 + a1 * a1 + b1 * b1 + c1 * c1 < 0) by nra.
  assert (E : 0 + a1 * a1 + b1 * b1 + c1 * c1 = a1 * a1 + b1 * b1 + c1 * c1) by ring.
  assert (V : exists v,
             Vector3_scale (vector x1 y1 z1 rf vis) (operand a) = Ok v /\
             Vector3_reference_frame v = rf /\
             eval_matrix rho (Vector3_s v)
             = Some (mkMatrix 4 1
                       [a1 * (if Rzero (R_sqrt.sqrt (a1 * a1 + b1 * b1 + c1 * c1))
                              then 0
                              else 1 / R_sqrt.sqrt (a1 * a1 + b1 * b1 + c1 * c1)) * va;
                        b1 * (if Rzero (R_sqrt.sqrt (a1 * a1 + b1 * b1 + c1 * c1))
                              then 0
                              else 1 / R_sqrt.sqrt (a1 * a1 + b1 * b1 + c1 * c1)) * va;
                        c1 * (if Rzero (R_sqrt.sqrt (a1 * a1 + b1 * b1 + c1 * c1))
                              then 0
                              else 1 / R_sqrt.sqrt (a1 * a1 + b1 * b1 + c1 * c1)) * va;
                        0])).
  { destruct a; cbn [entry eval] in Ha; try (injection Ha as ->);
      (eexists; split; [cbv -[IZR]; reflexivity |];
       split; [reflexivity |];
       cbn [Vector3_s]; apply eval_matrix_values; repeat constructor; values;
       rewrite ?(Rlt_b_false _ _ N), ?E; cbn [obind];
       try (destruct (Rzero (R_sqrt.sqrt (a1 * a1 + b1 * b1 + c1 * c1))) eqn:Z;
            cbn [obind]; rewrite ?Z; cbn [obind]; rewrite ?Z);
       reflexivity). }
  destruct V as (v & Hv & Hrf & Hval).
  exists v. repeat split; try assumption.
  intros Hn. rewrite (Rzero_false _ Hn).
  assert (Hsq : R_sqrt.sqrt (a1 * a1 + b1 * b1 + c1 * c1)
                * R_sqrt.sqrt (a1 * a1 + b1 * b1 + c1 * c1)
                = a1 * a1 + b1 * b1 + c1 * c1) by (apply sqrt_sqrt; nra).
  set (n := R_sqrt.sqrt (a1 * a1 + b1 * b1 + c1 * c1)) in *.
  assert (Hinv : n * (1 / n) = 1) by (field; exact Hn).
  set (i := 1 / n) in *. clearbody i n. nsatz.
Qed.

End Vectors.

Lemma cross_is_orthogonal_witness :
  let u := vector (Const 1) (Const 0) (Const 0) None None in
  let v := vector (Const 0) (Sym "y") (Const 0) None None in
  exists w d1 d2,
    Vector3_cross u (Vector3_s v) = Ok w /\
    Vector3_reference_frame w = None /\
    eval_matrix (fun _ => Some 1) (Vector3_s w)
    = Some (mkMatrix 4 1 [0 * 0 - 0 * 1; 0 * 0 - 1 * 0; 1 * 1 - 0 * 0; 0]) /\
    Vector3_dot u (PyVector3 w) = Ok d1 /\ value (fun _ => Some 1) d1 = Some 0 /\
    Vector3_dot v (PyVector3 w) = Ok d2 /\ value (fun _ => Some 1) d2 = Some 0.
Proof.
  apply (cross_is_orthogonal (fun _ => Some 1)
           (Const 1) (Const 0) (Const 0) (Const 0) (Sym "y") (Const 0)
           1 0 0 0 1 0 eq_refl eq_refl eq_refl eq_refl eq_refl eq_refl None None None None).
Defined.

Lemma dot_of_points_witness :
  (exists d,
     dot (PyPoint3 (point (Const 1) (Const 2) (Const 3) None))
       (PyPoint3 (point (Const 4) (Const 5) (Sym "z") None)) = Ok d /\
     value (fun _ => Some 6) d = Some (1 * 4 + 2 * 5 + 3 * 6)) /\
  dot (PyPoint3 (point (Const 1) (Const 2) (Const 3) None)) (PyNum 7) = Raise TypeError /\
  dot (PyPoint3 (point (Const 1) (Const 2) (Const 3) None))
    (PyExpression (column [Const 4; Const 5; Sym "z"; Const 1]))
  = Raise TypeError /\
  dot (PyNum 7) PyNone = Raise TypeError /\
  dot (PySymbol "a") PyNone = Raise TypeError.
Proof.
  apply (dot_of_points (fun _ => Some 6)
           (Const 1) (Const 2) (Const 3) (Const 4) (Const 5) (Sym "z")
           1 2 3 4 5 6 eq_refl eq_refl eq_refl eq_refl eq_refl eq_refl None None 7 PyNone).
Defined.

Lemma euclidean_distance_of_points_witness :
  let p := PyPoint3 (point (Const 1) (Const 2) (Const 3) None) in
  let q := PyPoint3 (point (Const 4) (Const 5) (Sym "z") None) in
  let d := R_sqrt.sqrt ((1 - 4) * (1 - 4) + (2 - 5) * (2 - 5) + (3 - 6) * (3 - 6)) in
  exists r r',
    euclidean_distance p q = Ok r /\ value (fun _ => Some 6) r = Some d /\
    euclidean_distance q p = Ok r' /\ value (fun _ => Some 6) r' = Some d.
Proof.
  apply (euclidean_distance_of_points (fun _ => Some 6)
           (Const 1) (Const 2) (Const 3) (Const 4) (Const 5) (Sym "z")
           1 2 3 4 5 6 eq_refl eq_refl eq_refl eq_refl eq_refl eq_refl None None).
Defined.

Lemma scale_sets_the_length_witness :
  let n := R_sqrt.sqrt (3 * 3 + 0 * 0 + 4 * 4) in
  let k := if Rzero n then 0 else 1 / n in
  exists v,
    Vector3_scale (vector (Const 3) (Const 0) (Const 4) None None) (PySymbol "a") = Ok v /\
    Vector3_reference_frame v = None /\
    eval_matrix (fun _ => Some 2) (Vector3_s v)
    = Some (mkMatrix 4 1 [3 * k * 2; 0 * k * 2; 4 * k * 2; 0]) /\
    (n <> 0 ->
     (3 * k * 2) * (3 * k * 2) + (0 * k * 2) * (0 * k * 2) + (4 * k * 2) * (4 * k * 2)
     = 2 * 2).
Proof.
  apply (scale_sets_the_length (fun _ => Some 2) (Const 3) (Const 0) (Const 4) 3 0 4
           eq_refl eq_refl eq_refl (Symb "a") 2 None None eq_refl).
Defined.

Section Transformations.

(** ** Transformations *)

(** X28: A transformation applied to a point rotates it and adds the
    translation; applied to a vector it only rotates.  The result has the
    reference frame of the transformation and the homogeneous entry of its
    kind, whatever the last row of the matrix. *)
Theorem transformation_of_a_point rho (t : TransformationMatrix)
  (r00 r01 r02 r10 r11 r12 r20 r21 r22 tx ty tz l0 l1 l2 l3 : R)
  (x y z : sx) (a b c : R) (rf vis : option Body) :
  eval_matrix rho (TransformationMatrix_s t)
  = Some (mkMatrix 4 4 [r00; r10; r20; l0; r01; r11; r21; l1;
                        r02; r12; r22; l2; tx; ty; tz; l3]) ->
  eval rho x = Some a -> eval rho y = Some b -> eval rho z = Some c ->
  (exists p,
     TransformationMatrix_dot t (PyPoint3 (point x y z rf)) = Ok (PyPoint3 p) /\
     Point3_reference_frame p = TransformationMatrix_reference_frame t /\
     eval_matrix rho (Point3_s p)
     = Some (mkMatrix 4 1 [r00 * a + r01 * b + r02 * c + tx;
                           r10 * a + r11 * b + r12 * c + ty;
                           r20 * a + r21 * b + r22 * c + tz; 1])) /\
  (exists v,
     TransformationMatrix_dot t (PyVector3 (vector x y z rf vis)) = Ok (PyVector3 v) /\
     Vector3_reference_frame v = TransformationMatrix_reference_frame t /\
     eval_matrix rho (Vector3_s v)
     = Some (mkMatrix 4 1 [r00 * a + r01 * b + r02 * c;
                           r10 * a + r11 * b + r12 * c;
                           r20 * a + r21 * b + r22 * c; 0])).
Proof.
  intros Ht Hx Hy Hz.
  destruct t as [s trf tcf].
  cbn [TransformationMatrix_s TransformationMatrix_reference_frame] in *.
  apply eval_matrix_inv in Ht as (l & -> & Hl).
  entries_of Hl.
  split.
  - eexists. split; [cbv -[IZR]; reflexivity |].
    split; [reflexivity |].
    cbn [Point3_s]. apply eval_matrix_values. repeat constructor; values; f_equal; ring.
  - eexists. split; [cbv -[IZR]; reflexivity |].
    split; [reflexivity |].
    cbn [Vector3_s]. apply eval_matrix_values. repeat constructor; values; f_equal; ring.
Qed.

(** X29: [TransformationMatrix.inverse] exchanges the two frames, transposes
    the rotation and turns the translation t into -R^T t; a transformation
    times its inverse is the identity. *)
Theorem transformation_times_inverse rho (t : TransformationMatrix)
  (r00 r01 r02 r10 r11 r12 r20 r21 r22 tx ty tz : R) :
  eval_matrix rho (TransformationMatrix_s t)
  = Some (mkMatrix 4 4 [r00; r10; r20; 0; r01; r11; r21; 0;
                        r02; r12; r22; 0; tx; ty; tz; 1]) ->
  orthonormal r00 r01 r02 r10 r11 r12 r20 r21 r22 ->
  exists inv prod,
    TransformationMatrix_inverse t = Ok inv /\
    TransformationMatrix_reference_frame inv = TransformationMatrix_child_frame t /\
    TransformationMatrix_child_frame inv = TransformationMatrix_reference_frame t /\
    eval_matrix rho (TransformationMatrix_s inv)
    = Some (mkMatrix 4 4
              [r00; r01; r02; 0; r10; r11; r12; 0; r20; r21; r22; 0;
               - (r00 * tx + r10 * ty + r20 * tz);
               - (r01 * tx + r11 * ty + r21 * tz);
               - (r02 * tx + r12 * ty + r22 * tz); 1]) /\
    TransformationMatrix_dot t (PyTransformationMatrix inv)
    = Ok (PyTransformationMatrix prod) /\
    eval_matrix rho (TransformationMatrix_s prod) = Some (rotation4 1 0 0 0 1 0 0 0 1) /\
    TransformationMatrix_reference_frame prod = TransformationMatrix_reference_frame t /\
    TransformationMatrix_child_frame prod = TransformationMatrix_reference_frame t.
Proof.
  intros Ht (H00 & H11 & H22 & H01 & H02 & H12).
  destruct t as [s trf tcf].
  cbn [TransformationMatrix_s TransformationMatrix_reference_frame
         TransformationMatrix_child_frame] in *.
  apply eval_matrix_inv in Ht as (l & -> & Hl).
  entries_of Hl.
  do 2 eexists.
  split; [cbv -[IZR]; reflexivity |].
  split; [reflexivity |]. split; [reflexivity |].
  cbn [TransformationMatrix_s].
  split; [apply eval_matrix_values; repeat constructor; values; f_equal; ring |].
  split; [cbv -[IZR]; reflexivity |].
  cbn [TransformationMatrix_s TransformationMatrix_reference_frame
         TransformationMatrix_child_frame].
  split; [| split; reflexivity].
  apply eval_matrix_values; repeat constructor; values; f_equal; nsatz.
Qed.
Lemma transformation_of_a_point_witness :
  (exists p,
     TransformationMatrix_dot
       (mkTransformationMatrix
          (matrix4 (Const 0) (Const (-1)) (Const 0) (Sym "t")
                   (Const 1) (Const 0) (Const 0) (Const 2)
                   (Const 0) (Const 0) (Const 1) (Const 3)
                   (Const 0) (Const 0) (Const 0) (Const 1)) (Some "map"%string) None)
       (PyPoint3 (point (Const 1) (Const 2) (Const 3) None)) = Ok (PyPoint3 p) /\
     Point3_reference_frame p = Some "map"%string /\
     eval_matrix (fun _ => Some 5) (Point3_s p)
     = Some (mkMatrix 4 1 [0 * 1 + -1 * 2 + 0 * 3 + 5;
                           1 * 1 + 0 * 2 + 0 * 3 + 2;
                           0 * 1 + 0 * 2 + 1 * 3 + 3; 1])) /\
  (exists v,
     TransformationMatrix_dot
       (mkTransformationMatrix
          (matrix4 (Const 0) (Const (-1)) (Const 0) (Sym "t")
                   (Const 1) (Const 0) (Const 0) (Const 2)
                   (Const 0) (Const 0) (Const 1) (Const 3)
                   (Const 0) (Const 0) (Const 0) (Const 1)) (Some "map"%string) None)
       (PyVector3 (vector (Const 1) (Const 2) (Const 3) None None)) = Ok (PyVector3 v) /\
     Vector3_reference_frame v = Some "map"%string /\
     eval_matrix (fun _ => Some 5) (Vector3_s v)
     = Some (mkMatrix 4 1 [0 * 1 + -1 * 2 + 0 * 3;
                           1 * 1 + 0 * 2 + 0 * 3;
                           0 * 1 + 0 * 2 + 1 * 3; 0])).
Proof.
  apply (transformation_of_a_point (fun _ => Some 5)
           (mkTransformationMatrix
              (matrix4 (Const 0) (Const (-1)) (Const 0) (Sym "t")
                       (Const 1) (Const 0) (Const 0) (Const 2)
                       (Const 0) (Const 0) (Const 1) (Const 3)
                       (Const 0) (Const 0) (Const 0) (Const 1)) (Some "map"%string) None)
           0 (-1) 0 1 0 0 0 0 1 5 2 3 0 0 0 1
           (Const 1) (Const 2) (Const 3) 1 2 3 None None); reflexivity.
Defined.

Lemma transformation_times_inverse_witness :
  exists inv prod,
    TransformationMatrix_inverse
      (mkTransformationMatrix
         (matrix4 (Const 0) (Const (-1)) (Const 0) (Sym "t")
                  (Const 1) (Const 0) (Const 0) (Const 2)
                  (Const 0) (Const 0) (Const 1) (Const 3)
                  (Const 0) (Const 0) (Const 0) (Const 1))
         (Some "map"%string) (Some "tool"%string)) = Ok inv /\
    TransformationMatrix_reference_frame inv = Some "tool"%string /\
    TransformationMatrix_child_frame inv = Some "map"%string /\
    eval_matrix (fun _ => Some 5) (TransformationMatrix_s inv)
    = Some (mkMatrix 4 4
              [0; -1; 0; 0; 1; 0; 0; 0; 0; 0; 1; 0;
               - (0 * 5 + 1 * 2 + 0 * 3);
               - (-1 * 5 + 0 * 2 + 0 * 3);
               - (0 * 5 + 0 * 2 + 1 * 3); 1]) /\
    TransformationMatrix_dot
      (mkTransformationMatrix
         (matrix4 (Const 0) (Const (-1)) (Const 0) (Sym "t")
                  (Const 1) (Const 0) (Const 0) (Const 2)
                  (Const 0) (Const 0) (Const 1) (Const 3)
                  (Const 0) (Const 0) (Const 0) (Const 1))
         (Some "map"%string) (Some "tool"%string))
      (PyTransformationMatrix inv)
    = Ok (PyTransformationMatrix prod) /\
    eval_matrix (fun _ => Some 5) (TransformationMatrix_s prod)
    = Some (rotation4 1 0 0 0 1 0 0 0 1) /\
    TransformationMatrix_reference_frame prod = Some "map"%string /\
    TransformationMatrix_child_frame prod = Some "map"%string.
Proof.
  apply (transformation_times_inverse (fun _ => Some 5)
           (mkTransformationMatrix
              (matrix4 (Const 0) (Const (-1)) (Const 0) (Sym "t")
                       (Const 1) (Const 0) (Const 0) (Const 2)
                       (Const 0) (Const 0) (Const 1) (Const 3)
                       (Const 0) (Const 0) (Const 0) (Const 1))
              (Some "map"%string) (Some "tool"%string))
           0 (-1) 0 1 0 0 0 0 1 5 2 3); [reflexivity |].
  unfold orthonormal. repeat split; lra.
Defined.

End Transformations.

Section SharedMatrices.

(** ** A transformation shares the SX of its rotation matrix *)

Import Shared.

Lemma setitem_at (st : store) (l : nat) (s s' : SX) (i j : nat) (value : pyobj) :
  cells st !! l = Some s ->
  setitem2 s i j value = Ok s' ->
  exists st',
    setitem l i j value st = Ok st' /\
    cells st' !! l = Some s' /\
    (forall l', l' <> l -> cells st' !! l' = cells st !! l').
Proof.
  intros Hl Hs. unfold setitem. rewrite Hl, Hs. cbn [bind].
  eexists. split; [reflexivity |]. cbn [cells].
  split; [apply lookup_insert_eq |].
  intros l' Hne. apply lookup_insert_ne. congruence.
Qed.

(** X30: [from_point_rotation_matrix] changes the rotation matrix it is
    given: the transformation holds the very SX of the rotation matrix, so
    that the translation of the point is written into the fourth column of
    the rotation matrix as well.  No other SX is touched. *)
Theorem from_point_rotation_matrix_writes_into_the_rotation
  (st : store) (r : RotationMatrix)
  (m00 m01 m02 m03 m10 m11 m12 m13 m20 m21 m22 m23 m30 m31 m32 m33 x y z : sx)
  (prf rf cf : option Body) :
  cells st !! RotationMatrix_s r
  = Some (matrix4 m00 m01 m02 m03 m10 m11 m12 m13 m20 m21 m22 m23 m30 m31 m32 m33) ->
  exists t st',
    TransformationMatrix_from_point_rotation_matrix
      (Some (point x y z prf)) (Some r) rf cf st = Ok (t, st') /\
    TransformationMatrix_s t = RotationMatrix_s r /\
    cells st' !! RotationMatrix_s r
    = Some (matrix4 m00 m01 m02 x m10 m11 m12 y m20 m21 m22 z m30 m31 m32 m33) /\
    (forall l, l <> RotationMatrix_s r -> cells st' !! l = cells st !! l) /\
    TransformationMatrix_reference_frame t
    = frame_or rf (RotationMatrix_reference_frame r) /\
    TransformationMatrix_child_frame t = cf.
Proof.
  intros Hs.
  unfold TransformationMatrix_from_point_rotation_matrix, TransformationMatrix___init__.
  cbn [bind TransformationMatrix_s].
  replace (py_getitem (PyPoint3 (point x y z prf)) 0) with (Ok (PyExpression (scalar x)))
    by reflexivity.
  replace (py_getitem (PyPoint3 (point x y z prf)) 1) with (Ok (PyExpression (scalar y)))
    by reflexivity.
  replace (py_getitem (PyPoint3 (point x y z prf)) 2) with (Ok (PyExpression (scalar z)))
    by reflexivity.
  cbn [bind].
  destruct (setitem_at st _ _ _ 0 3 (PyExpression (scalar x)) Hs eq_refl)
    as (st1 & E1 & H1 & F1).
  rewrite E1. cbn [bind].
  destruct (setitem_at st1 _ _ _ 1 3 (PyExpression (scalar y)) H1 eq_refl)
    as (st2 & E2 & H2 & F2).
  rewrite E2. cbn [bind].
  destruct (setitem_at st2 _ _ _ 2 3 (PyExpression (scalar z)) H2 eq_refl)
    as (st3 & E3 & H3 & F3).
  rewrite E3. cbn [bind].
  do 2 eexists. split; [reflexivity |].
  split; [reflexivity |].
  split; [exact H3 |].
  split; [| split; reflexivity].
  intros l Hne. rewrite F3, F2, F1 by exact Hne. reflexivity.
Qed.

Lemma from_point_rotation_matrix_writes_into_the_rotation_witness :
  exists t st',
    TransformationMatrix_from_point_rotation_matrix
      (Some (point (Const 7) (Const 8) (Const 9) None))
      (Some (mkRotationMatrix 0 None None)) None None
      (snd (alloc SX_eye4 empty)) = Ok (t, st') /\
    TransformationMatrix_s t = RotationMatrix_s (mkRotationMatrix 0 None None) /\
    cells st' !! RotationMatrix_s (mkRotationMatrix 0 None None)
    = Some (matrix4 (Const 1) (Const 0) (Const 0) (Const 7)
                    (Const 0) (Const 1) (Const 0) (Const 8)
                    (Const 0) (Const 0) (Const 1) (Const 9)
                    (Const 0) (Const 0) (Const 0) (Const 1)) /\
    (forall l, l <> RotationMatrix_s (mkRotationMatrix 0 None None) ->
               cells st' !! l = cells (snd (alloc SX_eye4 empty)) !! l) /\
    TransformationMatrix_reference_frame t
    = frame_or None (RotationMatrix_reference_frame (mkRotationMatrix 0 None None)) /\
    TransformationMatrix_child_frame t = None.
Proof.
  apply (from_point_rotation_matrix_writes_into_the_rotation
           (snd (alloc SX_eye4 empty)) (mkRotationMatrix 0 None None)
           (Const 1) (Const 0) (Const 0) (Const 0)
           (Const 0) (Const 1) (Const 0) (Const 0)
           (Const 0) (Const 0) (Const 1) (Const 0)
           (Const 0) (Const 0) (Const 0) (Const 1)
           (Const 7) (Const 8) (Const 9) None None None).
  reflexivity.
Defined.

End SharedMatrices.

Section Construction.

(** ** Expressions from lists *)

Lemma set_nth_spec {A : Type} (l : list A) (i : nat) (x : A) :
  (i < length l)%nat ->
  exists l',
    set_nth l i x = Some l' /\ length l' = length l /\
    nth_error l' i = Some x /\
    forall k, k <> i -> nth_error l' k = nth_error l k.
Proof.
  revert i; induction l as [| h t IH]; intros i Hi; [cbn in Hi; lia |].
  destruct i as [| i].
  - exists (x :: t). repeat split. intros [| k] Hk; [contradiction | reflexivity].
  - cbn [length] in Hi. destruct (IH i ltac:(lia)) as (t' & E & Hlen & Hget & Hother).
    exists (h :: t'). cbn [set_nth]. rewrite E.
    split; [reflexivity |]. split; [cbn; lia |]. split; [exact Hget |].
    intros [| k] Hk; [reflexivity |]. cbn [nth_error]. apply Hother. lia.
Qed.

Lemma index_injective (n i j i' j' : nat) :
  (i < n)%nat -> (i' < n)%nat -> (i + j * n = i' + j' * n)%nat -> i = i' /\ j = j'.
Proof. intros Hi Hi' H. assert (j = j') by nia. subst. lia. Qed.

(** One assignment [s[i, j] = c]. *)
Lemma setitem2_spec (s : SX) (i j : nat) (c : scalar_operand) :
  wf s -> (i < size1 s)%nat -> (j < size2 s)%nat ->
  exists s',
    setitem2 s i j (operand c) = Ok s' /\
    size1 s' = size1 s /\ size2 s' = size2 s /\ wf s' /\
    get_ij s' i j = Ok (scalar (entry c)) /\
    forall i' j', (i' < size1 s)%nat -> (i', j') <> (i, j) ->
                  get_ij s' i' j' = get_ij s i' j'.
Proof.
  intros Hwf Hi Hj. unfold setitem2, setitem_value.
  rewrite operand_as_SX. cbn [bind]. unfold set_ij.
  apply Nat.ltb_lt in Hi as Hi'. apply Nat.ltb_lt in Hj as Hj'.
  rewrite Hi', Hj'. cbn [andb]. unfold set_lin. cbn [scalar entries is_scalar size1 size2 Nat.eqb andb].
  assert (Hk : (i + j * size1 s < length (entries s))%nat) by (unfold wf in Hwf; nia).
  destruct (set_nth_spec (entries s) _ (entry c) Hk) as (l' & E & Hlen & Hget & Hother).
  rewrite E. eexists. split; [reflexivity |]. cbn [size1 size2].
  split; [reflexivity |]. split; [reflexivity |].
  split; [unfold wf; cbn [entries size1 size2]; rewrite Hlen; exact Hwf |].
  split.
  - unfold get_ij. cbn [size1 size2]. rewrite Hi', Hj'. cbn [andb].
    unfold get_lin. cbn [entries]. rewrite Hget. reflexivity.
  - intros i' j' Hi2 Hne. unfold get_ij. cbn [size1 size2].
    destruct ((i' <? size1 s)%nat && (j' <? size2 s)%nat); [| reflexivity].
    unfold get_lin. cbn [entries]. rewrite Hother; [reflexivity |].
    intros Heq. apply Hne.
    destruct (index_injective (size1 s) i' j' i j Hi2 Hi Heq) as [-> ->]. reflexivity.
Qed.

Lemma getitem_row (row : list scalar_operand) (j : nat) :
  (j < length row)%nat ->
  py_getitem (PyList (map operand row)) j = Ok (operand (nth j row (Num 0))).
Proof.
  intros Hj. cbn [py_getitem].
  rewrite nth_error_map, (nth_error_nth' row (Num 0) Hj). reflexivity.
Qed.

Lemma getitem_short_row (row : list scalar_operand) :
  py_getitem (PyList (map operand row)) (length row) = Raise IndexError.
Proof.
  cbn [py_getitem]. rewrite nth_error_map.
  rewrite (proj2 (nth_error_None row (length row))) by lia. reflexivity.
Qed.

(** The loop over the entries of one row. *)
Lemma row_loop (i : nat) (row : list scalar_operand) : forall (y : nat) (s : SX),
  wf s -> (i < size1 s)%nat -> (y <= size2 s)%nat -> (y <= length row)%nat ->
  exists s',
    for_range y
      (fun s j => let* dij := py_getitem (PyList (map operand row)) j in
                  setitem2 s i j dij) s = Ok s' /\
    size1 s' = size1 s /\ size2 s' = size2 s /\ wf s' /\
    (forall j, (j < y)%nat -> get_ij s' i j = Ok (scalar (entry (nth j row (Num 0))))) /\
    (forall i' j', (i' < size1 s)%nat -> i' <> i \/ (y <= j')%nat ->
                   get_ij s' i' j' = get_ij s i' j').
Proof.
  induction y as [| y IH]; intros s Hwf Hi Hy Hrow.
  - exists s. split; [reflexivity |]. split; [reflexivity |]. split; [reflexivity |].
    split; [assumption |]. split; [intros; lia | intros; reflexivity].
  - destruct (IH s Hwf Hi ltac:(lia) ltac:(lia)) as (s1 & E1 & S1 & S2 & W1 & G1 & F1).
    cbn [for_range]. rewrite E1. cbn [bind].
    rewrite getitem_row by lia. cbn [bind].
    destruct (setitem2_spec s1 i y (nth y row (Num 0)) W1 ltac:(lia) ltac:(lia))
      as (s2 & E2 & T1 & T2 & W2 & G2 & F2).
    exists s2. split; [exact E2 |].
    split; [lia |]. split; [lia |]. split; [exact W2 |].
    split.
    + intros j Hj. destruct (Nat.eq_dec j y) as [-> | Hne]; [exact G2 |].
      rewrite F2; [apply G1; lia | lia | congruence].
    + intros i' j' Hi' Hor. rewrite F2; [apply F1; [exact Hi' | lia] | lia |].
      intros Heq. injection Heq as -> ->. lia.
Qed.

Lemma row_loop_short (i : nat) (row : list scalar_operand) (s : SX) : forall y : nat,
  wf s -> (i < size1 s)%nat -> (y <= size2 s)%nat -> (length row < y)%nat ->
  for_range y
    (fun s j => let* dij := py_getitem (PyList (map operand row)) j in
                setitem2 s i j dij) s = Raise IndexError.
Proof.
  induction y as [| y IH]; intros Hwf Hi Hy Hrow; [lia |].
  cbn [for_range].
  destruct (Nat.eq_dec (length row) y) as [<- | Hne].
  - destruct (row_loop i row (length row) s Hwf Hi ltac:(lia) ltac:(lia))
      as (s1 & E1 & _).
    rewrite E1. cbn [bind]. rewrite getitem_short_row. reflexivity.
  - rewrite IH by (assumption || lia). reflexivity.
Qed.

Lemma getitem_rows (rows : list (list scalar_operand)) (i : nat) :
  (i < length rows)%nat ->
  py_getitem (PyList (map (fun row => PyList (map operand row)) rows)) i
  = Ok (PyList (map operand (nth i rows []))).
Proof.
  intros Hi. cbn [py_getitem].
  rewrite nth_error_map, (nth_error_nth' rows [] Hi). reflexivity.
Qed.

Lemma SX_zeros_wf (x y : nat) : wf (SX_zeros x y).
Proof. unfold wf, SX_zeros. cbn [entries size1 size2]. apply repeat_length. Qed.

(** The loop over the rows. *)
Lemma rows_loop (rows : list (list scalar_operand)) (y : nat) :
  (1 < y)%nat ->
  forall n : nat,
    (n <= length rows)%nat ->
    (forall i, (i < n)%nat -> (y <= length (nth i rows []))%nat) ->
    exists s',
      for_range n
        (fun s i =>
           let* di := py_getitem (PyList (map (fun row => PyList (map operand row)) rows)) i in
           if (1 <? y)%nat then
             for_range y (fun s j => let* dij := py_getitem di j in setitem2 s i j dij) s
           else setitem s i di)
        (SX_zeros (length rows) y) = Ok s' /\
      size1 s' = length rows /\ size2 s' = y /\ wf s' /\
      forall i j, (i < n)%nat -> (j < y)%nat ->
                  get_ij s' i j = Ok (scalar (entry (nth j (nth i rows []) (Num 0)))).
Proof.
  intros Hy. apply Nat.ltb_lt in Hy as Hy'.
  induction n as [| n IH]; intros Hn Hrows.
  - exists (SX_zeros (length rows) y).
    split; [reflexivity |]. split; [reflexivity |]. split; [reflexivity |].
    split; [apply SX_zeros_wf | intros; lia].
  - destruct (IH ltac:(lia) ltac:(intros; apply Hrows; lia))
      as (s1 & E1 & S1 & S2 & W1 & G1).
    cbn [for_range]. rewrite E1. cbn [bind].
    rewrite getitem_rows by lia. cbn [bind]. rewrite Hy'.
    destruct (row_loop n (nth n rows []) y s1 W1 ltac:(lia) ltac:(lia)
                ltac:(apply Hrows; lia))
      as (s2 & E2 & T1 & T2 & W2 & G2 & F2).
    exists s2. split; [exact E2 |].
    split; [lia |]. split; [lia |]. split; [exact W2 |].
    intros i j Hi Hj. destruct (Nat.eq_dec i n) as [-> | Hne]; [apply G2; exact Hj |].
    rewrite F2; [apply G1; [lia | exact Hj] | lia | left; exact Hne].
Qed.

Lemma for_range_raises {S : Type} (f : S -> nat -> result S) (s : S) (e : exn) :
  forall n m, (n <= m)%nat -> for_range n f s = Raise e -> for_range m f s = Raise e.
Proof.
  intros n m Hnm Hn. induction Hnm as [| m Hnm IH]; [exact Hn |].
  cbn [for_range]. rewrite IH. reflexivity.
Qed.

(** X6: [Expression] of a list of rows has as many rows as the list and as
    many columns as the first row, and its entry in row i and column j is
    the j-th element of the i-th row.  Elements of a row beyond the length
    of the first row are left out without notice; a row that is shorter
    than the first one raises IndexError. *)
Theorem Expression_of_rows (first : list scalar_operand)
  (rest : list (list scalar_operand)) :
  let rows := first :: rest in
  let data := PyList (map (fun row => PyList (map operand row)) rows) in
  (1 < length first)%nat ->
  ((forall row, In row rest -> (length first <= length row)%nat) ->
   exists s,
     Expression___init__ data = Ok s /\
     shape s = (length rows, length first) /\
     forall i j, (i < length rows)%nat -> (j < length first)%nat ->
                 get_ij s i j = Ok (scalar (entry (nth j (nth i rows []) (Num 0))))) /\
  ((exists row, In row rest /\ (length row < length first)%nat) ->
   Expression___init__ data = Raise IndexError).
Proof.
  cbv zeta. intros Hy.
  set (rows := first :: rest).
  assert (E : Expression___init__
                (PyList (map (fun row => PyList (map operand row)) rows))
              = for_range (length rows)
                  (fun s i =>
                     let* di := py_getitem
                                  (PyList (map (fun row => PyList (map operand row)) rows)) i in
                     if (1 <? length first)%nat then
                       for_range (length first)
                         (fun s j => let* dij := py_getitem di j in setitem2 s i j dij) s
                     else setitem s i di)
                  (SX_zeros (length rows) (length first))).
  { subst rows. cbn [map Expression___init__ length]. rewrite !length_map. reflexivity. }
  rewrite E. split.
  - intros Hrows.
    destruct (rows_loop rows (length first) Hy (length rows) (le_n _)) as (s & Es & S1 & S2 & W & G).
    { intros i Hi. subst rows. destruct i as [| i]; [cbn; lia |].
      cbn [nth length] in *. apply Hrows. apply nth_In. lia. }
    exists s. split; [exact Es |]. split; [unfold shape; congruence |]. exact G.
  - intros (row & Hin & Hshort).
    assert (Hfirst : exists i, (i < length rows)%nat /\
                               (length (nth i rows []) < length first)%nat /\
                               forall k, (k < i)%nat ->
                                         (length first <= length (nth k rows []))%nat).
    { assert (Hex : exists i, (i < length rows)%nat /\
                              (length (nth i rows []) < length first)%nat).
      { destruct (In_nth _ _ [] Hin) as (i & Hi & Hnth).
        exists (S i). subst rows. cbn [length nth]. rewrite Hnth. split; lia. }
      destruct Hex as (i & Hi & Hlen). clear Hin Hshort row.
      induction i as [i IH] using lt_wf_ind.
      destruct (Forall_Exists_dec
                  (fun k => (length first <= length (nth k rows []))%nat)
                  (fun k => (length (nth k rows []) < length first)%nat)
                  (fun k => le_lt_dec _ _) (seq 0 i)) as [Hall | Hsome].
      - exists i. split; [exact Hi |]. split; [exact Hlen |].
        intros k Hk. rewrite List.Forall_forall in Hall. apply Hall. apply in_seq. lia.
      - apply List.Exists_exists in Hsome as (k & Hk & Hlt). apply in_seq in Hk.
        apply (IH k); lia. }
    destruct Hfirst as (i & Hi & Hlen & Hbefore).
    apply (for_range_raises _ _ _ (S i)); [lia |].
    cbn [for_range].
    destruct (rows_loop rows (length first) Hy i ltac:(lia) Hbefore)
      as (s & Es & S1 & S2 & W & _).
    rewrite Es. cbn [bind]. rewrite getitem_rows by lia. cbn [bind].
    apply Nat.ltb_lt in Hy as Hy'. rewrite Hy'.
    apply row_loop_short; (assumption || lia).
Qed.

Lemma Expression_of_rows_witness :
  let rows := [Num 1; Symb "a"] :: [[Num 3; Num 4; Num 5]] in
  let data := PyList (map (fun row => PyList (map operand row)) rows) in
  ((forall row, In row [[Num 3; Num 4; Num 5]] ->
                (length [Num 1; Symb "a"] <= length row)%nat) ->
   exists s,
     Expression___init__ data = Ok s /\
     shape s = (length rows, length [Num 1; Symb "a"]) /\
     forall i j, (i < length rows)%nat -> (j < length [Num 1; Symb "a"])%nat ->
                 get_ij s i j = Ok (scalar (entry (nth j (nth i rows []) (Num 0))))) /\
  ((exists row, In row [[Num 3; Num 4; Num 5]] /\
                (length row < length [Num 1; Symb "a"])%nat) ->
   Expression___init__ data = Raise IndexError).
Proof.
  apply (Expression_of_rows [Num 1; Symb "a"] [[Num 3; Num 4; Num 5]]).
  cbn. lia.
Defined.

End Construction.

Section BinaryLogic.

(** ** Disjunction of any number of conditions *)

Variable rho : string -> option R.

Lemma Req_b_false x y : x <> y -> Req_b x y = false.
Proof. intros H. unfold Req_b. destruct (Req_dec_T x y); [contradiction | reflexivity]. Qed.

Lemma is_true_symbol_0 : is_true_symbol (PyNum 0) = Ok false.
Proof.
  cbn. rewrite (Req_b_false 1 0) by lra. cbn. rewrite Rzero_0. reflexivity.
Qed.

Lemma is_false_symbol_0 : is_false_symbol (PyNum 0) = Ok true.
Proof.
  cbn. unfold Req_b. destruct (Req_dec_T 0 0); [| contradiction]. cbn.
  rewrite Rzero_false by lra. reflexivity.
Qed.

(** Operands that neither test finds to be constant stay, and a [False]
    behind them goes. *)
Lemma rfilter_keep (ys : list scalar_operand) (tail : list pyobj) :
  (forall y, In y ys -> is_true_symbol (operand y) = Ok false /\
                        is_false_symbol (operand y) = Ok false) ->
  tail = [] \/ tail = [PyNum 0] ->
  rfilter is_true_symbol (map operand ys ++ tail) = Ok [] /\
  rfilter (fun x => let* b := is_false_symbol x in Ok (negb b)) (map operand ys ++ tail)
  = Ok (map operand ys).
Proof.
  intros Hys Htail. induction ys as [| y ys IH].
  - destruct Htail as [-> | ->]; cbn [map app rfilter]; [split; reflexivity |].
    rewrite is_true_symbol_0, is_false_symbol_0. split; reflexivity.
  - destruct (Hys y (or_introl eq_refl)) as [Ht Hf].
    destruct (IH (fun z Hz => Hys z (or_intror Hz))) as [IHt IHf].
    cbn [map app rfilter]. rewrite Ht, Hf, IHt, IHf. split; reflexivity.
Qed.

Lemma rfilter_length {A : Type} (test : A -> result bool) (l l' : list A) :
  rfilter test l = Ok l' -> (length l' <= length l)%nat.
Proof.
  revert l'; induction l as [| x l IH]; intros l' H; cbn [rfilter] in H.
  - injection H as <-. lia.
  - destruct (test x) as [b | e]; [| discriminate]. cbn [bind] in H.
    destruct (rfilter test l) as [t |] eqn:E; [| discriminate]. cbn [bind] in H.
    injection H as <-. specialize (IH t eq_refl). destruct b; cbn [length]; lia.
Qed.

Lemma or_operands (a : scalar_operand) (e : sx) :
  (let* a' := as_SX (_to_sx (operand a)) in
   let* r := as_SX (_to_sx (PyExpression (scalar e))) in
   let* r := binary OpOr a' r in
   Expression (PySX r))
  = Ok (PyExpression (scalar (Bin OpOr (entry a) e))).
Proof. rewrite operand_as_SX. reflexivity. Qed.

(** The disjunction that is built of the operands that are left. *)
Lemma logic_or_rec_tree : forall (fuel : nat) (xs : list pyobj) (ys : list scalar_operand),
  (2 <= length ys)%nat -> (length ys <= fuel)%nat ->
  rfilter is_true_symbol xs = Ok [] ->
  rfilter (fun x => let* b := is_false_symbol x in Ok (negb b)) xs = Ok (map operand ys) ->
  (forall y, In y ys -> is_true_symbol (operand y) = Ok false /\
                        is_false_symbol (operand y) = Ok false) ->
  logic_or_rec fuel xs true = Ok (PyExpression (scalar (or_tree (map entry ys)))).
Proof.
  induction fuel as [| fuel IH]; intros xs ys Hlen Hfuel Htrue Hfilter Hys; [lia |].
  cbn [logic_or_rec].
  pose proof (rfilter_length _ _ _ Hfilter) as Hxs. rewrite length_map in Hxs.
  destruct (length xs <? 2)%nat eqn:E; [apply Nat.ltb_lt in E; lia |].
  rewrite Htrue, Hfilter. cbn [bind].
  destruct ys as [| a [| b [| c rest]]]; cbn [length] in Hlen; try lia.
  - cbn [map]. rewrite !operand_as_SX. reflexivity.
  - cbn [map].
    destruct (rfilter_keep (b :: c :: rest) [PyNum 0]
                (fun z Hz => Hys z (or_intror Hz)) (or_intror eq_refl)) as [Kt Kf].
    change (operand b :: operand c :: map operand rest ++ [PyNum 0])
      with (map operand (b :: c :: rest) ++ [PyNum 0]).
    rewrite (IH _ (b :: c :: rest)); try assumption.
    + cbn [bind]. rewrite or_operands. reflexivity.
    + cbn [length]; lia.
    + cbn [length] in *; lia.
    + intros z Hz. apply Hys. right. exact Hz.
Qed.

Lemma true_symbols (xs : list scalar_operand) (vs : list R) :
  Forall2 (has_value rho) xs vs ->
  exists ts,
    rfilter is_true_symbol (map operand xs) = Ok ts /\
    (ts = [] -> forall x, In x xs -> is_true_symbol (operand x) = Ok false) /\
    (ts <> [] -> existsb nonzero vs = true).
Proof.
  induction 1 as [| x v xs vs [Hv Hb] H IH].
  - exists []. split; [reflexivity |]. split; [intros _ x [] | congruence].
  - destruct IH as (ts & E & Hnil & Hcons).
    rewrite <- value_entry in Hv.
    destruct (is_true_symbol_operand rho x v Hv) as (b & Eb & Hone).
    cbn [map rfilter]. rewrite Eb, E. cbn [bind].
    destruct b.
    + eexists. split; [reflexivity |]. split; [discriminate |].
      intros _. cbn [existsb]. unfold nonzero at 1.
      rewrite (Hone eq_refl), Rzero_false by lra. reflexivity.
    + exists ts. split; [reflexivity |]. split.
      * intros -> z [<- | Hz]; [exact Eb | apply Hnil; [reflexivity | exact Hz]].
      * intros Hne. cbn [existsb]. rewrite (Hcons Hne). apply orb_true_r.
Qed.

Lemma not_false_symbols (xs : list scalar_operand) (vs : list R) :
  Forall2 (has_value rho) xs vs ->
  exists ys ws,
    rfilter (fun x => let* b := is_false_symbol x in Ok (negb b)) (map operand xs)
    = Ok (map operand ys) /\
    Forall2 (has_value rho) ys ws /\
    existsb nonzero ws = existsb nonzero vs /\
    forall y, In y ys -> is_false_symbol (operand y) = Ok false /\ In y xs.
Proof.
  induction 1 as [| x v xs vs [Hv Hb] H IH].
  - exists [], []. split; [reflexivity |]. split; [constructor |].
    split; [reflexivity |]. intros y [].
  - destruct IH as (ys & ws & E & Hval & Hex & Hin).
    pose proof Hv as Hv'. rewrite <- value_entry in Hv'.
    destruct (is_false_symbol_operand rho x v Hv') as (b & Eb & Hzero).
    cbn [map rfilter]. rewrite Eb, E. cbn [bind].
    destruct b; cbn [negb].
    + exists ys, ws. split; [reflexivity |]. split; [exact Hval |].
      split.
      * cbn [existsb]. unfold nonzero at 2. rewrite (Hzero eq_refl), Rzero_0. exact Hex.
      * intros z Hz. destruct (Hin z Hz). split; [assumption | right; assumption].
    + exists (x :: ys), (v :: ws). split; [reflexivity |].
      split; [constructor; [split; assumption | exact Hval] |].
      split; [cbn [existsb]; rewrite Hex; reflexivity |].
      intros z [<- | Hz]; [split; [exact Eb | left; reflexivity] |].
      destruct (Hin z Hz). split; [assumption | right; assumption].
Qed.

Lemma or_tree_value (ys : list scalar_operand) (ws : list R) :
  Forall2 (has_value rho) ys ws ->
  eval rho (or_tree (map entry ys)) = Some (truth (existsb nonzero ws)).
Proof.
  induction 1 as [| y w ys ws [Hw Hb] H IH]; [reflexivity |].
  destruct ys as [| y' ys].
  - inversion H; subst. cbn [map or_tree existsb]. rewrite Hw, orb_false_r.
    unfold nonzero. destruct Hb as [-> | ->].
    + rewrite Rzero_0. reflexivity.
    + rewrite Rzero_false by lra. reflexivity.
  - change (or_tree (map entry (y :: y' :: ys)))
      with (Bin OpOr (entry y) (or_tree (map entry (y' :: ys)))).
    cbn [eval]. rewrite Hw, IH. cbn [obind eval_binop existsb].
    rewrite Rzero_truth, negb_involutive. reflexivity.
Qed.

(** X11: [logic_or] of two or more conditions that are 0 or 1 is 1 when one
    of them is not 0 and 0 otherwise, for any number of conditions: the call
    for the remaining conditions passes [False] as one more condition,
    which is filtered out again. *)
Theorem logic_or_is_the_disjunction (xs : list scalar_operand) (vs : list R) :
  (2 <= length xs)%nat ->
  Forall2 (has_value rho) xs vs ->
  exists r,
    logic_or (map operand xs) true = Ok r /\
    value rho r = Some (truth (existsb nonzero vs)).
Proof.
  intros Hlen Hvals.
  destruct (true_symbols xs vs Hvals) as (ts & Et & Hnil & Hcons).
  destruct (not_false_symbols xs vs Hvals) as (ys & ws & Ef & Hws & Hex & Hin).
  pose proof (rfilter_length _ _ _ Ef) as Hys. rewrite !length_map in Hys.
  unfold logic_or. rewrite length_map.
  destruct ts as [| t ts].
  - destruct (le_lt_dec 2 (length ys)) as [Hge | Hlt].
    + eexists. split.
      * apply (logic_or_rec_tree _ _ ys); try assumption; [lia |].
        intros y Hy. destruct (Hin y Hy) as [Hf Hx].
        split; [apply Hnil; [reflexivity | exact Hx] | exact Hf].
      * cbn [value scalar entries]. rewrite (or_tree_value ys ws Hws), Hex. reflexivity.
    + cbn [logic_or_rec]. rewrite length_map.
      destruct (length xs <? 2)%nat eqn:E; [apply Nat.ltb_lt in E; lia |].
      rewrite Et, Ef. cbn [bind].
      destruct ys as [| y [| y' ys]]; [| | cbn [length] in Hlt; lia].
      * inversion Hws; subst. eexists. split; [reflexivity |].
        rewrite <- Hex. reflexivity.
      * eexists. split; [reflexivity |].
        rewrite value_entry, <- Hex.
        exact (or_tree_value [y] ws Hws).
  - cbn [logic_or_rec]. rewrite length_map.
    destruct (length xs <? 2)%nat eqn:E; [apply Nat.ltb_lt in E; lia |].
    rewrite Et. cbn [bind].
    eexists. split; [reflexivity |].
    rewrite (Hcons ltac:(discriminate)). reflexivity.
Qed.

End BinaryLogic.

Lemma logic_or_is_the_disjunction_witness :
  exists r,
    logic_or (map operand [Symb "a"; Symb "b"; Symb "c"; Symb "d"]) true = Ok r /\
    value (fun _ => Some 0) r = Some (truth (existsb nonzero [0; 0; 0; 0])).
Proof.
  apply (logic_or_is_the_disjunction (fun _ => Some 0)
           [Symb "a"; Symb "b"; Symb "c"; Symb "d"] [0; 0; 0; 0]).
  - cbn; lia.
  - repeat (constructor; [split; [reflexivity | left; reflexivity] |]). constructor.
Defined.

Section Distances.

(** ** Distance to a line segment *)

Variables (rho : string -> option R).
Variables (px py pz sx_ sy sz ex ey ez : sx).
Variables (p1 p2 p3 s1 s2 s3 e1 e2 e3 : R).
Hypothesis Hpx : eval rho px = Some p1.
Hypothesis Hpy : eval rho py = Some p2.
Hypothesis Hpz : eval rho pz = Some p3.
Hypothesis Hsx : eval rho sx_ = Some s1.
Hypothesis Hsy : eval rho sy = Some s2.
Hypothesis Hsz : eval rho sz = Some s3.
Hypothesis Hex : eval rho ex = Some e1.
Hypothesis Hey : eval rho ey = Some e2.
Hypothesis Hez : eval rho ez = Some e3.

(** X21: [distance_point_to_line_segment] of a point and a segment whose ends
    differ: the nearest point is start + t (end - start) for a t between 0
    and 1, the projection of the point on the line clamped to the segment;
    the distance is the length from the point to it.  The nearest point has
    the reference frame of the end of the segment. *)
Theorem nearest_point_of_a_segment (rfp rfs rfe : option Body) :
  let l1 := e1 - s1 in let l2 := e2 - s2 in let l3 := e3 - s3 in
  let t := Rmax 0 (Rmin 1 ((l1 * (p1 - s1) + l2 * (p2 - s2) + l3 * (p3 - s3))
                           / (l1 * l1 + l2 * l2 + l3 * l3))) in
  l1 * l1 + l2 * l2 + l3 * l3 <> 0 ->
  exists dist nearest,
    distance_point_to_line_segment (PyPoint3 (point px py pz rfp))
      (PyPoint3 (point sx_ sy sz rfs)) (PyPoint3 (point ex ey ez rfe))
    = Ok (dist, nearest) /\
    0 <= t <= 1 /\
    eval_matrix rho (Point3_s nearest)
    = Some (mkMatrix 4 1 [s1 + t * l1; s2 + t * l2; s3 + t * l3; 1]) /\
    value rho dist
    = Some (R_sqrt.sqrt ((s1 + t * l1 - p1) * (s1 + t * l1 - p1)
                         + (s2 + t * l2 - p2) * (s2 + t * l2 - p2)
                         + (s3 + t * l3 - p3) * (s3 + t * l3 - p3))) /\
    Point3_reference_frame nearest = rfe.
Proof.
  cbv zeta. intros Hne.
  set (l1 := e1 - s1) in *. set (l2 := e2 - s2) in *. set (l3 := e3 - s3) in *.
  assert (N : ~ 0 + l1 * l1 + l2 * l2 + l3 * l3 < 0) by nra.
  assert (HLL : R_sqrt.sqrt (0 + l1 * l1 + l2 * l2 + l3 * l3)
                * R_sqrt.sqrt (0 + l1 * l1 + l2 * l2 + l3 * l3)
                = l1 * l1 + l2 * l2 + l3 * l3) by (rewrite sqrt_sqrt; nra).
  assert (HL : R_sqrt.sqrt (0 + l1 * l1 + l2 * l2 + l3 * l3) <> 0)
    by (intros H0; rewrite H0 in HLL; lra).
  set (L := R_sqrt.sqrt (0 + l1 * l1 + l2 * l2 + l3 * l3)) in *.
  assert (Harg : 0 + l1 / L * ((p1 - s1) / L) + l2 / L * ((p2 - s2) / L)
                 + l3 / L * ((p3 - s3) / L)
                 = (l1 * (p1 - s1) + l2 * (p2 - s2) + l3 * (p3 - s3))
                   / (l1 * l1 + l2 * l2 + l3 * l3))
    by (rewrite <- HLL; field; exact HL).
  do 2 eexists. split; [cbv -[IZR]; reflexivity |].
  split; [minmax |].
  split.
  { cbn [Point3_s]. apply eval_matrix_values. repeat constructor; values.
    all: fold l1 l2 l3; rewrite ?(Rlt_b_false _ _ N); cbn [obind]; fold L;
      rewrite ?(Rzero_false _ HL); cbn [obind]; rewrite ?Harg; f_equal; ring. }
  split; [| reflexivity].
  cbn [value entries]. values.
  fold l1 l2 l3; rewrite ?(Rlt_b_false _ _ N); cbn [obind]; fold L;
      rewrite ?(Rzero_false _ HL); cbn [obind]; rewrite ?Harg.
  assert (N3 : forall u v w : R, ~ 0 + u * u + v * v + w * w < 0) by (intros; nra).
  rewrite (Rlt_b_false _ _ (N3 _ _ _)). do 2 f_equal. ring.
Qed.
End Distances.

Lemma nearest_point_of_a_segment_witness :
  let l1 := 4 - 0 in let l2 := 0 - 0 in let l3 := 0 - 0 in
  let t := Rmax 0 (Rmin 1 ((l1 * (1 - 0) + l2 * (2 - 0) + l3 * (0 - 0))
                           / (l1 * l1 + l2 * l2 + l3 * l3))) in
  exists dist nearest,
    distance_point_to_line_segment
      (PyPoint3 (point (Const 1) (Sym "y") (Const 0) None))
      (PyPoint3 (point (Const 0) (Const 0) (Const 0) None))
      (PyPoint3 (point (Const 4) (Const 0) (Const 0) None))
    = Ok (dist, nearest) /\
    0 <= t <= 1 /\
    eval_matrix (fun _ => Some 2) (Point3_s nearest)
    = Some (mkMatrix 4 1 [0 + t * l1; 0 + t * l2; 0 + t * l3; 1]) /\
    value (fun _ => Some 2) dist
    = Some (R_sqrt.sqrt ((0 + t * l1 - 1) * (0 + t * l1 - 1)
                         + (0 + t * l2 - 2) * (0 + t * l2 - 2)
                         + (0 + t * l3 - 0) * (0 + t * l3 - 0))) /\
    Point3_reference_frame nearest = None.
Proof.
  apply (nearest_point_of_a_segment (fun _ => Some 2)
           (Const 1) (Sym "y") (Const 0) (Const 0) (Const 0) (Const 0)
           (Const 4) (Const 0) (Const 0) 1 2 0 0 0 0 4 0 0
           eq_refl eq_refl eq_refl eq_refl eq_refl eq_refl eq_refl eq_refl eq_refl
           None None None).
  lra.
Defined.
